(** * SimpleGrace: the value formatter and the in-place merge of [simple_grace.py]

    The development embeds [remove_chars], [XMGrace.clean_entry],
    [Set.as_list], [Group.as_list], [Graph.__init__], [Graph.create_file]
    and [get_file_differences] as Rocq functions and proves the properties
    the specification states about them.  It then embeds the rest of the
    module ([get_longest_string_length], [ask_prompt],
    [find_xmgrace_folder], [Set.__str__], [Group.__str__] and the methods
    [open], [is_valid_file], [create_pdf] and [get_data_portion] of
    [XMGrace]) and proves further properties that the code shows.

    Text is a list of characters, the 256 code points of [ascii].  A file
    is read as [open(path, 'r')] reads it, with universal newlines: LF,
    CR LF and a lone CR end a line and are read as LF.  It is written as
    on a POSIX system, where [open(path, 'w')] writes the characters as
    they are, so that writing a file is the concatenation of the emitted
    lines.

    [str] of an [int] and [int] of a [str] are modelled without the limit
    on the number of digits that Python 3.11 introduced (4300 by default,
    lifted by [sys.set_int_max_str_digits(0)]).  The properties that
    promise that a conversion returns are stated for integers and lines
    within the default limit, so that they hold with the limit too. *)

From Stdlib Require Import ZArith Ascii String Decimal DecimalPos DecimalZ Lia Bool.
From Stdlib Require Import Floats.SpecFloat.
From stdpp Require Import base tactics option list.

Local Open Scope Z_scope.

(** ** Text *)

Abbreviation text := (list ascii).

(** A Python string literal. *)
Definition str (s : string) : text := list_ascii_of_string s.

Definition ascii_eqb (a b : ascii) : bool := Ascii.eqb a b.
Global Arguments ascii_eqb : simpl never.

Definition code (c : ascii) : N := N_of_ascii c.

Definition NL : ascii := Eval cbv in ascii_of_nat 10.

(** [s.startswith(p)] *)
Fixpoint startswith (p s : text) : bool :=
  match p, s with
  | [], _ => true
  | _ :: _, [] => false
  | a :: p', b :: s' => ascii_eqb a b && startswith p' s'
  end.

(** [needle in s]: the needle occurs at some position of [s]. *)
Fixpoint contains (needle s : text) : bool :=
  startswith needle s ||
  match s with
  | [] => false
  | _ :: s' => contains needle s'
  end.

(** [s.replace(old, '')] for a non-empty [old]: the occurrences are found
    from the left and do not overlap.  The fuel is the length of [s]. *)
Fixpoint remove_all_fuel (fuel : nat) (old s : text) : text :=
  match fuel with
  | O => s
  | S fuel' =>
      match s with
      | [] => []
      | c :: s' =>
          if startswith old s
          then remove_all_fuel fuel' old (drop (length old) s)
          else c :: remove_all_fuel fuel' old s'
      end
  end.

Definition remove_all (old s : text) : text := remove_all_fuel (length s) old s.

(** [s == t] *)
Fixpoint text_eqb (s t : text) : bool :=
  match s, t with
  | [], [] => true
  | a :: s', b :: t' => ascii_eqb a b && text_eqb s' t'
  | _, _ => false
  end.

(** [s.lower()]: the capital letters of ASCII and of Latin-1 (the
    multiplication sign, 215, is not one). *)
Definition lower_char (c : ascii) : ascii :=
  let n := code c in
  if (((65 <=? n) && (n <=? 90))
      || ((192 <=? n) && (n <=? 222) && negb (n =? 215)))%N
  then ascii_of_N (n + 32) else c.

Definition lower (s : text) : text := map lower_char s.

(** [remove_chars(string, chars)]: the characters of [string] that are not in
    [chars]. *)
Definition member (c : ascii) (chars : text) : bool := existsb (ascii_eqb c) chars.

Definition remove_chars_of (chars s : text) : text :=
  filter (fun c => member c chars = false) s.

Definition DEFAULT_CHARS : text := Eval cbv in str ",()[]'".

Definition remove_chars (s : text) : text := remove_chars_of DEFAULT_CHARS s.

(** ** Integers as text *)

Definition is_digit (c : ascii) : bool :=
  let n := code c in ((48 <=? n) && (n <=? 57))%N.

Definition digit_char (d : N) : ascii := ascii_of_N (48 + d).

Fixpoint chars_of_uint (d : uint) : text :=
  match d with
  | Nil => []
  | D0 d => digit_char 0 :: chars_of_uint d
  | D1 d => digit_char 1 :: chars_of_uint d
  | D2 d => digit_char 2 :: chars_of_uint d
  | D3 d => digit_char 3 :: chars_of_uint d
  | D4 d => digit_char 4 :: chars_of_uint d
  | D5 d => digit_char 5 :: chars_of_uint d
  | D6 d => digit_char 6 :: chars_of_uint d
  | D7 d => digit_char 7 :: chars_of_uint d
  | D8 d => digit_char 8 :: chars_of_uint d
  | D9 d => digit_char 9 :: chars_of_uint d
  end.

Definition MINUS : ascii := Eval cbv in ascii_of_nat 45.
Definition PLUS : ascii := Eval cbv in ascii_of_nat 43.
Definition UNDERSCORE : ascii := Eval cbv in ascii_of_nat 95.

(** [str(n)] for an [int], without the limit on the number of digits (see
    [within_limit]). *)
Definition str_of_Z (n : Z) : text :=
  match Z.to_int n with
  | Pos d => chars_of_uint d
  | Neg d => MINUS :: chars_of_uint d
  end.

(** The digit a character denotes. *)
Definition push_digit (c : ascii) (d : uint) : uint :=
  match (code c - 48)%N with
  | 0 => D0 d | 1 => D1 d | 2 => D2 d | 3 => D3 d | 4 => D4 d
  | 5 => D5 d | 6 => D6 d | 7 => D7 d | 8 => D8 d | _ => D9 d
  end%N.

(** Digits with single underscores between them, as [int()] accepts them.
    [after_digit] tells whether the previous character was a digit. *)
Fixpoint uint_of_chars (after_digit : bool) (s : text) : option uint :=
  match s with
  | [] => if after_digit then Some Nil else None
  | c :: s' =>
      if is_digit c then push_digit c <$> uint_of_chars true s'
      else if ascii_eqb c UNDERSCORE && after_digit then
        match s' with
        | c' :: _ => if is_digit c' then uint_of_chars false s' else None
        | [] => None
        end
      else None
  end.

(** The characters [int()] and [str.strip()] treat as white space. *)
Definition is_space (c : ascii) : bool :=
  let n := code c in
  (((9 <=? n) && (n <=? 13)) || ((28 <=? n) && (n <=? 32))
   || (n =? 133) || (n =? 160))%N.

Fixpoint lstrip (s : text) : text :=
  match s with
  | c :: s' => if is_space c then lstrip s' else s
  | [] => []
  end.

Definition rstrip (s : text) : text := reverse (lstrip (reverse s)).

Definition strip (s : text) : text := rstrip (lstrip s).

(** [int(s)]: [None] stands for the [ValueError] it raises. *)
Definition py_int (s : text) : option Z :=
  match strip s with
  | c :: s' =>
      if ascii_eqb c MINUS then (fun d => Z.opp (Z.of_uint d)) <$> uint_of_chars false s'
      else if ascii_eqb c PLUS then Z.of_uint <$> uint_of_chars false s'
      else Z.of_uint <$> uint_of_chars false (c :: s')
  | [] => None
  end.

(** ** Floats

    A Python [float] is an IEEE 754 binary64 value, here a [spec_float]:
    [S754_finite s m e] is [(-1)^s * m * 2^e].  Positive rationals are pairs
    (numerator, denominator); all arithmetic on them is exact. *)

Definition ratio : Type := Z * Z.

Definition ratio_of_dyadic (m : positive) (e : Z) : ratio :=
  if 0 <=? e then (Z.pos m * 2 ^ e, 1) else (Z.pos m, 2 ^ (- e)).

(** [x / b^q] *)
Definition scale (b : Z) (x : ratio) (q : Z) : ratio :=
  let '(n, d) := x in
  if 0 <=? q then (n, d * b ^ q) else (n * b ^ (- q), d).

(** [x < b^p] *)
Definition below_pow (b : Z) (x : ratio) (p : Z) : bool :=
  let '(n, d) := x in
  if 0 <=? p then n <? d * b ^ p else n * b ^ (- p) <? d.

(** Rounding to the nearest integer, ties to the even one. *)
Definition round_half_even (x : ratio) : Z :=
  let '(n, d) := x in
  let q := n / d in
  let r := n mod d in
  if 2 * r <? d then q
  else if d <? 2 * r then q + 1
  else if Z.even q then q else q + 1.

(** The [p] with [b^(p-1) <= x < b^p], searched upwards from [p]. *)
Fixpoint first_below (fuel : nat) (b : Z) (x : ratio) (p : Z) : Z :=
  match fuel with
  | O => p
  | S fuel' => if below_pow b x p then p else first_below fuel' b x (p + 1)
  end.

(** The least [q >= p] with [n / d < 10^(q - p)], searched upwards. *)
Fixpoint decpt_from (fuel : nat) (n d : Z) (p : Z) : Z :=
  match fuel with
  | O => p
  | S fuel' => if n <? d then p else decpt_from fuel' n (d * 10) (p + 1)
  end.

(** The position of the decimal point: [10^(decpt-1) <= x < 10^decpt].
    The search covers the range of binary64: it starts at [1e-330], below
    the least positive float [5e-324], and ends above the largest one,
    [1.8e308]. *)
Definition decpt_of (x : ratio) : Z :=
  let '(n, d) := x in decpt_from 700 (n * 10 ^ 330) d (-330).

(** The binary exponent: [2^(p-1) <= x < 2^p]. *)
Definition binpt_of (x : ratio) : Z :=
  let '(n, d) := x in
  first_below 3 2 x (Z.log2 n - Z.log2 d).

(** The binary64 nearest to a positive rational (ties to even), which is what
    [float(text)] returns for the decimal numeral [text] denotes. *)
Definition round64 (s : bool) (x : ratio) : spec_float :=
  let e := Z.max (binpt_of x - 53) (-1074) in
  let q := round_half_even (scale 2 x e) in
  if q =? 0 then S754_zero s
  else if (0 <=? e) && (2 ^ 1024 <=? q * 2 ^ e) then S754_infinity s
  else S754_finite s (Z.to_pos q) e.

(** Exact comparison of two floats' values, [x == y] on non-NaN floats. *)
Definition float_eqb (x y : spec_float) : bool :=
  match x, y with
  | S754_zero _, S754_zero _ => true
  | S754_infinity a, S754_infinity b => Bool.eqb a b
  | S754_finite a m e, S754_finite b m' e' =>
      Bool.eqb a b &&
      (let k := Z.min e e' in Z.pos m * 2 ^ (e - k) =? Z.pos m' * 2 ^ (e' - k))
  | _, _ => false
  end.

(** *** Digit generation

    The result of the digit generator of [float.__format__] and
    [float.__repr__]: the special values, a signed zero, or a sign and the
    decimal [D * 10^q] with the generated digits [D]. *)
Inductive digits : Type :=
  | DgNan
  | DgInf (neg : bool)
  | DgZero (neg : bool)
  | DgNum (neg : bool) (D : positive) (q : Z).

Definition ZERO : ascii := Eval cbv in ascii_of_nat 48.

Fixpoint strip_zeros_left (s : text) : text :=
  match s with
  | c :: s' => if ascii_eqb c ZERO then strip_zeros_left s' else s
  | [] => []
  end.

Definition strip_trailing_zeros (s : text) : text :=
  reverse (strip_zeros_left (reverse s)).

(** The digits [D], standing for [D * 10^q]. *)
Definition digits_of (neg : bool) (D q : Z) : digits :=
  match D with
  | Z.pos D' => DgNum neg D' q
  | _ => DgZero neg
  end.

(** The significant digits without trailing zeros and the position of the
    decimal point: the digits stand for [0.d1d2...dn * 10^decpt]. *)
Definition significant (g : digits) : text * Z :=
  match g with
  | DgNum _ D q =>
      let ds := str_of_Z (Z.pos D) in
      (strip_trailing_zeros ds, q + Z.of_nat (length ds))
  | _ => ([ZERO], 1)
  end.

(** The decimal numeral correctly rounded to [ndigits] significant digits. *)
Definition dtoa_fixed (ndigits : Z) (x : spec_float) : digits :=
  match x with
  | S754_nan => DgNan
  | S754_infinity s => DgInf s
  | S754_zero s => DgZero s
  | S754_finite s m e =>
      let r := ratio_of_dyadic m e in
      let q := decpt_of r - ndigits in
      digits_of s (round_half_even (scale 10 r q)) q
  end.

(** The value [D * 10^q] as a rational. *)
Definition decimal (D q : Z) : ratio := scale 10 (D, 1) (- q).

(** The shortest decimal numeral that reads back as [x]; among the numerals
    of that length the one nearest to [x]. *)
Fixpoint shortest (fuel : nat) (s : bool) (m : positive) (e : Z) (k : Z) : digits :=
  let r := ratio_of_dyadic m e in
  let q := decpt_of r - k in
  let '(n, d) := scale 10 r q in
  let near := round_half_even (n, d) in
  let far := if near =? n / d then n / d + 1 else n / d in
  let reads_back D := float_eqb (round64 s (decimal D q)) (S754_finite s m e) in
  match fuel with
  | O => digits_of s near q
  | S fuel' =>
      if reads_back near then digits_of s near q
      else if reads_back far then digits_of s far q
      else shortest fuel' s m e (k + 1)
  end.

Definition dtoa_shortest (x : spec_float) : digits :=
  match x with
  | S754_nan => DgNan
  | S754_infinity s => DgInf s
  | S754_zero s => DgZero s
  | S754_finite s m e => shortest 16 s m e 1
  end.

(** The float that [float(text)] reads from the numeral the digits print as. *)
Definition float_of_digits (g : digits) : spec_float :=
  match g with
  | DgNan => S754_nan
  | DgInf s => S754_infinity s
  | DgZero s => S754_zero s
  | DgNum s D q => round64 s (decimal (Z.pos D) q)
  end.
(** *** Printing the digits

    [format_float_short]: fixed notation while [-4 < decpt <= upper], with at
    least one digit after the point, and exponent notation otherwise. *)

Definition DOT : ascii := Eval cbv in ascii_of_nat 46.
Definition LETTER_E : ascii := Eval cbv in ascii_of_nat 101.

Definition zeros (n : Z) : text := replicate (Z.to_nat n) ZERO.

Definition sign_text (neg : bool) : text := if neg then [MINUS] else [].

(** [%+.02d] *)
Definition exponent_text (exp : Z) : text :=
  let ds := str_of_Z (Z.abs exp) in
  LETTER_E :: (if exp <? 0 then MINUS else PLUS)
  :: (if Z.abs exp <? 10 then ZERO :: ds else ds).

Definition format_short (upper : Z) (g : digits) : text :=
  match g with
  | DgNan => str "nan"
  | DgInf neg => sign_text neg ++ str "inf"
  | DgZero neg | DgNum neg _ _ =>
      let '(ds, decpt) := significant g in
      sign_text neg ++
      (if (decpt <=? -4) || (upper <? decpt) then
         take 1 ds
         ++ match drop 1 ds with [] => [] | frac => DOT :: frac end
         ++ exponent_text (decpt - 1)
       else if decpt <=? 0 then
         ZERO :: DOT :: zeros (- decpt) ++ ds
       else if Z.of_nat (length ds) <=? decpt then
         ds ++ zeros (decpt - Z.of_nat (length ds)) ++ [DOT; ZERO]
       else
         take (Z.to_nat decpt) ds ++ DOT :: drop (Z.to_nat decpt) ds)
  end.

(** [XMGrace.PRECISION] *)
Definition PRECISION : Z := 8.

(** [f"{x:.{XMGrace.PRECISION}}"] *)
Definition format_float (x : spec_float) : text :=
  format_short (PRECISION - 1) (dtoa_fixed PRECISION x).

(** [float(f"{x:.{XMGrace.PRECISION}}")] *)
Definition float_of_formatted (x : spec_float) : spec_float :=
  float_of_digits (dtoa_fixed PRECISION x).

(** [repr(x)] and [str(x)] of a float. *)
Definition repr_float (x : spec_float) : text :=
  format_short 16 (dtoa_shortest x).

(** *** [repr] of a [str] *)

Definition QUOTE : ascii := Eval cbv in ascii_of_nat 39.
Definition DQUOTE : ascii := Eval cbv in ascii_of_nat 34.
Definition BACKSLASH : ascii := Eval cbv in ascii_of_nat 92.

Definition hex_char (d : N) : ascii :=
  if (d <? 10)%N then ascii_of_N (48 + d) else ascii_of_N (87 + d).

Definition printable (c : ascii) : bool :=
  let n := code c in
  negb ((n <? 32) || ((127 <=? n) && (n <=? 160)) || (n =? 173))%N.

Definition escape_char (quote c : ascii) : text :=
  if ascii_eqb c quote || ascii_eqb c BACKSLASH then [BACKSLASH; c]
  else if (code c =? 9)%N then str "\t"
  else if (code c =? 10)%N then str "\n"
  else if (code c =? 13)%N then str "\r"
  else if printable c then [c]
  else [BACKSLASH; "x"%char; hex_char (code c / 16); hex_char (code c mod 16)].

Definition repr_str (s : text) : text :=
  let quote :=
    if member QUOTE s && negb (member DQUOTE s) then DQUOTE else QUOTE in
  quote :: concat (map (escape_char quote) s) ++ [quote].

(** ** Values, exceptions and results *)

(** A component of a data point: a [float], an [int], a [str], or an
    instance of a subclass of [float] that overrides [__str__] (it returns
    [shown]) and inherits everything else. *)
Inductive datum : Type :=
  | DFloat (x : spec_float)
  | DInt (n : Z)
  | DStr (s : text)
  | DFloatSub (x : spec_float) (shown : text).

Abbreviation entry := (list datum).

Inductive exn : Type :=
  | ValueError (msg : text)
  | OverflowError (msg : text)
  | ValueErrorAt (cause : exn) (e : entry)   (* [ValueError(e, entry)] *)
  | AssertionError (msg : text).

Inductive result (A : Type) : Type :=
  | Ok (a : A)
  | Raise (e : exn).
Arguments Ok {A} a.
Arguments Raise {A} e.

Definition bind {A B} (r : result A) (k : A -> result B) : result B :=
  match r with
  | Ok a => k a
  | Raise e => Raise e
  end.

Notation "x <- r ;; k" := (bind r (fun x => k))
  (at level 100, r at next level, right associativity).

(** What [print] writes: a fixed text, or one of the two f-strings that
    show the entry. *)
Inductive message : Type :=
  | Printed (t : text)
  | SkippingNan (e : entry)
  | SkippingOverflow (e : entry).

(** An element of [reformatted_entry]: a [str] or an untouched [int]. *)
Inductive item : Type :=
  | IText (t : text)
  | IInt (n : Z).

Definition repr_item (i : item) : text :=
  match i with
  | IText t => repr_str t
  | IInt n => str_of_Z n
  end.

(** [sep.join(parts)] *)
Fixpoint join (sep : text) (parts : list text) : text :=
  match parts with
  | [] => []
  | [p] => p
  | p :: rest => p ++ sep ++ join sep rest
  end.

(** [str(reformatted_entry)] *)
Definition str_of_items (l : list item) : text :=
  str "[" ++ join (str ", ") (map repr_item l) ++ str "]".

(** [str(datum)] *)
Definition str_of_datum (d : datum) : text :=
  match d with
  | DFloat x => repr_float x
  | DInt n => str_of_Z n
  | DStr s => s
  | DFloatSub _ shown => shown
  end.

Definition NAN_MESSAGE : text := Eval cbv in str "cannot convert float NaN to integer".
Definition INFINITY_MESSAGE : text := Eval cbv in str "cannot convert float infinity to integer".

(** [int(f)] *)
Definition int_of_float (f : spec_float) : result Z :=
  match f with
  | S754_nan => Raise (ValueError NAN_MESSAGE)
  | S754_infinity _ => Raise (OverflowError INFINITY_MESSAGE)
  | S754_zero _ => Ok 0
  | S754_finite s m e =>
      let a := if 0 <=? e then Z.pos m * 2 ^ e else Z.pos m / 2 ^ (- e) in
      Ok (if s then - a else a)
  end.

(** [f == n] for a float and an int: the values are compared exactly. *)
Definition float_eq_int (f : spec_float) (n : Z) : bool :=
  match f with
  | S754_zero _ => n =? 0
  | S754_finite s m e =>
      let v := if s then Z.neg m else Z.pos m in
      if 0 <=? e then v * 2 ^ e =? n else v =? n * 2 ^ (- e)
  | _ => false
  end.

(** ** [XMGrace.clean_entry] *)

(** Lines 216-219, the float branch. *)
Definition clean_float (x : spec_float) : result item :=
  let datum := format_float x in
  let f := float_of_formatted x in
  n <- int_of_float f ;;
  if float_eq_int f n then Ok (IText (str_of_Z n)) else Ok (IText datum).

(** Lines 216-221, the body of the [try]. *)
Definition try_body (d : datum) : result item :=
  match d with
  | DFloat x => clean_float x
  | DFloatSub x _ => clean_float x
  | DStr s => Ok (IText (DQUOTE :: s ++ [DQUOTE]))
  | DInt n => Ok (IInt n)
  end.

(** What an [except] clause does: return from [clean_entry], raise, or fall
    out of the [try] statement into the next iteration. *)
Inductive handled : Type :=
  | Return (printed : message) (line : text)
  | Reraise (e : exn)
  | Resume.

Definition WRONG_INFINITY_MESSAGE : text :=
  Eval cbv in str "OverflowError: cannot convert float infinity to integer".

(** Lines 223-231.  [ValueError(e, entry)] is a [ValueError] too, and its
    text is never the NaN message; an exception of another class is not
    caught. *)
Definition handler (e : exn) (en : entry) : handled :=
  match e with
  | ValueError msg =>
      if text_eqb msg NAN_MESSAGE then Return (SkippingNan en) []
      else Reraise (ValueErrorAt e en)
  | ValueErrorAt _ _ => Reraise (ValueErrorAt e en)
  | OverflowError msg =>
      if text_eqb msg WRONG_INFINITY_MESSAGE then Return (SkippingOverflow en) []
      else Resume
  | AssertionError _ => Reraise e
  end.

Definition SKIP_MESSAGE : text :=
  Eval cbv in str "Graph skipping {entry} due to inf value.".

(** [needle in str(datum).lower()] *)
Definition mentions (needle : text) (d : datum) : bool :=
  contains needle (lower (str_of_datum d)).

(** The loop of [clean_entry] over the data still to visit, with
    [reformatted_entry] as accumulator.  The result is what was printed and
    the line returned or the exception raised. *)
Fixpoint clean_loop (en : entry) (todo : list datum) (reformatted_entry : list item)
  : list message * result text :=
  match todo with
  | [] => ([], Ok (remove_chars (str_of_items reformatted_entry) ++ [NL]))
  | datum :: todo' =>
      if mentions (str "inf") datum || mentions (str "nan") datum
      then ([Printed SKIP_MESSAGE], Ok [])
      else
        match try_body datum with
        | Ok it => clean_loop en todo' (reformatted_entry ++ [it])
        | Raise e =>
            match handler e en with
            | Return printed line => ([printed], Ok line)
            | Reraise e' => ([], Raise e')
            | Resume => clean_loop en todo' reformatted_entry
            end
        end
  end.

Definition clean_entry (en : entry) : list message * result text :=
  clean_loop en en [].

(** ** The data model *)

(** [map] over a function that may raise. *)
Fixpoint map_result {A B : Type} (f : A -> result B) (l : list A) : result (list B) :=
  match l with
  | [] => Ok []
  | a :: l' =>
      b <- f a ;;
      bs <- map_result f l' ;;
      Ok (b :: bs)
  end.

(** [enumerate(l)], with the indices as Python integers. *)
Fixpoint enumerate_from {A : Type} (i : Z) (l : list A) : list (Z * A) :=
  match l with
  | [] => []
  | a :: l' => (i, a) :: enumerate_from (i + 1) l'
  end.

Definition enumerate {A : Type} (l : list A) : list (Z * A) := enumerate_from 0 l.

(** class [Set] *)
Record PlotSet : Type := mkSet {
  set_label : text;
  set_datatype : text;
  set_entries : list entry
}.

(** [Set.as_list] *)
Definition Set_as_list (s : PlotSet) : result (list text) :=
  ls <- map_result (fun en => snd (clean_entry en)) (set_entries s) ;;
  Ok ((str "@type " ++ set_datatype s ++ [NL]) :: ls).

(** class [Group] *)
Record Group : Type := mkGroup {
  group_index : Z;
  group_label : text;
  group_sets : list PlotSet
}.

Definition target_line (g s : Z) : text :=
  str "@target G" ++ str_of_Z g ++ str ".S" ++ str_of_Z s ++ [NL].

Definition END_LINE : text := Eval cbv in str "&" ++ [NL].

(** The body of the loop of [Group.as_list]. *)
Definition set_block (g : Z) (p : Z * PlotSet) : result (list text) :=
  ls <- Set_as_list (snd p) ;;
  Ok (target_line g (fst p) :: ls ++ [END_LINE]).

(** [Group.as_list] *)
Definition Group_as_list (g : Group) : result (list text) :=
  blocks <- map_result (set_block (group_index g)) (enumerate (group_sets g)) ;;
  Ok (concat blocks).

(** ** [Graph.__init__] *)

Definition TAB : ascii := Eval cbv in ascii_of_nat 9.
Definition CR : ascii := Eval cbv in ascii_of_nat 13.
Definition SPACE : ascii := Eval cbv in ascii_of_nat 32.
Definition EQUALS : ascii := Eval cbv in ascii_of_nat 61.

(** [s.expandtabs()] *)
Fixpoint expandtabs_from (col : nat) (s : text) : text :=
  match s with
  | [] => []
  | c :: s' =>
      if ascii_eqb c TAB then
        let n := (8 - col mod 8)%nat in
        replicate n SPACE ++ expandtabs_from (col + n) s'
      else if ascii_eqb c NL || ascii_eqb c CR then c :: expandtabs_from 0 s'
      else c :: expandtabs_from (S col) s'
  end.

Definition expandtabs (s : text) : text := expandtabs_from 0 s.

(** [s.split('\n')] *)
Fixpoint split_lines (s : text) : list text :=
  match s with
  | [] => [[]]
  | c :: s' =>
      if ascii_eqb c NL then [] :: split_lines s'
      else match split_lines s' with
           | l :: ls => (c :: l) :: ls
           | [] => [[c]]
           end
  end.

(** [get_longest_string_length] *)
Definition get_longest_string_length (strings : list text) : nat :=
  foldr (fun s m => Nat.max (length s) m) 0%nat strings.

(** [f"{l:{length}}"] *)
Definition pad (width : nat) (l : text) : text :=
  l ++ replicate (width - length l) SPACE.

Definition is_nil {A : Type} (l : list A) : bool :=
  match l with [] => true | _ => false end.

(** The description block; [now] is what [time.strftime] returns. *)
Definition make_description (now description : text) : list text :=
  let description_lines := split_lines (expandtabs description) in
  let length := get_longest_string_length description_lines in
  let divider := DQUOTE :: replicate length EQUALS ++ [DQUOTE; NL] in
  [str "@description " ++ DQUOTE :: str "Last Updated: " ++ now ++ [DQUOTE; NL];
   str "@description " ++ divider]
  ++ map (fun l => str "@description " ++ DQUOTE :: pad length l ++ [DQUOTE; NL])
         (filter (fun l => is_nil l = false) description_lines)
  ++ [str "@description " ++ divider].

Definition subtitle_line (G_label : text) : text :=
  str "@    subtitle " ++ DQUOTE :: G_label ++ [DQUOTE; NL].

Definition legend_line (S_i : Z) (S_label : text) : text :=
  str "@    s" ++ str_of_Z S_i ++ str " legend  " ++ DQUOTE :: S_label ++ [DQUOTE; NL].

(** The caller's data: per set a label, a datatype and the entries; per group
    a label and the sets.  A label may be [None]. *)
Abbreviation set_input := (option text * text * list entry)%type.
Abbreviation group_input := (option text * list set_input)%type.

Definition label_text (l : option text) : text := default [] l.

(** The fields of a [Graph] that [create_file] reads.  The dictionaries keep
    their insertion order, which [items()] follows. *)
Record Graph : Type := mkGraph {
  description : list text;
  data : list Group;
  subtitle : list (Z * text);
  legend : list (Z * list (Z * text))
}.

Definition make_set (p : Z * set_input) : PlotSet :=
  let '(_, (S_label, datatype, sets)) := p in
  mkSet (label_text S_label) datatype sets.

Definition make_legend (p : Z * set_input) : Z * text :=
  let '(S_i, (S_label, _, _)) := p in
  (S_i, legend_line S_i (label_text S_label)).

Definition make_group (p : Z * group_input) : Group :=
  let '(G_i, (G_label, groups)) := p in
  mkGroup G_i (label_text G_label) (map make_set (enumerate groups)).

(** [Graph.__init__], up to the call of [create_file]. *)
Definition Graph_init (now description : text) (datasets : list group_input) : Graph :=
  mkGraph
    (make_description now description)
    (map make_group (enumerate datasets))
    (map (fun p : Z * group_input => (fst p, subtitle_line (label_text (fst (snd p)))))
         (enumerate datasets))
    (map (fun p : Z * group_input => (fst p, map make_legend (enumerate (snd (snd p)))))
         (enumerate datasets)).

(** [d.get(k)] on a dictionary kept as an association list. *)
Fixpoint dict_get {V : Type} (d : list (Z * V)) (k : Z) : option V :=
  match d with
  | [] => None
  | (k', v) :: d' => if k' =? k then Some v else dict_get d' k
  end.

(** ** [Graph.create_file] *)

(** [re.search] with the legend pattern: an at sign, four spaces, the letter
    s, one digit, a space, the word legend, two spaces and a double quote.
    [legend_here] matches it at the head of [s], [is_legend] somewhere in
    the line. *)
Definition legend_here (s : text) : bool :=
  startswith (str "@    s") s &&
  match drop 6 s with
  | c :: s' => is_digit c && startswith (str " legend  " ++ [DQUOTE]) s'
  | [] => false
  end.

Fixpoint is_legend (line : text) : bool :=
  legend_here line ||
  match line with
  | [] => false
  | _ :: line' => is_legend line'
  end.

Fixpoint take_digits (s : text) : text :=
  match s with
  | c :: s' => if is_digit c then c :: take_digits s' else []
  | [] => []
  end.

(** [re.findall(r'\d+', line)[0]]: the first maximal run of digits. *)
Fixpoint first_digits (line : text) : text :=
  match line with
  | [] => []
  | c :: line' => if is_digit c then c :: take_digits line' else first_digits line'
  end.

Definition GROUP_START : text := Eval cbv in str "@with g".
Definition SUBTITLE_START : text := Eval cbv in str "@    subtitle " ++ [DQUOTE].
Definition TARGET_START : text := Eval cbv in str "@target G".
Definition DESCRIPTION_START : text := Eval cbv in str "@description".
Definition PAGE_SIZE_START : text := Eval cbv in str "@page size ".

(** The error of [int(s)]: the message shows at most 200 characters of the
    [repr] of [s] (the format [%.200R]). *)
Definition invalid_literal (s : text) : exn :=
  ValueError (str "invalid literal for int() with base 10: " ++ take 200 (repr_str s)).

(** [int(s)] as a computation that may raise, without the limit on the
    number of digits: with the limit, [int] raises a [ValueError] of its
    own for a text of more than 4300 digits (see [short_line]). *)
Definition int_of_text (s : text) : result Z :=
  match py_int s with
  | Some n => Ok n
  | None => Raise (invalid_literal s)
  end.

Definition NO_GROUP_MESSAGE : text :=
  Eval cbv in str "No group (@with g#) was found in the file, before a legend.".

(** What one iteration of the scan does with [lines]: it appends to it and
    goes on, or it has found the data portion and leaves the loop. *)
Inductive scanned : Type :=
  | Append (ls : list text)
  | DataPortion.

(** The legend of set [s] of group [group], when the graph has it. *)
Definition legend_of (g : Graph) (group s : Z) : option text :=
  match dict_get (legend g) group with
  | Some sets => dict_get sets s
  | None => None
  end.

(** The subtitle of the current group, when the graph has it ([None] is the
    key of no group). *)
Definition subtitle_of (g : Graph) (group : option Z) : option text :=
  match group with
  | Some gi => dict_get (subtitle g) gi
  | None => None
  end.

(** Line 337, when the line starts a group. *)
Definition current_group (group : option Z) (line : text) : result (option Z) :=
  if startswith GROUP_START line
  then n <- int_of_text (remove_all GROUP_START line) ;; Ok (Some n)
  else Ok group.

(** Lines 340-367 for one line, with the group already updated. *)
Definition classify (g : Graph) (group : option Z) (line : text) : result scanned :=
  if is_legend line then
    match group with
    | None => Raise (AssertionError NO_GROUP_MESSAGE)
    | Some gi =>
        s <- int_of_text (first_digits line) ;;
        Ok (Append (option_list (legend_of g gi s)))
    end
  else if startswith SUBTITLE_START line then
    Ok (Append (option_list (subtitle_of g group)))
  else if startswith TARGET_START line then Ok DataPortion
  else if startswith DESCRIPTION_START line then Ok (Append [])
  else
    Ok (Append (line ::
                if negb (is_nil (description g)) && startswith PAGE_SIZE_START line
                then description g else [])).

(** [sum((g.as_list() for g in self.data), [])] *)
Definition data_lines (g : Graph) : result (list text) :=
  blocks <- map_result Group_as_list (data g) ;;
  Ok (concat blocks).

(** Lines 370-374: the label block of every group.  [__init__] gives
    [legend] the keys of [subtitle], so [self.legend[G_i]] is there. *)
Definition label_lines (g : Graph) : list text :=
  concat (map (fun p : Z * text =>
                 (str "@with g" ++ str_of_Z (fst p) ++ [NL]) :: snd p ::
                 map snd (default [] (dict_get (legend g) (fst p))))
              (subtitle g)).

(** The [for] loop over [original_lines] with its [else] clause. *)
Fixpoint scan (g : Graph) (group : option Z) (lines : list text) (todo : list text)
  : result (list text) :=
  match todo with
  | [] =>
      d <- data_lines g ;;
      Ok (lines ++ label_lines g ++ d)
  | line :: todo' =>
      group' <- current_group group line ;;
      c <- classify g group' line ;;
      match c with
      | Append ls => scan g group' (lines ++ ls) todo'
      | DataPortion =>
          d <- data_lines g ;;
          Ok (lines ++ d)
      end
  end.

(** The list [lines] that [create_file] builds from [original_lines]. *)
Definition merge (g : Graph) (original_lines : list text) : result (list text) :=
  scan g None [] original_lines.

(** ** Files and the difference report *)

(** What [open(path, 'r')] gives to read: the content with every CR LF and
    every other CR replaced by LF.  [after_cr] tells that the character
    before was a CR. *)
Fixpoint translate_newlines (after_cr : bool) (content : text) : text :=
  match content with
  | [] => []
  | c :: content' =>
      if ascii_eqb c CR then NL :: translate_newlines true content'
      else if ascii_eqb c NL then
        if after_cr then translate_newlines false content'
        else NL :: translate_newlines false content'
      else c :: translate_newlines false content'
  end.

Definition universal_newlines (content : text) : text :=
  translate_newlines false content.

(** The lines of a text, each with the LF that ends it. *)
Fixpoint lines_of (s : text) : list text :=
  match s with
  | [] => []
  | c :: s' =>
      if ascii_eqb c NL then [NL] :: lines_of s'
      else match lines_of s' with
           | l :: ls => (c :: l) :: ls
           | [] => [[c]]
           end
  end.

(** [f.readlines()] on the content of a file opened with [open(path, 'r')]. *)
Definition readlines (content : text) : list text :=
  lines_of (universal_newlines content).

Definition TIMESTAMP_START : text := Eval cbv in str "@timestamp def " ++ [DQUOTE].
Definition LAST_UPDATED_START : text :=
  Eval cbv in str "@description " ++ DQUOTE :: str "Last Updated: ".

Definition is_time_stamp (l : text) : bool :=
  startswith TIMESTAMP_START l || startswith LAST_UPDATED_START l.

Definition without_time_stamps (v : list text) : list text :=
  filter (fun l => is_time_stamp l = false) v.

(** [get_file_differences]: the two sequences that [difflib.context_diff]
    compares. *)
Definition get_file_differences (v1 v2 : list text) : list text * list text :=
  (without_time_stamps v1, without_time_stamps v2).

Fixpoint lines_eqb (a b : list text) : bool :=
  match a, b with
  | [], [] => true
  | x :: a', y :: b' => text_eqb x y && lines_eqb a' b'
  | _, _ => false
  end.

(** [list(difflib.context_diff(a, b))] is empty exactly when the two
    sequences are equal. *)
Definition no_differences (d : list text * list text) : bool :=
  lines_eqb (fst d) (snd d).

(** What a run leaves behind: the content of the file and whether
    "No changes were made" was printed. *)
Record outcome : Type := mkOutcome {
  file_content : text;
  no_changes : bool
}.

(** [create_file] up to the difference report.  [existing] is the content of
    the file at [self.path], if there is one; otherwise the template is
    copied there first. *)
Definition create_file (g : Graph) (template : text) (existing : option text)
  : result outcome :=
  let original_lines := readlines (default template existing) in
  lines <- merge g original_lines ;;
  Ok (mkOutcome (concat lines)
                (no_differences (get_file_differences original_lines lines))).

(** ** Notions the properties are stated with *)

(** *** The formatter *)

(** NaN and the two infinities. *)
Definition non_finite (x : spec_float) : bool :=
  match x with
  | S754_nan | S754_infinity _ => true
  | _ => false
  end.


(** The line [clean_entry] returns for an entry. *)
Definition entry_line (en : entry) : text :=
  match snd (clean_entry en) with
  | Ok line => line
  | Raise _ => []
  end.

(** The guard of [clean_entry]: the text of the component mentions inf or
    nan. *)
Definition mentions_inf_or_nan (d : datum) : bool :=
  mentions (str "inf") d || mentions (str "nan") d.

(** A component that makes [clean_entry] skip the entry: its text mentions
    inf or nan, or it is a NaN whose text does not say so. *)
Definition skips (d : datum) : bool :=
  mentions_inf_or_nan d ||
  match d with
  | DFloatSub S754_nan _ => true
  | _ => false
  end.

Definition dropped (en : entry) : bool := existsb skips en.

(** No entry of the data is skipped by [clean_entry]. *)
Definition no_tuple_dropped (datasets : list group_input) : bool :=
  forallb (fun gi : group_input =>
             forallb (fun si : set_input => forallb (fun en => negb (dropped en)) (snd si))
                     (snd gi))
          datasets.

(** *** The limit on the digits of an integer *)

(** [sys.int_info.default_max_str_digits] *)
Definition MAX_STR_DIGITS : Z := 4300.

(** [str(n)] returns under the limit: [n] has at most 4300 digits. *)
Definition within_limit (n : Z) : bool := Z.abs n <? 10 ^ MAX_STR_DIGITS.

(** The integers of the entry are within the limit. *)
Definition ints_within_limit (en : entry) : bool :=
  forallb (fun d => match d with
                    | DInt n => within_limit n
                    | _ => true
                    end) en.

(** A line of at most 4300 characters: [int] of a part of it returns under
    the limit, or raises for a text that is no numeral. *)
Definition short_line (l : text) : bool := (length l <=? 4300)%nat.

(** A component that is an infinity, as a float or as an instance of a
    subclass of it. *)
Definition is_infinite (d : datum) : bool :=
  match d with
  | DFloat (S754_infinity _) | DFloatSub (S754_infinity _) _ => true
  | _ => false
  end.



(** The integers that [str] meets when the sets of a group are written are
    within the limit: those of the entries, the index of the group and the
    indices of its sets, which [enumerate] keeps below their number. *)
Definition set_within_limit (s : PlotSet) : bool :=
  forallb ints_within_limit (set_entries s).

Definition group_within_limit (gr : Group) : bool :=
  within_limit (group_index gr)
  && within_limit (Z.of_nat (length (group_sets gr)))
  && forallb set_within_limit (group_sets gr).

(** The same for a graph, with the keys of its subtitles, which the label
    block shows. *)
Definition graph_within_limit (g : Graph) : bool :=
  forallb group_within_limit (data g)
  && forallb (fun p : Z * text => within_limit (fst p)) (subtitle g).

(** A finite binary64 has a significand below [2^53] and an exponent of at
    most 971. *)
Definition is_binary64 (x : spec_float) : bool :=
  match x with
  | S754_finite _ m e => (Z.pos m <? 2 ^ 53) && (-1074 <=? e) && (e <=? 971)
  | _ => true
  end.

(** The floats of the entry are binary64 values. *)
Definition floats_binary64 (en : entry) : bool :=
  forallb (fun d => match d with
                    | DFloat x | DFloatSub x _ => is_binary64 x
                    | _ => true
                    end) en.

(** The largest finite binary64. *)
Definition MAX_FINITE : Z := (2 ^ 53 - 1) * 2 ^ 971.

(** Rationals below it round to a finite binary64: [2^1024 - 2^970] is the
    midpoint between [MAX_FINITE] and [2^1024]. *)
Definition OVERFLOW_THRESHOLD : Z := 2 ^ 1024 - 2 ^ 970.

(** The digits denote an integer. *)
Definition is_integral (g : digits) : bool :=
  match g with
  | DgZero _ => true
  | DgNum _ D q => let '(n, d) := decimal (Z.pos D) q in n mod d =? 0
  | _ => false
  end.

(** The characters of a numeral: digits, point, exponent letter and signs. *)
Definition numeric_char (c : ascii) : bool :=
  is_digit c || member c (str ".e+-").

Abbreviation numeric s := (Forall (fun c => numeric_char c = true) s).

(** The characters of a text that [int] accepts. *)
Definition int_char (c : ascii) : bool :=
  is_space c || is_digit c || ascii_eqb c MINUS || ascii_eqb c PLUS || ascii_eqb c UNDERSCORE.

Definition AT : ascii := Eval cbv in ascii_of_nat 64.
Definition LETTER_L : ascii := Eval cbv in ascii_of_nat 108.

(** *** The data portion and the lines of a graph *)

(** The line [Set.as_list] starts with. *)
Definition type_line (s : PlotSet) : text := str "@type " ++ set_datatype s ++ [NL].

(** The data portion as a pure function: no entry makes [clean_entry]
    raise. *)
Definition set_lines (s : PlotSet) : list text :=
  (str "@type " ++ set_datatype s ++ [NL]) :: map entry_line (set_entries s).

Definition block_lines (g : Z) (p : Z * PlotSet) : list text :=
  target_line g (fst p) :: set_lines (snd p) ++ [END_LINE].

Definition group_lines (g : Group) : list text :=
  concat (map (block_lines (group_index g)) (enumerate (group_sets g))).

Definition data_of (g : Graph) : list text := concat (map group_lines (data g)).

(** The first line of a label block. *)
Definition group_line (G_i : Z) : text := str "@with g" ++ str_of_Z G_i ++ [NL].

(** The first line of the description, and the lines after it. *)
Definition time_stamp_line (now : text) : text :=
  str "@description " ++ DQUOTE :: str "Last Updated: " ++ now ++ [DQUOTE; NL].

Definition description_body (description : text) : list text :=
  tail (make_description [] description).

(** [l[i]] for a Python integer that is a valid non-negative index. *)
Definition nth_Z {A : Type} (l : list A) (i : Z) : option A :=
  if i <? 0 then None else l !! Z.to_nat i.

(** The legend line that the caller's data gives set [s] of group [G]. *)
Definition supplied_legend (datasets : list group_input) (G s : Z) : option text :=
  match nth_Z datasets G with
  | Some (_, sets) =>
      match nth_Z sets s with
      | Some (S_label, _, _) => Some (legend_line s (label_text S_label))
      | None => None
      end
  | None => None
  end.

(** The subtitle line that the caller's data gives group [G]. *)
Definition supplied_subtitle (datasets : list group_input) (G : Z) : option text :=
  match nth_Z datasets G with
  | Some (G_label, _) => Some (subtitle_line (label_text G_label))
  | None => None
  end.

(** Every line the graph itself can write. *)
Definition owned (g : Graph) : list text :=
  description g ++ map snd (subtitle g) ++ concat (map (fun p => map snd (snd p)) (legend g))
  ++ label_lines g ++ data_of g.

Definition is_owned (g : Graph) (line : text) : bool :=
  existsb (text_eqb line) (owned g).

(** A text that ends with its only LF. *)
Fixpoint single_line (l : text) : bool :=
  match l with
  | [] => false
  | c :: l' =>
      match l' with
      | [] => ascii_eqb c NL
      | _ => negb (ascii_eqb c NL) && single_line l'
      end
  end.

(** A text that is read back as one line: it ends with its only LF and
    holds no CR. *)
Definition one_line (l : text) : bool := single_line l && negb (member CR l).

(** Every line the graph writes is read back as one line, and its
    description and subtitle lines do not match the legend pattern. *)
Definition tidy (g : Graph) : bool :=
  forallb (fun l => one_line l && negb (is_legend l)) (description g)
  && forallb (fun p : Z * text => one_line (snd p) && negb (is_legend (snd p))) (subtitle g)
  && forallb (fun p : Z * list (Z * text) =>
                forallb (fun q : Z * text => one_line (snd q)) (snd p)) (legend g)
  && forallb (fun gr => forallb (fun s => one_line (type_line s)) (group_sets gr)) (data g).

(** The content of a file that is empty or ends with LF. *)
Definition ends_with_newline (content : text) : bool :=
  match last content with
  | Some c => ascii_eqb c NL
  | None => true
  end.

(** *** The scan *)

(** The scan of the lines [todo], as [scan] does it, without what follows
    the loop: the group it ends in, the lines it appends, and whether it
    left the loop at the start of the data portion. *)
Fixpoint scan_header (g : Graph) (group : option Z) (todo : list text)
  : result (option Z * list text * bool) :=
  match todo with
  | [] => Ok (group, [], false)
  | line :: todo' =>
      group' <- current_group group line ;;
      c <- classify g group' line ;;
      match c with
      | Append ls =>
          r <- scan_header g group' todo' ;;
          Ok (fst (fst r), ls ++ snd (fst r), snd r)
      | DataPortion => Ok (group', [], true)
      end
  end.

(** The directive patterns the merge recognizes. *)
Definition recognized (line : text) : bool :=
  startswith GROUP_START line || is_legend line || startswith SUBTITLE_START line
  || startswith TARGET_START line || startswith DESCRIPTION_START line.

Definition passthrough (line : text) : bool := negb (recognized line).

(** The passthrough lines that the graph does not write itself. *)
Definition foreign (g : Graph) (line : text) : Prop :=
  passthrough line = true /\ is_owned g line = false.

(** The line at which the scan leaves the loop: it starts with the data
    marker (and does not match the legend pattern, which is tried first). *)
Definition data_start (line : text) : bool :=
  negb (is_legend line) && startswith TARGET_START line.

(** The lines before the first one that starts the data portion. *)
Fixpoint before_data (original : list text) : list text :=
  match original with
  | [] => []
  | line :: original' =>
      if data_start line then [] else line :: before_data original'
  end.

(** A line that starts a group comes before every line with a legend. *)
Definition group_precedes_legends (original : list text) : Prop :=
  forall (i : nat) (line : text),
    original !! i = Some line -> is_legend line = true ->
    exists (j : nat) (l : text),
      (j < i)%nat /\ original !! j = Some l /\ startswith GROUP_START l = true.

(** *** Examples *)

(** The floats 0.1, 2.0 and 1e16. *)
Definition tenth : spec_float := S754_finite false 7205759403792794 (-56).
Definition two : spec_float := S754_finite false 1 1.
Definition ten_to_16 : spec_float := S754_finite false 5000000000000000 1.

Definition quoted (s : string) : text := DQUOTE :: str s ++ [DQUOTE].

Definition empty_graph : Graph := mkGraph [] [] [] [].

(** A template without labels or data. *)
Definition example_template : text :=
  concat [str "# Grace project file" ++ [NL];
          str "@page size 792, 612" ++ [NL];
          str "@    s0 line color 1" ++ [NL]].

Definition set_alt : set_input :=
  (Some (str "alt"), str "xy", [[DFloat tenth; DFloat two]]).
Definition set_inc : set_input :=
  (Some (str "inc"), str "xy", [[DInt 3; DInt 4]]).

Definition two_sets : list group_input := [(Some (str "group1"), [set_alt; set_inc])].
Definition one_set : list group_input := [(Some (str "group1"), [set_alt])].
Definition no_sets : list group_input := [(Some (str "group1"), [])].

(** One set whose first tuple holds a NaN. *)
Definition nan_set : list group_input :=
  [(Some (str "group1"),
    [(Some (str "alt"), str "xy", [[DInt 1; DFloat S754_nan]; [DInt 3; DInt 4]])])].

Definition old_legend : text := str "@    s0 legend  " ++ quoted "old" ++ [NL].
Definition stale_legend : text := str "@    s1 legend  " ++ quoted "inc" ++ [NL].

(** A file with a label line, a styling line and a data portion. *)
Definition example_original : list text :=
  [str "# Grace project file" ++ [NL];
   str "@with g0" ++ [NL];
   old_legend;
   str "@    s0 line color 1" ++ [NL];
   str "@target G0.S0" ++ [NL];
   str "1 2" ++ [NL]].


(** ** Notions for the further properties *)

(** *** The line of an entry, component by component *)

(** What a component contributes to the line: the element that the loop
    appends to [reformatted_entry], as [str] of the list shows it, without
    the characters that [remove_chars] removes; nothing when the conversion
    raises. *)
Definition field (d : datum) : option text :=
  match try_body d with
  | Ok it => Some (remove_chars (repr_item it))
  | Raise _ => None
  end.

Definition fields (en : entry) : list text := omap field en.

(** A character of a string component as the line shows it: escaped by
    [repr] for the single quote, then without the removed characters. *)
Definition shown_char (c : ascii) : text := remove_chars (escape_char QUOTE c).

(** *** The merge *)

(** The subtitle line that the caller's data gives the current group. *)
Definition current_subtitle (datasets : list group_input) (group : option Z) : option text :=
  match group with
  | Some G => supplied_subtitle datasets G
  | None => None
  end.

Definition bad_group_line : text := str "@with gX" ++ [NL].

(** ** [Set.__str__] and [Group.__str__] *)

(** [Set.__str__] *)
Definition Set_str (s : PlotSet) : result text :=
  ls <- Set_as_list s ;; Ok (concat ls).

Definition AMPERSAND : ascii := Eval cbv in ascii_of_nat 38.

(** The element that [Group.__str__] joins for one set. *)
Definition set_str_block (g : Z) (p : Z * PlotSet) : result text :=
  t <- Set_str (snd p) ;; Ok (target_line g (fst p) ++ t ++ [NL; AMPERSAND]).

(** [Group.__str__] *)
Definition Group_str (g : Group) : result text :=
  parts <- map_result (set_str_block (group_index g)) (enumerate (group_sets g)) ;;
  Ok (join [NL] parts).

(** The lines of [Group.as_list] with an empty line before each end line. *)
Definition spaced_block_lines (g : Z) (p : Z * PlotSet) : list text :=
  target_line g (fst p) :: set_lines (snd p) ++ [[NL]; END_LINE].

(** ** [ask_prompt] *)

Definition AFFIRMATIVE_ANSWERS : list text := [str "yes"; str "y"; str "t"].
Definition NEGATIVE_ANSWERS : list text := [str "no"; str "n"; str "f"].

(** [any(answer.lower() == s for s in AFFIRMATIVE_ANSWERS)] *)
Definition isAffirmative (answer : text) : bool :=
  existsb (text_eqb (lower answer)) AFFIRMATIVE_ANSWERS.

Definition isNegative (answer : text) : bool :=
  existsb (text_eqb (lower answer)) NEGATIVE_ANSWERS.

(** What the terminal shows: the prompt that [input] writes, or the text of
    a [print]. *)
Inductive shown : Type :=
  | Prompted (question : text)
  | Said (t : text).

(** How a dialogue ends: with an answer, or with the [EOFError] that [input]
    raises when there is nothing left to read. *)
Inductive asked : Type :=
  | Answer (b : bool)
  | EndOfInput.

(** The [while True] loop over the responses still to come (what [input]
    returns, one after the other).  The result is what the terminal showed,
    how the dialogue ended, and the responses not read. *)
Fixpoint ask_loop (question opps : text) (inputs : list text)
  : list shown * asked * list text :=
  match inputs with
  | [] => ([Prompted question], EndOfInput, [])
  | response :: inputs' =>
      if isAffirmative response then ([Prompted question], Answer true, inputs')
      else if isNegative response then ([Prompted question], Answer false, inputs')
      else
        let '(out, r, unread) := ask_loop question opps inputs' in
        (Prompted question :: Said opps :: out, r, unread)
  end.

(** [ask_prompt(question, opps, default)] *)
Definition ask_prompt (question opps : text) (default : option bool) (inputs : list text)
  : list shown * asked * list text :=
  match default with
  | None => ask_loop question opps inputs
  | Some d =>
      match inputs with
      | [] => ([Prompted question], EndOfInput, [])
      | response :: inputs' =>
          ([Prompted question],
           Answer (if isAffirmative response then true
                   else if isNegative response then false else d),
           inputs')
      end
  end.

(** A response that is neither affirmative nor negative. *)
Definition not_understood (response : text) : bool :=
  negb (isAffirmative response) && negb (isNegative response).

(** ** The tools around the file: [find_xmgrace_folder] and class [XMGrace]

    The state of the machine is a parameter: [path_exists p] is
    [Path(p).exists()], and [which name] tells whether [shutil.which(name)]
    finds the program.  A command that [os.system] runs is recorded as its
    text. *)

Definition POSSIBLE_PATHS : list text :=
  [str "/usr/share/grace/templates/Default.agr";
   str "/usr/local/share/grace/templates/Default.agr";
   str "/usr/local/grace/templates/Default.agr";
   str "C:/Program Files/Grace/templates/Default.agr";
   str "C:/Program Files (x86)/Grace/templates/Default.agr"].

(** The [for] loop of [find_xmgrace_folder]. *)
Fixpoint first_existing (path_exists : text -> bool) (paths : list text) : option text :=
  match paths with
  | [] => None
  | path :: paths' => if path_exists path then Some path else first_existing path_exists paths'
  end.

Definition find_xmgrace_folder (path_exists : text -> bool) : option text :=
  first_existing path_exists POSSIBLE_PATHS.

Definition STARTING_LINE : text := Eval cbv in str "# Grace project file" ++ [NL].

(** The first line of a text, with the LF that ends it. *)
Fixpoint first_line (s : text) : text :=
  match s with
  | [] => []
  | c :: s' => if ascii_eqb c NL then [NL] else c :: first_line s'
  end.

(** [f.readline()] on a file just opened with [open(path, 'r')]. *)
Definition readline (content : text) : text := first_line (universal_newlines content).

(** [XMGrace.is_valid_file], for the content of the file at [self.path]. *)
Definition is_valid_file (content : text) : bool :=
  text_eqb (readline content) STARTING_LINE.

Definition INCORRECT_MESSAGE : text :=
  Eval cbv in str "The gracefile you specified seems incorrect.".

Definition NOT_INSTALLED_MESSAGE : text :=
  Eval cbv in str "xmgrace is not installed, it can be installed on linux with `sudo apt-get install grace`.".

(** [XMGrace.open]: the commands run, and the text of the [ValueError]
    raised, if one is. *)
Definition XMGrace_open (which : text -> bool) (path content : text)
  : list text * option text :=
  if negb (is_valid_file content) then ([], Some INCORRECT_MESSAGE)
  else if negb (which (str "xmgrace")) then ([], Some NOT_INSTALLED_MESSAGE)
  else ([str "xmgrace " ++ path], None).

(** *** [os.path] for POSIX paths *)

Definition SLASH : ascii := Eval cbv in ascii_of_nat 47.

(** [(p[:i], p[i:])] for [i = p.rfind(sep) + 1]: the part of [p] up to its
    last [sep], and what follows it. *)
Fixpoint split_after_last (sep : ascii) (p : text) : text * text :=
  match p with
  | [] => ([], [])
  | c :: p' =>
      let '(h, t) := split_after_last sep p' in
      if negb (is_nil h) then (c :: h, t)
      else if ascii_eqb c sep then ([c], t)
      else ([], c :: t)
  end.

Fixpoint lstrip_char (c : ascii) (s : text) : text :=
  match s with
  | a :: s' => if ascii_eqb a c then lstrip_char c s' else s
  | [] => []
  end.

(** [s.rstrip(c)] *)
Definition rstrip_char (c : ascii) (s : text) : text :=
  reverse (lstrip_char c (reverse s)).

(** [os.path.split] *)
Definition path_split (p : text) : text * text :=
  let '(head, tail) := split_after_last SLASH p in
  (if negb (is_nil head) && negb (forallb (ascii_eqb SLASH) head)
   then rstrip_char SLASH head else head,
   tail).

(** [os.path.splitext]: the extension starts at the last dot of the file
    name, when a character other than a dot comes before that dot. *)
Definition path_splitext (p : text) : text * text :=
  let '(dir, name) := split_after_last SLASH p in
  let '(stem_dot, ext) := split_after_last DOT name in
  match reverse stem_dot with
  | _ :: stem_rev =>
      if forallb (ascii_eqb DOT) stem_rev then (p, [])
      else (dir ++ reverse stem_rev, DOT :: ext)
  | [] => (p, [])
  end.

(** [os.path.join(a, b)] *)
Definition path_join (a b : text) : text :=
  if startswith [SLASH] b then b
  else match last a with
       | Some c => if ascii_eqb c SLASH then a ++ b else a ++ SLASH :: b
       | None => a ++ b
       end.

(** *** [XMGrace.create_pdf] *)

(** [prefix], the path of the figure without its extension. *)
Definition figure_prefix (path : text) : text :=
  let '(dirname, basename) := path_split path in
  let '(pre, ext) := path_splitext basename in
  path_join dirname (str "fig_" ++ pre).

Definition gracebat_command (path : text) : text :=
  str "gracebat " ++ path ++ str " -printfile " ++ figure_prefix path ++ str ".eps".

Definition epstopdf_command (path : text) : text :=
  str "epstopdf " ++ figure_prefix path ++ str ".eps".

Definition pdfcrop_command (path : text) : text :=
  str "pdfcrop " ++ figure_prefix path ++ str ".pdf".

Definition mv_command (path : text) : text :=
  str "mv " ++ figure_prefix path ++ str "-crop.pdf" ++ str " "
  ++ figure_prefix path ++ str ".pdf".

(** The four commands of [create_pdf], in the order of the source. *)
Definition pdf_commands (path : text) : list text :=
  [gracebat_command path; epstopdf_command path; pdfcrop_command path; mv_command path].

(** How a call of [create_pdf] ends: it returns, raises a [ValueError], or
    raises the [AttributeError] of the attribute [os.sytem], which the
    module [os] does not have. *)
Inductive pdf_result : Type :=
  | PdfDone
  | PdfValueError (msg : text)
  | PdfAttributeError.

(** [XMGrace.create_pdf]: the commands run and how the call ends. *)
Definition create_pdf (which : text -> bool) (path : text) (create_eps : bool)
  : list text * pdf_result :=
  if negb (which (str "gracebat")) then ([], PdfValueError (str "gracebat is not installed."))
  else if negb (which (str "epstopdf"))
  then ([gracebat_command path], PdfValueError (str "epstopdf is not installed."))
  else if negb (which (str "pdfcrop"))
  then ([gracebat_command path; epstopdf_command path],
        PdfValueError (str "pdfcrop is not installed."))
  else (pdf_commands path, if negb create_eps then PdfAttributeError else PdfDone).

(** *** The end of [Graph.create_file] *)

Definition OPEN_QUESTION : text :=
  Eval cbv in str "Would you like to open the file in xmgrace? [y]".

Definition DEFAULT_OPPS : text :=
  Eval cbv in str "Sorry, I did not understand your response. Please Try Again. ".

(** How the run ends after the file is written: [input] raises [EOFError],
    [open] raises a [ValueError], or [create_pdf] is called. *)
Inductive finished : Type :=
  | InputEnded
  | OpenFailed (msg : text)
  | PdfCalled (r : pdf_result).

(** Lines 387-393: what the terminal shows, the commands run, how the run
    ends and the responses left unread.  [content] is the content of the
    file that was written. *)
Definition open_and_print (which : text -> bool) (prompt : option bool)
    (path content : text) (inputs : list text)
  : list shown * list text * finished * list text :=
  let '(out, answer, unread) :=
    match prompt with
    | Some b => ([], Answer b, inputs)
    | None => ask_prompt OPEN_QUESTION DEFAULT_OPPS (Some true) inputs
    end in
  match answer with
  | EndOfInput => (out, [], InputEnded, unread)
  | Answer b =>
      let '(opened, failure) := if b then XMGrace_open which path content else ([], None) in
      match failure with
      | Some msg => (out, opened, OpenFailed msg, unread)
      | None =>
          let '(cmds, r) := create_pdf which path true in
          (out, opened ++ cmds, PdfCalled r, unread)
      end
  end.

(** Whether the run is to open the file: the [prompt] of the graph, or,
    without one, any response that is not negative. *)
Definition wants_open (prompt : option bool) (inputs : list text) : bool :=
  match prompt with
  | Some b => b
  | None => match inputs with
            | response :: _ => negb (isNegative response)
            | [] => false
            end
  end.

(** ** [XMGrace.get_data_portion]: [ast.literal_eval] is a parameter, a
    function from the text of a token to the value it denotes or to the
    exception it raises. *)

Definition TYPE_START : text := Eval cbv in str "@type ".

(** The part of [s] before its first [sep], and the parts after it. *)
Fixpoint split_parts (sep : ascii) (s : text) : text * list text :=
  match s with
  | [] => ([], [])
  | c :: s' =>
      let '(part, parts) := split_parts sep s' in
      if ascii_eqb c sep then ([], part :: parts) else (c :: part, parts)
  end.

(** [s.split(sep)] for a separator of one character. *)
Definition split_at (sep : ascii) (s : text) : list text :=
  let '(part, parts) := split_parts sep s in part :: parts.

Definition cons_run (run : text) (others : list text) : list text :=
  if is_nil run then others else run :: others.

(** The run of characters other than white space that [s] starts with, and
    the runs after it. *)
Fixpoint runs (s : text) : text * list text :=
  match s with
  | [] => ([], [])
  | c :: s' =>
      let '(run, others) := runs s' in
      if is_space c then ([], cons_run run others) else (c :: run, others)
  end.

(** [s.split()] *)
Definition split_ws (s : text) : list text :=
  let '(run, others) := runs s in cons_run run others.

(** An element of [data]: the list [[G, S, datatype, tuples]]. *)
Record portion (V : Type) : Type := mkPortion {
  portion_group : Z;
  portion_set : Z;
  portion_datatype : option text;
  portion_tuples : list (list V)
}.
Arguments mkPortion {V} _ _ _ _.
Arguments portion_group {V} _.
Arguments portion_set {V} _.
Arguments portion_datatype {V} _.
Arguments portion_tuples {V} _.

(** What [get_data_portion] can raise; [X] is the type of the exceptions of
    [ast.literal_eval]. *)
Inductive read_exn (X : Type) : Type :=
  | IndexError                    (* [line.split()[1]] or [data[-1]] *)
  | UnpackError (n : nat)         (* [G, S = parts] for [n] parts, [n] not 2 *)
  | IntError (e : exn)            (* raised by [int] *)
  | EvalError (x : X).            (* raised by [ast.literal_eval] *)
Arguments IndexError {X}.
Arguments UnpackError {X} n.
Arguments IntError {X} e.
Arguments EvalError {X} x.

Inductive read_result (X A : Type) : Type :=
  | ReadOk (a : A)
  | ReadRaise (e : read_exn X).
Arguments ReadOk {X A} a.
Arguments ReadRaise {X A} e.

Definition read_bind {X A B} (r : read_result X A) (k : A -> read_result X B)
  : read_result X B :=
  match r with
  | ReadOk a => k a
  | ReadRaise e => ReadRaise e
  end.

Notation "x <~ r ;; k" := (read_bind r (fun x => k))
  (at level 100, r at next level, right associativity).

Fixpoint map_read {X A B : Type} (f : A -> read_result X B) (l : list A)
  : read_result X (list B) :=
  match l with
  | [] => ReadOk []
  | a :: l' =>
      b <~ f a ;;
      bs <~ map_read f l' ;;
      ReadOk (b :: bs)
  end.

(** [tuple(ast.literal_eval(e) for e in tokens)] *)
Definition eval_tuple {V X : Type} (literal_eval : text -> V + X) (tokens : list text)
  : read_result X (list V) :=
  map_read (fun e => match literal_eval e with
                     | inl v => ReadOk v
                     | inr x => ReadRaise (EvalError x)
                     end) tokens.

(** [int(s)] in [get_data_portion] *)
Definition read_int {X : Type} (s : text) : read_result X Z :=
  match int_of_text s with
  | Ok n => ReadOk n
  | Raise e => ReadRaise (IntError e)
  end.

(** Lines 191-192: [G, S = line.split()[1].split('.')] and
    [reading = (int(G[1:]), int(S[1:]))]. *)
Definition read_target {X : Type} (line : text) : read_result X (Z * Z) :=
  match split_ws line with
  | _ :: second :: _ =>
      match split_at DOT second with
      | [G_part; S_part] =>
          G <~ read_int (drop 1 G_part) ;;
          S_i <~ read_int (drop 1 S_part) ;;
          ReadOk (G, S_i)
      | parts => ReadRaise (UnpackError (length parts))
      end
  | _ => ReadRaise IndexError
  end.

(** [data[-1]] with the elements before it; an empty list has none. *)
Fixpoint split_last {A : Type} (l : list A) : option (list A * A) :=
  match l with
  | [] => None
  | a :: l' =>
      match split_last l' with
      | Some (init, z) => Some (a :: init, z)
      | None => Some ([], a)
      end
  end.

(** The body of the loop of [get_data_portion] for one line of the file:
    the new values of [data] and [reading]. *)
Definition read_line {V X : Type} (literal_eval : text -> V + X)
    (data : list (portion V)) (reading : option (Z * Z)) (raw : text)
  : read_result X (list (portion V) * option (Z * Z)) :=
  let line := strip raw in
  if startswith TARGET_START line then
    r <~ read_target line ;;
    ReadOk (data ++ [mkPortion (fst r) (snd r) None []], Some r)
  else
    match reading with
    | None => ReadOk (data, None)
    | Some _ =>
        if startswith TYPE_START line then
          match split_last data with
          | Some (init, p) =>
              ReadOk (init ++ [mkPortion (portion_group p) (portion_set p)
                                 (Some (remove_all TYPE_START line)) (portion_tuples p)],
                      reading)
          | None => ReadRaise IndexError
          end
        else if text_eqb line (str "&") then ReadOk (data, None)
        else
          match split_last data with
          | Some (init, p) =>
              t <~ eval_tuple literal_eval (split_ws line) ;;
              ReadOk (init ++ [mkPortion (portion_group p) (portion_set p)
                                 (portion_datatype p) (portion_tuples p ++ [t])],
                      reading)
          | None => ReadRaise IndexError
          end
    end.

(** The loop over the lines of the file. *)
Fixpoint read_lines {V X : Type} (literal_eval : text -> V + X) (lines : list text)
    (data : list (portion V)) (reading : option (Z * Z)) : read_result X (list (portion V)) :=
  match lines with
  | [] => ReadOk data
  | raw :: lines' =>
      st <~ read_line literal_eval data reading raw ;;
      read_lines literal_eval lines' (fst st) (snd st)
  end.

(** [XMGrace.get_data_portion], for the content of the file at [self.path]. *)
Definition get_data_portion {V X : Type} (literal_eval : text -> V + X) (content : text)
  : read_result X (list (portion V)) :=
  read_lines literal_eval (readlines content) [] None.

(** *** What the reader is to find in a file that [create_file] wrote *)

(** The sets of a graph in the order of the file, each with the index of
    its group and its own. *)
Definition sets_of (g : Graph) : list (Z * (Z * PlotSet)) :=
  concat (map (fun gr => map (fun p => (group_index gr, p)) (enumerate (group_sets gr)))
              (data g)).

(** The element of [data] for a set: its tuples are the values of the
    tokens of the lines of the entries that are not skipped. *)
Definition portion_of {V X : Type} (literal_eval : text -> V + X) (b : Z * (Z * PlotSet))
  : read_result X (portion V) :=
  tuples <~ map_read (fun en => eval_tuple literal_eval (split_ws (entry_line en)))
                     (filter (fun en => dropped en = false) (set_entries (snd (snd b)))) ;;
  ReadOk (mkPortion (fst b) (fst (snd b)) (Some (set_datatype (snd (snd b)))) tuples).

(** A datatype that is read back as it is: it does not end with white
    space (nor is it empty), and it does not contain the directive. *)
Definition readable_datatype (datatype : text) : bool :=
  match last datatype with
  | Some z => negb (is_space z)
  | None => false
  end && negb (contains TYPE_START datatype).

Definition readable (g : Graph) : bool :=
  forallb (fun b => readable_datatype (set_datatype (snd (snd b)))) (sets_of g).

(** A line that starts a data portion for the reader. *)
Definition target_for_reader (l : text) : bool := startswith TARGET_START (strip l).

(** A literal evaluator for the examples: it knows the integers. *)
Definition eval_int (token : text) : Z + text :=
  match py_int token with
  | Some n => inl n
  | None => inr token
  end.

(** A component that is a number. *)
Definition is_number (d : datum) : bool :=
  match d with
  | DStr _ => false
  | _ => true
  end.

(** The label block that the caller's data gives a group: the line that
    starts the group, its subtitle, and the legends of its sets in order. *)
Definition supplied_label_block (p : Z * group_input) : list text :=
  group_line (fst p) :: subtitle_line (label_text (fst (snd p)))
  :: map (fun q : Z * set_input => legend_line (fst q) (label_text (fst (fst (snd q)))))
         (enumerate (snd (snd p))).

(** A component that is an integer within the limit of [str] or a finite
    binary64. *)
Definition finite_number (d : datum) : bool :=
  match d with
  | DFloat x => is_binary64 x && negb (non_finite x)
  | DInt n => within_limit n
  | _ => false
  end.

(** * Properties *)

(** ** The built-in functions at work *)

Example py_int_ex1 : py_int (str "  -1_000" ++ [NL]) = Some (-1000).
Proof. reflexivity. Qed.

Example py_int_ex2 : py_int (str "1__0") = None.
Proof. reflexivity. Qed.

Example str_of_Z_ex : str_of_Z (-120) = str "-120".
Proof. reflexivity. Qed.

Example remove_all_ex : remove_all (str "@with g") (str "@with g1@with g2") = str "12".
Proof. reflexivity. Qed.


Example dtoa_tenth : significant (dtoa_fixed 8 tenth) = (str "1", 0).
Proof. vm_compute. reflexivity. Qed.
Example dtoa_short_tenth : significant (dtoa_shortest tenth) = (str "1", 0).
Proof. vm_compute. reflexivity. Qed.
Example dtoa_two : significant (dtoa_fixed 8 two) = (str "2", 1).
Proof. vm_compute. reflexivity. Qed.
Example dtoa_third :
  significant (dtoa_fixed 8 (S754_finite false 6004799503160661 (-54))) = (str "33333333", 0).
Proof. vm_compute. reflexivity. Qed.
Example dtoa_short_third :
  significant (dtoa_shortest (S754_finite false 6004799503160661 (-54)))
  = (str "3333333333333333", 0).
Proof. vm_compute. reflexivity. Qed.
Example rt_tenth : float_of_digits (dtoa_fixed 8 tenth) = tenth.
Proof. vm_compute. reflexivity. Qed.

Example format_tenth : format_float tenth = str "0.1".
Proof. vm_compute. reflexivity. Qed.
Example format_two : format_float two = str "2.0".
Proof. vm_compute. reflexivity. Qed.
Example repr_1e16 : repr_float (S754_finite false 10000000000000000 0) = str "1e+16".
Proof. vm_compute. reflexivity. Qed.
Example repr_big : repr_float (S754_finite false 1234567890123456 0) = str "1234567890123456.0".
Proof. vm_compute. reflexivity. Qed.
Example format_big : format_float (S754_finite false 123456789 0) = str "1.2345679e+08".
Proof. vm_compute. reflexivity. Qed.
Example format_small : format_float (S754_finite false 5 (-20)) = str "4.7683716e-06".
Proof. vm_compute. reflexivity. Qed.
Example clean_ex1 : clean_entry [DFloat tenth; DFloat two; DInt 5; DStr (str "a b")]
  = ([], Ok (str "0.1 2 5 " ++ DQUOTE :: str "a b" ++ [DQUOTE; NL])).
Proof. vm_compute. reflexivity. Qed.

(** ** Characters and text *)

Lemma ascii_eqb_true (a b : ascii) : ascii_eqb a b = true <-> a = b.
Proof. apply Ascii.eqb_eq. Qed.

Lemma ascii_eqb_false (a b : ascii) : ascii_eqb a b = false <-> a <> b.
Proof. apply Ascii.eqb_neq. Qed.

Lemma ascii_eqb_refl (a : ascii) : ascii_eqb a a = true.
Proof. apply Ascii.eqb_refl. Qed.

(** A property of characters that holds of all 256 of them. *)
Ltac all_chars c :=
  destruct c as [[] [] [] [] [] [] [] []]; vm_compute; try reflexivity; try discriminate;
  try tauto.

Lemma text_eqb_eq (s t : text) : text_eqb s t = true <-> s = t.
Proof.
  revert t; induction s as [|a s IH]; intros [|b t]; simpl; try (split; congruence).
  rewrite andb_true_iff, ascii_eqb_true, IH. split; [intros [-> ->]|intros [= -> ->]]; auto.
Qed.

Lemma startswith_app (p s : text) : startswith p (p ++ s) = true.
Proof. induction p as [|a p IH]; simpl; [|rewrite ascii_eqb_refl]; auto. Qed.

Lemma startswith_prefix (p s : text) : startswith p s = true <-> exists r, s = p ++ r.
Proof.
  split.
  - revert s; induction p as [|a p IH]; intros s H; simpl in *; [eauto|].
    destruct s as [|b s]; [discriminate|].
    apply andb_true_iff in H as [Hab Hp]. apply ascii_eqb_true in Hab as ->.
    destruct (IH _ Hp) as [r ->]. eauto.
  - intros [r ->]. apply startswith_app.
Qed.

(** A needle that occurs in [s] has its first character in [s]. *)
Lemma contains_head (c : ascii) (needle s : text) :
  contains (c :: needle) s = true -> c ∈ s.
Proof.
  induction s as [|b s IH]; simpl; [discriminate|].
  intros H. apply orb_true_iff in H as [H|H].
  - apply andb_true_iff in H as [H _]. apply ascii_eqb_true in H as ->. left.
  - right. auto.
Qed.

(** ** Numerals never spell inf or nan *)

Lemma numeric_lower (c : ascii) : numeric_char c = true -> lower_char c = c.
Proof. all_chars c. Qed.

Lemma numeric_not_i (c : ascii) : numeric_char c = true -> c <> "i"%char.
Proof. all_chars c. Qed.

Lemma numeric_not_n (c : ascii) : numeric_char c = true -> c <> "n"%char.
Proof. all_chars c. Qed.

Lemma lower_numeric (s : text) : numeric s -> lower s = s.
Proof.
  unfold lower. induction 1 as [|c s Hc _ IH]; simpl; [done|].
  rewrite IH, numeric_lower; auto.
Qed.

Lemma numeric_no_inf (s : text) : numeric s -> contains (str "inf") (lower s) = false.
Proof.
  intros H. rewrite lower_numeric by done.
  destruct (contains (str "inf") s) eqn:E; [|done].
  apply contains_head in E. rewrite Forall_forall in H.
  exfalso. eapply numeric_not_i; eauto.
Qed.

Lemma numeric_no_nan (s : text) : numeric s -> contains (str "nan") (lower s) = false.
Proof.
  intros H. rewrite lower_numeric by done.
  destruct (contains (str "nan") s) eqn:E; [|done].
  apply contains_head in E. rewrite Forall_forall in H.
  exfalso. eapply numeric_not_n; eauto.
Qed.

Lemma numeric_uint (d : uint) : numeric (chars_of_uint d).
Proof. induction d; simpl; constructor; auto. Qed.

Lemma numeric_str_of_Z (n : Z) : numeric (str_of_Z n).
Proof.
  unfold str_of_Z. destruct (Z.to_int n); [|constructor; [done|]]; apply numeric_uint.
Qed.

Lemma Forall_lstrip_zeros {P : ascii -> Prop} (s : text) :
  Forall P s -> Forall P (strip_zeros_left s).
Proof.
  induction 1 as [|c s Hc Hs IH]; simpl; [constructor|].
  destruct (ascii_eqb c ZERO); [done|by constructor].
Qed.

Lemma Forall_strip_trailing_zeros {P : ascii -> Prop} (s : text) :
  Forall P s -> Forall P (strip_trailing_zeros s).
Proof.
  intros H. unfold strip_trailing_zeros.
  apply Forall_reverse, Forall_lstrip_zeros, Forall_reverse. done.
Qed.

Lemma numeric_zeros (n : Z) : numeric (zeros n).
Proof. unfold zeros. apply Forall_replicate. done. Qed.

Lemma numeric_exponent (exp : Z) : numeric (exponent_text exp).
Proof.
  unfold exponent_text. constructor; [done|].
  constructor; [by destruct (exp <? 0)|].
  destruct (Z.abs exp <? 10); [constructor; [done|]|]; apply numeric_str_of_Z.
Qed.

Lemma numeric_significant (g : digits) : numeric (fst (significant g)).
Proof.
  destruct g; simpl; try (by repeat constructor).
  apply Forall_strip_trailing_zeros, numeric_str_of_Z.
Qed.

Lemma numeric_format_short (upper : Z) (g : digits) :
  g <> DgNan -> (forall neg, g <> DgInf neg) -> numeric (format_short upper g).
Proof.
  intros Hnan Hinf.
  assert (H : forall neg, numeric (
    let '(ds, decpt) := significant g in
    sign_text neg ++
    (if (decpt <=? -4) || (upper <? decpt) then
       take 1 ds
       ++ match drop 1 ds with [] => [] | frac => DOT :: frac end
       ++ exponent_text (decpt - 1)
     else if decpt <=? 0 then
       ZERO :: DOT :: zeros (- decpt) ++ ds
     else if Z.of_nat (length ds) <=? decpt then
       ds ++ zeros (decpt - Z.of_nat (length ds)) ++ [DOT; ZERO]
     else
       take (Z.to_nat decpt) ds ++ DOT :: drop (Z.to_nat decpt) ds))).
  { intros neg. pose proof (numeric_significant g) as Hds.
    destruct (significant g) as [ds decpt]. simpl in Hds.
    assert (Ht : forall n, numeric (take n ds)) by (intros; by apply Forall_take).
    assert (Hd : forall n, numeric (drop n ds)) by (intros; by apply Forall_drop).
    apply Forall_app. split; [destruct neg; simpl; repeat constructor|].
    destruct ((decpt <=? -4) || (upper <? decpt)).
    - apply Forall_app; split; [auto|]. apply Forall_app; split; [|apply numeric_exponent].
      specialize (Hd 1%nat). destruct (drop 1 ds); [constructor|by constructor].
    - destruct (decpt <=? 0).
      + constructor; [done|]. constructor; [done|].
        apply Forall_app; split; [apply numeric_zeros|done].
      + destruct (Z.of_nat (length ds) <=? decpt).
        * apply Forall_app; split; [done|].
          apply Forall_app; split; [apply numeric_zeros|repeat constructor].
        * apply Forall_app; split; [auto|]. constructor; [done|auto]. }
  destruct g as [|neg|neg|neg D q]; [done|by destruct (Hinf neg)|apply H|apply H].
Qed.

Lemma shortest_number (fuel : nat) (s : bool) (m : positive) (e k : Z) :
  shortest fuel s m e k <> DgNan /\ forall neg, shortest fuel s m e k <> DgInf neg.
Proof.
  assert (H : forall D q, digits_of s D q <> DgNan /\ forall neg, digits_of s D q <> DgInf neg).
  { intros D q. by destruct D. }
  revert k; induction fuel as [|fuel IH]; intros k; simpl.
  - destruct (scale 10 _ _) as [n d]. apply H.
  - destruct (scale 10 _ _) as [n d].
    destruct (float_eqb _ _); [apply H|].
    destruct (float_eqb _ _); [apply H|apply IH].
Qed.

(** The text of a finite float is a numeral. *)
Lemma numeric_repr_float (x : spec_float) :
  x <> S754_nan -> (forall s, x <> S754_infinity s) -> numeric (repr_float x).
Proof.
  intros Hn Hi. unfold repr_float. destruct x as [s|s| |s m e]; unfold dtoa_shortest.
  - by apply numeric_format_short.
  - by destruct (Hi s).
  - done.
  - apply numeric_format_short; apply shortest_number.
Qed.

(** ** [clean_entry] *)

Lemma try_body_raises (d : datum) (e : exn) :
  try_body d = Raise e ->
  e = ValueError NAN_MESSAGE \/ e = OverflowError INFINITY_MESSAGE.
Proof.
  assert (H : forall x, clean_float x = Raise e ->
            e = ValueError NAN_MESSAGE \/ e = OverflowError INFINITY_MESSAGE).
  { intros x. unfold clean_float, bind.
    destruct (int_of_float (float_of_formatted x)) as [n|e'] eqn:E.
    - destruct (float_eq_int _ n); discriminate.
    - intros [= <-].
      destruct (float_of_formatted x); simpl in E; try discriminate;
        injection E as <-; auto. }
  destruct d; simpl; try discriminate; apply H.
Qed.

Lemma handler_nan (en : entry) :
  handler (ValueError NAN_MESSAGE) en = Return (SkippingNan en) [].
Proof. reflexivity. Qed.

Lemma handler_infinity (en : entry) :
  handler (OverflowError INFINITY_MESSAGE) en = Resume.
Proof. reflexivity. Qed.

Lemma clean_loop_cons (en : entry) (d : datum) (todo : entry) (acc : list item) :
  clean_loop en (d :: todo) acc =
  if mentions_inf_or_nan d then ([Printed SKIP_MESSAGE], Ok [])
  else match try_body d with
       | Ok it => clean_loop en todo (acc ++ [it])
       | Raise e =>
           match handler e en with
           | Return printed line => ([printed], Ok line)
           | Reraise e' => ([], Raise e')
           | Resume => clean_loop en todo acc
           end
       end.
Proof. reflexivity. Qed.

(** No entry of floats, integers and strings makes [clean_entry] raise. *)
Lemma clean_loop_returns (en todo : entry) (acc : list item) :
  exists line, snd (clean_loop en todo acc) = Ok line.
Proof.
  revert acc; induction todo as [|d todo IH]; intros acc; [simpl; eauto|].
  rewrite clean_loop_cons.
  destruct (mentions_inf_or_nan d); [simpl; eauto|].
  destruct (try_body d) as [it|e] eqn:E; [apply IH|].
  destruct (try_body_raises _ _ E) as [-> | ->]; simpl; eauto.
Qed.

Lemma clean_entry_returns (en : entry) : snd (clean_entry en) = Ok (entry_line en).
Proof.
  unfold entry_line. destruct (clean_loop_returns en en []) as [line H].
  unfold clean_entry. rewrite H. done.
Qed.


Lemma map_result_returns {A B : Type} (f : A -> result B) (g : A -> B) (l : list A) :
  (forall a, f a = Ok (g a)) -> map_result f l = Ok (map g l).
Proof.
  intros H. induction l as [|a l IH]; simpl; [done|]. rewrite H, IH. done.
Qed.

Lemma Set_as_list_returns (s : PlotSet) :
  Set_as_list s =
  Ok ((str "@type " ++ set_datatype s ++ [NL]) :: map entry_line (set_entries s)).
Proof.
  unfold Set_as_list.
  rewrite (map_result_returns _ entry_line) by apply clean_entry_returns. done.
Qed.




Lemma handler_value_error (msg : text) (en : entry) :
  msg <> NAN_MESSAGE ->
  handler (ValueError msg) en = Reraise (ValueErrorAt (ValueError msg) en).
Proof.
  intros H. simpl. destruct (text_eqb msg NAN_MESSAGE) eqn:E; [|done].
  apply text_eqb_eq in E. done.
Qed.

Lemma handler_overflow_error (msg : text) (en : entry) :
  msg <> WRONG_INFINITY_MESSAGE -> handler (OverflowError msg) en = Resume.
Proof.
  intros H. simpl. destruct (text_eqb msg WRONG_INFINITY_MESSAGE) eqn:E; [|done].
  apply text_eqb_eq in E. done.
Qed.

(** C9: the [OverflowError] that converting an infinity raises is not the
    text the handler looks for; the handler neither returns nor raises, and
    the loop goes on without the value.  Here the first component is an
    instance of a subclass of [float] whose [__str__] returns "big". *)
Theorem unrecognized_overflow_swallowed :
  try_body (DFloatSub (S754_infinity false) (str "big")) = Raise (OverflowError INFINITY_MESSAGE)
  /\ handler (OverflowError INFINITY_MESSAGE)
       [DFloatSub (S754_infinity false) (str "big"); DInt 1] = Resume
  /\ clean_entry [DFloatSub (S754_infinity false) (str "big"); DInt 1]
     = ([], Ok (str "1" ++ [NL])).
Proof. repeat split. Qed.

(** ** Integral renderings *)

Lemma round_half_even_exact (n d : Z) : 0 < d -> (d | n) -> round_half_even (n, d) = n / d.
Proof.
  intros Hd [k ->]. unfold round_half_even.
  rewrite Z.mod_mul by lia.
  destruct (2 * 0 <? d) eqn:E; [done|]. apply Z.ltb_ge in E. lia.
Qed.

Lemma round_half_even_nonneg (n d : Z) : 0 <= n -> 0 < d -> 0 <= round_half_even (n, d).
Proof.
  intros Hn Hd. unfold round_half_even.
  assert (0 <= n / d) by (apply Z.div_pos; lia).
  repeat destruct (_ <? _); try destruct (Z.even _); lia.
Qed.

(** The float read back from an integral numeral is equal to its own
    integer part. *)
Lemma round64_integral (s : bool) (n d : Z) :
  0 <= n -> 0 < d -> (d | n) ->
  match round64 s (n, d) with
  | S754_nan => False
  | S754_infinity _ => True
  | f => exists k, int_of_float f = Ok k /\ float_eq_int f k = true
  end.
Proof.
  intros Hn Hd Hdiv. unfold round64.
  set (e := Z.max (binpt_of (n, d) - 53) (-1074)).
  set (q := round_half_even (scale 2 (n, d) e)).
  destruct (q =? 0) eqn:Eq0; [exists 0; done|].
  destruct ((0 <=? e) && (2 ^ 1024 <=? q * 2 ^ e)); [done|].
  apply Z.eqb_neq in Eq0.
  assert (Hq : 0 < q).
  { assert (0 <= q); [|lia]. unfold q, scale.
    destruct (0 <=? e) eqn:Ee.
    - apply round_half_even_nonneg; [lia|]. apply Z.leb_le in Ee.
      apply Z.mul_pos_pos; [lia|]. apply Z.pow_pos_nonneg; lia.
    - apply round_half_even_nonneg; [|lia]. apply Z.leb_gt in Ee.
      apply Z.mul_nonneg_nonneg; [lia|]. apply Z.pow_nonneg; lia. }
  eexists. split; [reflexivity|].
  unfold float_eq_int. rewrite Z2Pos.id by done.
  destruct (0 <=? e) eqn:Ee.
  - apply Z.eqb_eq. destruct s; [|done].
    change (Z.neg (Z.to_pos q)) with (- Z.pos (Z.to_pos q)). rewrite Z2Pos.id by done. lia.
  - apply Z.leb_gt in Ee. apply Z.eqb_eq.
    assert (Hp : 0 < 2 ^ (- e)) by (apply Z.pow_pos_nonneg; lia).
    assert (Hqe : q = n / d * 2 ^ (- e)).
    { unfold q, scale. replace (0 <=? e) with false by (symmetry; apply Z.leb_gt; lia).
      destruct Hdiv as [k ->].
      rewrite round_half_even_exact; [|done|exists (k * 2 ^ (- e)); lia].
      clearbody e. clear q Hq Eq0.
      replace (k * d * 2 ^ (- e)) with (k * 2 ^ (- e) * d) by lia.
      rewrite !Z.div_mul by lia. done. }
    assert (Hk : q / 2 ^ (- e) = n / d) by (rewrite Hqe; apply Z.div_mul; lia).
    rewrite Hk. clearbody q. clear Hk.
    destruct s.
    + change (Z.neg (Z.to_pos q)) with (- Z.pos (Z.to_pos q)). rewrite Z2Pos.id by done. lia.
    + lia.
Qed.

Lemma finite_not_mentioned (x : spec_float) :
  non_finite x = false -> mentions_inf_or_nan (DFloat x) = false.
Proof.
  intros H. assert (Hn : numeric (repr_float x)).
  { apply numeric_repr_float; intros; intros ->; discriminate. }
  unfold mentions_inf_or_nan, mentions.
  change (str_of_datum (DFloat x)) with (repr_float x).
  rewrite numeric_no_inf, numeric_no_nan; done.
Qed.

Lemma numeric_escape (c : ascii) : numeric_char c = true -> escape_char QUOTE c = [c].
Proof. all_chars c. Qed.

Lemma numeric_kept (c : ascii) : numeric_char c = true -> member c DEFAULT_CHARS = false.
Proof. all_chars c. Qed.

Lemma numeric_not_quote (c : ascii) : numeric_char c = true -> ascii_eqb QUOTE c = false.
Proof. all_chars c. Qed.

Lemma member_cons (c a : ascii) (s : text) :
  member c (a :: s) = ascii_eqb c a || member c s.
Proof. reflexivity. Qed.

Lemma numeric_repr_str (t : text) : numeric t -> repr_str t = QUOTE :: t ++ [QUOTE].
Proof.
  intros H. unfold repr_str.
  assert (Hq : member QUOTE t = false).
  { induction H as [|c t Hc _ IH]; [done|].
    rewrite member_cons, numeric_not_quote, IH; done. }
  rewrite Hq. rewrite andb_false_l. do 2 f_equal.
  clear Hq. induction H as [|c t Hc _ IH]; [done|].
  rewrite map_cons, concat_cons, numeric_escape, IH by done. done.
Qed.

Lemma remove_chars_numeric (t : text) : numeric t -> remove_chars t = t.
Proof.
  unfold remove_chars, remove_chars_of.
  induction 1 as [|c t Hc _ IH]; [done|].
  rewrite filter_cons_True by (by apply numeric_kept). by rewrite IH.
Qed.

(** A numeral alone in [reformatted_entry] is printed as it is. *)
Lemma clean_line_numeric (t : text) :
  numeric t -> remove_chars (str_of_items [IText t]) = t.
Proof.
  intros H.
  change (str_of_items [IText t]) with ("["%char :: repr_str t ++ ["]"%char]).
  rewrite numeric_repr_str by done.
  pose proof (remove_chars_numeric t H) as Ht.
  unfold remove_chars, remove_chars_of in *.
  rewrite filter_cons_False by (vm_compute; congruence).
  rewrite <- app_comm_cons, filter_cons_False by (vm_compute; congruence).
  rewrite !filter_app, Ht.
  rewrite !filter_cons_False by (vm_compute; congruence).
  rewrite filter_nil, !app_nil_r. done.
Qed.

Lemma not_dot_numeral (n : Z) : DOT ∉ str_of_Z n ++ [NL].
Proof.
  assert (H : forall d, DOT ∉ chars_of_uint d).
  { induction d; simpl; intros Hin; [by inversion Hin|..];
      apply elem_of_cons in Hin as [Hin|Hin]; try discriminate; auto. }
  intros Hin. apply elem_of_app in Hin as [Hin|Hin].
  - unfold str_of_Z in Hin. destruct (Z.to_int n).
    + by apply H in Hin.
    + apply elem_of_cons in Hin as [Hin|Hin]; [discriminate|by apply H in Hin].
  - apply elem_of_cons in Hin as [Hin|Hin]; [discriminate|inversion Hin].
Qed.

Lemma decimal_positive (D q n d : Z) : 0 <= D -> decimal D q = (n, d) -> 0 <= n /\ 0 < d.
Proof.
  unfold decimal, scale. intros HD.
  destruct (0 <=? - q) eqn:E; intros [= <- <-].
  - apply Z.leb_le in E. split; [done|].
    apply Z.mul_pos_pos; [lia|apply Z.pow_pos_nonneg; lia].
  - apply Z.leb_gt in E. split; [|lia].
    apply Z.mul_nonneg_nonneg; [done|apply Z.pow_nonneg; lia].
Qed.

Lemma of_uint_nonneg (d : uint) : 0 <= Z.of_uint d.
Proof. unfold Z.of_uint. apply N2Z.is_nonneg. Qed.


Lemma clean_integral_float (x : spec_float) (k : Z) :
  non_finite x = false ->
  int_of_float (float_of_formatted x) = Ok k ->
  float_eq_int (float_of_formatted x) k = true ->
  clean_entry [DFloat x] = ([], Ok (str_of_Z k ++ [NL])).
Proof.
  intros Hfin Hk Heq.
  unfold clean_entry. rewrite clean_loop_cons, finite_not_mentioned by done.
  change (try_body (DFloat x)) with (clean_float x).
  unfold clean_float, bind. rewrite Hk, Heq.
  cbn [clean_loop app]. rewrite clean_line_numeric by apply numeric_str_of_Z. done.
Qed.

(** ** Renderings stay in the range of binary64 *)

Lemma first_below_least (fuel : nat) (b : Z) (x : ratio) (p0 p : Z) :
  p0 <= p -> below_pow b x p = true -> first_below fuel b x p0 <= p.
Proof.
  revert p0. induction fuel as [|fuel IH]; intros p0 Hle H; cbn [first_below]; [done|].
  destruct (below_pow b x p0) eqn:E; [done|].
  apply IH; [|done]. assert (p0 <> p) by congruence. lia.
Qed.

Lemma round_half_even_le (n d k : Z) :
  0 < d -> 2 * n < (2 * k + 1) * d -> round_half_even (n, d) <= k.
Proof.
  intros Hd H. unfold round_half_even.
  pose proof (Z.div_mod n d ltac:(lia)) as Hn.
  pose proof (Z.mod_pos_bound n d Hd) as Hr.
  set (q := n / d) in *. set (r := n mod d) in *. clearbody q r.
  assert (Hq : q <= k) by nia.
  destruct (2 * r <? d) eqn:E1; [done|].
  apply Z.ltb_ge in E1.
  assert (q < k) by nia.
  destruct (d <? 2 * r); [lia|]. destruct (Z.even q); lia.
Qed.

Lemma binpt_of_le (n d p : Z) :
  0 <= n -> 0 < d -> 0 <= p -> n < d * 2 ^ p -> binpt_of (n, d) <= p.
Proof.
  intros Hn Hd Hp H. unfold binpt_of. apply first_below_least.
  - assert (0 <= Z.log2 d) by apply Z.log2_nonneg.
    destruct (Z.eq_dec n 0) as [-> | Hn0]; [change (Z.log2 0) with 0; lia|].
    assert (Z.log2 n <= Z.log2 (d * 2 ^ p)) by (apply Z.log2_le_mono; lia).
    rewrite Z.log2_mul_pow2 in * by lia. lia.
  - unfold below_pow. rewrite (proj2 (Z.leb_le 0 p)) by done. by apply Z.ltb_lt.
Qed.

(** A rational below the threshold does not round to an infinity. *)
Lemma round64_finite (s : bool) (n d : Z) :
  0 <= n -> 0 < d -> n < OVERFLOW_THRESHOLD * d ->
  forall s', round64 s (n, d) <> S754_infinity s'.
Proof.
  intros Hn Hd H s'. unfold round64.
  set (e := Z.max (binpt_of (n, d) - 53) (-1074)).
  set (q := round_half_even (scale 2 (n, d) e)).
  destruct (q =? 0); [done|].
  destruct (0 <=? e) eqn:Ee; cbn [andb]; [|done].
  destruct (2 ^ 1024 <=? q * 2 ^ e) eqn:Eo; [|done]. exfalso.
  apply Z.leb_le in Ee, Eo.
  assert (HR : 2 ^ 971 = 2 * 2 ^ 970) by (by vm_compute).
  assert (HT : OVERFLOW_THRESHOLD = 2 ^ 1024 - 2 ^ 970) by done.
  assert (HR0 : 0 < 2 ^ 970) by (by vm_compute).
  assert (Hb : binpt_of (n, d) <= 1024).
  { apply binpt_of_le; [done..|]. rewrite HT in H.
    remember (2 ^ 1024) as P. remember (2 ^ 970) as R. nia. }
  assert (He : e <= 971) by lia.
  assert (HP : 2 ^ 1024 = 2 ^ (1024 - e) * 2 ^ e)
    by (rewrite <- Z.pow_add_r by lia; f_equal; lia).
  assert (HB : 2 ^ e <= 2 ^ 971) by (apply Z.pow_le_mono_r; lia).
  assert (HB0 : 0 < 2 ^ e) by (apply Z.pow_pos_nonneg; lia).
  assert (Hq : q <= 2 ^ (1024 - e) - 1).
  { unfold q, scale. rewrite (proj2 (Z.leb_le 0 e)) by done.
    apply round_half_even_le; [nia|].
    replace ((2 * (2 ^ (1024 - e) - 1) + 1) * (d * 2 ^ e))
      with (2 * (2 ^ (1024 - e) * 2 ^ e) * d - 2 ^ e * d) by ring.
    rewrite <- HP, HT in *. rewrite HR in HB.
    remember (2 ^ 1024) as P. remember (2 ^ 970) as R. remember (2 ^ e) as B.
    nia. }
  remember (2 ^ 1024) as P. remember (2 ^ (1024 - e)) as A. remember (2 ^ e) as B.
  nia.
Qed.

Lemma dyadic_bound (m : positive) (e n d : Z) :
  Z.pos m < 2 ^ 53 -> e <= 971 -> ratio_of_dyadic m e = (n, d) ->
  0 < n /\ 0 < d /\ n <= MAX_FINITE * d.
Proof.
  intros Hm He. unfold ratio_of_dyadic, MAX_FINITE.
  assert (HM : 0 < 2 ^ 53 - 1) by (by vm_compute).
  assert (HE : 0 < 2 ^ 971) by (by vm_compute).
  destruct (0 <=? e) eqn:E; intros [= <- <-].
  - apply Z.leb_le in E.
    assert (0 < 2 ^ e) by (apply Z.pow_pos_nonneg; lia).
    assert (2 ^ e <= 2 ^ 971) by (apply Z.pow_le_mono_r; lia).
    remember (2 ^ 53) as M. remember (2 ^ 971) as X. remember (2 ^ e) as B.
    split; [lia|]. split; [lia|]. nia.
  - apply Z.leb_gt in E.
    assert (0 < 2 ^ (- e)) by (apply Z.pow_pos_nonneg; lia).
    remember (2 ^ 53) as M. remember (2 ^ 971) as X. remember (2 ^ (- e)) as B.
    split; [lia|]. split; [lia|]. nia.
Qed.

Lemma decpt_from_ge (fuel : nat) (n d p : Z) : p <= decpt_from fuel n d p.
Proof.
  revert d p. induction fuel as [|fuel IH]; intros d p; cbn [decpt_from]; [done|].
  destruct (n <? d); [done|]. specialize (IH (d * 10) (p + 1)). lia.
Qed.

Lemma decpt_from_found (fuel : nat) (n d p : Z) :
  n < d * 10 ^ Z.of_nat fuel -> n < d * 10 ^ (decpt_from fuel n d p - p).
Proof.
  revert d p. induction fuel as [|fuel IH]; intros d p H; cbn [decpt_from].
  - by rewrite Z.sub_diag.
  - destruct (n <? d) eqn:E.
    + apply Z.ltb_lt in E. rewrite Z.sub_diag. change (10 ^ 0) with 1. lia.
    + pose proof (decpt_from_ge fuel n (d * 10) (p + 1)) as Hge.
      replace (decpt_from fuel n (d * 10) (p + 1) - p)
        with (Z.succ (decpt_from fuel n (d * 10) (p + 1) - (p + 1))) by lia.
      rewrite Z.pow_succ_r by lia. rewrite Z.mul_assoc. apply IH.
      rewrite Nat2Z.inj_succ, Z.pow_succ_r in H by lia. lia.
Qed.

Lemma decpt_from_least (fuel : nat) (n d p k : Z) :
  0 <= k -> n < d * 10 ^ k -> decpt_from fuel n d p <= p + k.
Proof.
  revert d p k. induction fuel as [|fuel IH]; intros d p k Hk H; cbn [decpt_from]; [lia|].
  destruct (n <? d) eqn:E; [lia|]. apply Z.ltb_ge in E.
  assert (k <> 0) by (intros ->; change (10 ^ 0) with 1 in H; lia).
  replace (p + k) with (p + 1 + (k - 1)) by lia. apply IH; [lia|].
  replace k with (Z.succ (k - 1)) in H by lia. rewrite Z.pow_succ_r in H by lia. lia.
Qed.

(** The decimal point of a binary64 is found, and is at most 309. *)
Lemma decpt_of_binary64 (n d : Z) :
  0 <= n -> 0 < d -> n <= MAX_FINITE * d ->
  below_pow 10 (n, d) (decpt_of (n, d)) = true /\ decpt_of (n, d) <= 309.
Proof.
  intros Hn Hd Hmax. unfold decpt_of.
  assert (H330 : 0 < 10 ^ 330) by (by vm_compute).
  split.
  - pose proof (decpt_from_ge 700 (n * 10 ^ 330) d (-330)) as Hge.
    assert (Hf : n * 10 ^ 330 < d * 10 ^ Z.of_nat 700).
    { assert (HX : MAX_FINITE * 10 ^ 330 < 10 ^ Z.of_nat 700) by (by vm_compute).
      remember (10 ^ 330) as A. remember (10 ^ Z.of_nat 700) as B.
      remember MAX_FINITE as X. nia. }
    apply (decpt_from_found _ _ _ (-330)) in Hf.
    set (p := decpt_from 700 (n * 10 ^ 330) d (-330)) in *.
    unfold below_pow. destruct (0 <=? p) eqn:Ep.
    + apply Z.leb_le in Ep. apply Z.ltb_lt.
      replace (p - -330) with (p + 330) in Hf by lia.
      rewrite Z.pow_add_r in Hf by lia.
      assert (0 < 10 ^ p) by (apply Z.pow_pos_nonneg; lia).
      remember (10 ^ 330) as A. remember (10 ^ p) as B. nia.
    + apply Z.leb_gt in Ep. apply Z.ltb_lt.
      assert (HA : 10 ^ 330 = 10 ^ (- p) * 10 ^ (p - -330))
        by (rewrite <- Z.pow_add_r by lia; f_equal; lia).
      assert (0 < 10 ^ (p - -330)) by (apply Z.pow_pos_nonneg; lia).
      rewrite HA in Hf.
      remember (10 ^ (- p)) as B. remember (10 ^ (p - -330)) as C. nia.
  - replace 309 with (-330 + 639) by done. apply decpt_from_least; [done|].
    assert (HX : MAX_FINITE * 10 ^ 330 < 10 ^ 639) by (by vm_compute).
    remember (10 ^ 330) as A. remember (10 ^ 639) as B. remember MAX_FINITE as X. nia.
Qed.

(** With the decimal point at [p], the digits taken at [p - 8] are at most
    [10^8]. *)
Lemma eight_digits (n d p : Z) :
  0 <= n -> 0 < d -> below_pow 10 (n, d) p = true ->
  round_half_even (scale 10 (n, d) (p - 8)) <= 10 ^ 8.
Proof.
  intros Hn Hd H. unfold below_pow in H. unfold scale.
  destruct (0 <=? p - 8) eqn:Eq.
  - apply Z.leb_le in Eq. rewrite (proj2 (Z.leb_le 0 p)) in H by lia.
    apply Z.ltb_lt in H.
    assert (0 < 10 ^ (p - 8)) by (apply Z.pow_pos_nonneg; lia).
    assert (Hp : 10 ^ p = 10 ^ (p - 8) * 10 ^ 8)
      by (rewrite <- Z.pow_add_r by lia; f_equal; lia).
    rewrite Hp in H.
    apply round_half_even_le; [nia|].
    remember (10 ^ (p - 8)) as B. change (10 ^ 8) with 100000000 in *. nia.
  - apply Z.leb_gt in Eq.
    assert (0 < 10 ^ (- (p - 8))) by (apply Z.pow_pos_nonneg; lia).
    apply round_half_even_le; [done|].
    destruct (0 <=? p) eqn:Ep.
    + apply Z.leb_le in Ep. apply Z.ltb_lt in H.
      assert (Hp : 10 ^ 8 = 10 ^ p * 10 ^ (- (p - 8)))
        by (rewrite <- Z.pow_add_r by lia; f_equal; lia).
      assert (0 < 10 ^ p) by (apply Z.pow_pos_nonneg; lia).
      rewrite Hp.
      remember (10 ^ p) as A. remember (10 ^ (- (p - 8))) as B. nia.
    + apply Z.leb_gt in Ep. apply Z.ltb_lt in H.
      assert (Hp : 10 ^ (- (p - 8)) = 10 ^ (- p) * 10 ^ 8)
        by (rewrite <- Z.pow_add_r by lia; f_equal; lia).
      rewrite Hp. remember (10 ^ (- p)) as A. change (10 ^ 8) with 100000000. nia.
Qed.

(** The eight-digit rendering of a finite binary64 reads back as a finite
    float: [float(f"{x:.8}")] does not overflow. *)
Lemma float_of_formatted_finite (x : spec_float) :
  is_binary64 x = true -> non_finite x = false ->
  forall s, float_of_formatted x <> S754_infinity s.
Proof.
  destruct x as [s0|s0| |s0 m e]; try done. intros Hb _ s.
  apply andb_prop in Hb as [Hm He]. apply andb_prop in Hm as [Hm He'].
  apply Z.ltb_lt in Hm. apply Z.leb_le in He.
  unfold float_of_formatted, dtoa_fixed.
  destruct (ratio_of_dyadic m e) as [n d] eqn:Er.
  destruct (dyadic_bound m e n d Hm He Er) as (Hn & Hd & Hmax).
  destruct (decpt_of_binary64 n d ltac:(lia) Hd Hmax) as [Hp Hp309].
  set (p := decpt_of (n, d)) in *. unfold PRECISION.
  pose proof (eight_digits n d p ltac:(lia) Hd Hp) as HD8.
  set (D := round_half_even (scale 10 (n, d) (p - 8))) in *.
  destruct D as [|D'|D'] eqn:ED; [done| |done].
  cbn [digits_of float_of_digits].
  destruct (decimal (Z.pos D') (p - 8)) as [n' d'] eqn:Edec.
  destruct (decimal_positive _ _ _ _ (Pos2Z.is_nonneg D') Edec) as [Hn' Hd'].
  apply round64_finite; [done..|].
  unfold decimal, scale in Edec.
  assert (HT8 : 10 ^ 8 < OVERFLOW_THRESHOLD) by (by vm_compute).
  assert (HT0 : 0 < OVERFLOW_THRESHOLD) by (by vm_compute).
  destruct (0 <=? - (p - 8)) eqn:Eq; injection Edec as <- <-.
  - apply Z.leb_le in Eq.
    assert (0 < 10 ^ (- (p - 8))) by (apply Z.pow_pos_nonneg; lia).
    remember (10 ^ (- (p - 8))) as B. remember (10 ^ 8) as E8.
    remember OVERFLOW_THRESHOLD as T. nia.
  - apply Z.leb_gt in Eq. rewrite Z.opp_involutive, Z.mul_1_r.
    destruct (Z.eq_dec p 309) as [E309 | Hne].
    + rewrite E309. change (309 - 8) with 301.
      assert (HD : Z.pos D' <= 17976931).
      { rewrite <- ED. unfold D, scale. rewrite E309. change (0 <=? 309 - 8) with true.
        cbn iota. apply round_half_even_le.
        - assert (0 < 10 ^ (309 - 8)) by (by vm_compute). nia.
        - assert (HX : 2 * MAX_FINITE < (2 * 17976931 + 1) * 10 ^ (309 - 8)) by (by vm_compute).
          remember (10 ^ (309 - 8)) as B. remember MAX_FINITE as X.
          replace ((2 * 17976931 + 1) * (d * B)) with ((2 * 17976931 + 1) * B * d) by ring.
          nia. }
      assert (HX : 17976931 * 10 ^ 301 < OVERFLOW_THRESHOLD) by (by vm_compute).
      assert (0 < 10 ^ 301) by (by vm_compute).
      remember (10 ^ 301) as B. remember OVERFLOW_THRESHOLD as T. nia.
    + assert (Hq : p - 8 <= 300) by lia.
      assert (HB : 10 ^ (p - 8) <= 10 ^ 300) by (apply Z.pow_le_mono_r; lia).
      assert (0 < 10 ^ (p - 8)) by (apply Z.pow_pos_nonneg; lia).
      assert (HX : 10 ^ 8 * 10 ^ 300 < OVERFLOW_THRESHOLD) by (by vm_compute).
      remember (10 ^ (p - 8)) as B. remember (10 ^ 300) as C. remember (10 ^ 8) as E8.
      remember OVERFLOW_THRESHOLD as T. nia.
Qed.

(** C6: 0.1 is formatted as 0.1 and 2.0 as 2; and a finite float whose
    rendering with eight significant digits denotes an integer is emitted as
    the numeral of that integer, without a decimal point. *)
Theorem numeric_rendering (x : spec_float) :
  is_binary64 x = true ->
  non_finite x = false ->
  is_integral (dtoa_fixed PRECISION x) = true ->
  format_float tenth = str "0.1"
  /\ clean_entry [DFloat tenth] = ([], Ok (str "0.1" ++ [NL]))
  /\ format_float two = str "2.0"
  /\ clean_entry [DFloat two] = ([], Ok (str "2" ++ [NL]))
  /\ exists n,
       int_of_float (float_of_formatted x) = Ok n /\
       float_eq_int (float_of_formatted x) n = true /\
       clean_entry [DFloat x] = ([], Ok (str_of_Z n ++ [NL])) /\
       DOT ∉ str_of_Z n ++ [NL].
Proof.
  intros Hb Hfin Hint.
  split; [by vm_compute|]. split; [by vm_compute|].
  split; [by vm_compute|]. split; [by vm_compute|].
  assert (Hok : forall k, int_of_float (float_of_formatted x) = Ok k ->
                          float_eq_int (float_of_formatted x) k = true ->
    exists n, int_of_float (float_of_formatted x) = Ok n /\
              float_eq_int (float_of_formatted x) n = true /\
              clean_entry [DFloat x] = ([], Ok (str_of_Z n ++ [NL])) /\
              DOT ∉ str_of_Z n ++ [NL]).
  { intros k Hk Heq. exists k. split; [done|]. split; [done|].
    split; [by apply clean_integral_float|apply not_dot_numeral]. }
  pose proof (float_of_formatted_finite x Hb Hfin) as Hnoinf.
  unfold is_integral in Hint.
  destruct (dtoa_fixed PRECISION x) as [| |neg|neg D q] eqn:Edt; try discriminate.
  { apply (Hok 0); unfold float_of_formatted; by rewrite Edt. }
  destruct (decimal (Z.pos D) q) as [n d] eqn:Edec.
  destruct (decimal_positive _ _ _ _ (Pos2Z.is_nonneg D) Edec) as [Hn Hd].
  apply Z.eqb_eq in Hint. apply Z.mod_divide in Hint; [|lia].
  assert (Hf : float_of_formatted x = round64 neg (n, d)).
  { unfold float_of_formatted, float_of_digits. by rewrite Edt, Edec. }
  pose proof (round64_integral neg n d Hn Hd Hint) as Hr.
  rewrite <- Hf in Hr.
  destruct (float_of_formatted x) as [s|s| |s m e] eqn:Er.
  - destruct Hr as (k & Hk & Hke). by apply (Hok k).
  - by destruct (Hnoinf s).
  - done.
  - destruct Hr as (k & Hk & Hke). by apply (Hok k).
Qed.

Lemma numeric_rendering_witness :
  clean_entry [DFloat two] = ([], Ok (str "2" ++ [NL])) /\
  exists n,
    int_of_float (float_of_formatted ten_to_16) = Ok n /\
    float_eq_int (float_of_formatted ten_to_16) n = true /\
    clean_entry [DFloat ten_to_16] = ([], Ok (str_of_Z n ++ [NL])) /\
    DOT ∉ str_of_Z n ++ [NL].
Proof.
  pose proof (numeric_rendering ten_to_16 eq_refl eq_refl) as H.
  assert (Hi : is_integral (dtoa_fixed PRECISION ten_to_16) = true) by (vm_compute; reflexivity).
  destruct (H Hi) as (_ & _ & _ & H2 & Hx). split; [exact H2|exact Hx].
Defined.

(** ** The scan *)

Lemma bind_assoc {A B C : Type} (r : result A) (f : A -> result B) (h : B -> result C) :
  bind (bind r f) h = bind r (fun a => bind (f a) h).
Proof. by destruct r. Qed.

Lemma Set_as_list_lines (s : PlotSet) : Set_as_list s = Ok (set_lines s).
Proof. apply Set_as_list_returns. Qed.

Lemma Group_as_list_lines (g : Group) : Group_as_list g = Ok (group_lines g).
Proof.
  unfold Group_as_list, group_lines.
  rewrite (map_result_returns _ (block_lines (group_index g))); [done|].
  intros p. unfold set_block. by rewrite Set_as_list_lines.
Qed.

Lemma data_lines_returns (g : Graph) : data_lines g = Ok (data_of g).
Proof.
  unfold data_lines, data_of.
  rewrite (map_result_returns _ group_lines) by apply Group_as_list_lines. done.
Qed.

(** The accumulator of [scan] is a prefix of its result. *)
Lemma scan_acc (g : Graph) (todo : list text) (group : option Z) (lines : list text) :
  scan g group lines todo = bind (scan g group [] todo) (fun r => Ok (lines ++ r)).
Proof.
  revert group lines. induction todo as [|line todo IH]; intros group lines.
  - simpl. rewrite data_lines_returns. done.
  - simpl. destruct (current_group group line) as [group'|e]; [|done]. simpl.
    destruct (classify g group' line) as [[ls|]|e]; try done.
    + simpl. rewrite (IH group' (lines ++ ls)), (IH group' ls).
      destruct (scan g group' [] todo); simpl; [|done]. by rewrite app_assoc.
    + simpl. rewrite data_lines_returns. done.
Qed.

(** [scan] in terms of [scan_header]. *)
Lemma scan_scan_header (g : Graph) (pre rest : list text) (group : option Z)
    (lines : list text) :
  scan g group lines (pre ++ rest) =
  bind (scan_header g group pre) (fun r =>
    if snd r then Ok (lines ++ snd (fst r) ++ data_of g)
    else scan g (fst (fst r)) (lines ++ snd (fst r)) rest).
Proof.
  revert group lines. induction pre as [|line pre IH]; intros group lines.
  - simpl. by rewrite app_nil_r.
  - simpl. destruct (current_group group line) as [group'|e]; [|done]. simpl.
    destruct (classify g group' line) as [[ls|]|e]; try done.
    + simpl. rewrite IH. destruct (scan_header g group' pre) as [[[gp E] found]|e]; [|done].
      simpl. rewrite !app_assoc. done.
    + simpl. rewrite data_lines_returns. done.
Qed.

(** ** The assertion on a legend without a group *)

Lemma current_group_other (group : option Z) (line : text) :
  startswith GROUP_START line = false -> current_group group line = Ok group.
Proof. intros H. unfold current_group. by rewrite H. Qed.

Lemma classify_legend_no_group (g : Graph) (line : text) :
  is_legend line = true -> classify g None line = Raise (AssertionError NO_GROUP_MESSAGE).
Proof. intros H. unfold classify. by rewrite H. Qed.

Lemma scan_asserts (g : Graph) (pre : list text) (line : text) (post lines : list text) :
  Forall (fun l => startswith GROUP_START l = false /\ data_start l = false) pre ->
  startswith GROUP_START line = false ->
  is_legend line = true ->
  scan g None lines (pre ++ line :: post) = Raise (AssertionError NO_GROUP_MESSAGE).
Proof.
  intros Hpre Hline Hleg. revert lines.
  induction Hpre as [|l pre [Hg Ht] _ IH]; intros lines.
  - simpl. rewrite current_group_other by done. simpl.
    by rewrite classify_legend_no_group.
  - simpl. rewrite current_group_other by done. simpl.
    unfold classify. unfold data_start in Ht. destruct (is_legend l); [done|].
    cbn [negb andb] in Ht. rewrite Ht.
    destruct (startswith SUBTITLE_START l); [apply IH|].
    destruct (startswith DESCRIPTION_START l); apply IH.
Qed.

Lemma scan_never_asserts (g : Graph) (todo : list text) (group : option Z)
    (lines : list text) (msg : text) :
  group <> None \/ group_precedes_legends todo ->
  scan g group lines todo <> Raise (AssertionError msg).
Proof.
  revert group lines. induction todo as [|line todo IH]; intros group lines Hinv.
  - simpl. by rewrite data_lines_returns.
  - simpl. unfold current_group.
    destruct (startswith GROUP_START line) eqn:Hstart.
    + unfold int_of_text. destruct (py_int _) as [n|]; [|done]. simpl.
      unfold classify. destruct (is_legend line).
      * unfold int_of_text. destruct (py_int _); [|done]. simpl.
        apply IH. by left.
      * destruct (startswith SUBTITLE_START line); [apply IH; by left|].
        destruct (startswith TARGET_START line); [simpl; by rewrite data_lines_returns|].
        destruct (startswith DESCRIPTION_START line); apply IH; by left.
    + simpl.
      assert (Hrest : group <> None \/ group_precedes_legends todo).
      { destruct Hinv as [Hgroup|Hprec]; [by left|right].
        intros i l Hi Hl. destruct (Hprec (S i) l Hi Hl) as (j & l' & Hj & Hl' & Hs).
        destruct j as [|j]; [simpl in Hl'; congruence|].
        exists j, l'. split; [lia|done]. }
      unfold classify. destruct (is_legend line) eqn:Hleg.
      * destruct group as [gi|].
        -- unfold int_of_text. destruct (py_int _); [|done]. simpl. by apply IH.
        -- destruct Hinv as [Hgroup|Hprec]; [done|].
           destruct (Hprec 0%nat line eq_refl Hleg) as (j & _ & Hj & _). lia.
      * destruct (startswith SUBTITLE_START line); [by apply IH|].
        destruct (startswith TARGET_START line); [simpl; by rewrite data_lines_returns|].
        destruct (startswith DESCRIPTION_START line); by apply IH.
Qed.

(** C7: a legend line that the scan meets (the data portion has not
    started) before any line that starts a group makes the merge fail its
    assertion; and the assertion never fails on a file where a group start
    comes before every legend line. *)
Theorem legend_before_group (g : Graph) :
  (forall (pre : list text) (line : text) (post : list text),
     Forall (fun l => startswith GROUP_START l = false /\ data_start l = false) pre ->
     startswith GROUP_START line = false ->
     is_legend line = true ->
     merge g (pre ++ line :: post) = Raise (AssertionError NO_GROUP_MESSAGE))
  /\
  (forall (original : list text) (msg : text),
     group_precedes_legends original ->
     merge g original <> Raise (AssertionError msg)).
Proof.
  split.
  - intros. by apply scan_asserts.
  - intros. apply scan_never_asserts. by right.
Qed.

Lemma legend_before_group_witness :
  merge empty_graph
    ([str "# Grace project file" ++ [NL]] ++
     (str "@    s0 legend  " ++ [DQUOTE; "x"%char; DQUOTE; NL]) :: [])
  = Raise (AssertionError NO_GROUP_MESSAGE)
  /\
  merge empty_graph
    [str "@with g0" ++ [NL]; str "@    s0 legend  " ++ [DQUOTE; "x"%char; DQUOTE; NL]]
  <> Raise (AssertionError NO_GROUP_MESSAGE).
Proof.
  destruct (legend_before_group empty_graph) as [H1 H2]. split.
  - apply H1.
    + repeat constructor.
    + reflexivity.
    + reflexivity.
  - apply H2. intros i line Hi Hl.
    destruct i as [|[|i]]; simpl in Hi.
    + injection Hi as <-. discriminate Hl.
    + exists 0%nat. eexists. split; [lia|]. split; reflexivity.
    + discriminate Hi.
Defined.

(** ** Dictionaries built by [enumerate] *)

Lemma dict_get_enumerate_from {A V : Type} (h : Z * A -> V) (l : list A) (i k : Z) :
  dict_get (map (fun p => (fst p, h p)) (enumerate_from i l)) k =
  (fun a => h (k, a)) <$> nth_Z l (k - i).
Proof.
  revert i. induction l as [|a l IH]; intros i; simpl.
  - unfold nth_Z. by destruct (k - i <? 0).
  - destruct (i =? k) eqn:E.
    + apply Z.eqb_eq in E as ->. unfold nth_Z. rewrite Z.sub_diag. done.
    + apply Z.eqb_neq in E. rewrite IH. unfold nth_Z.
      destruct (k - i <? 0) eqn:E1.
      * apply Z.ltb_lt in E1.
        replace (k - (i + 1) <? 0) with true by (symmetry; apply Z.ltb_lt; lia). done.
      * apply Z.ltb_ge in E1.
        replace (k - (i + 1) <? 0) with false by (symmetry; apply Z.ltb_ge; lia).
        replace (Z.to_nat (k - i)) with (S (Z.to_nat (k - (i + 1)))) by lia. done.
Qed.

Lemma dict_get_enumerate {A V : Type} (h : Z * A -> V) (l : list A) (k : Z) :
  dict_get (map (fun p => (fst p, h p)) (enumerate l)) k = (fun a => h (k, a)) <$> nth_Z l k.
Proof. unfold enumerate. rewrite dict_get_enumerate_from. by rewrite Z.sub_0_r. Qed.

Lemma legend_of_Graph_init (now description : text) (datasets : list group_input) (G s : Z) :
  legend_of (Graph_init now description datasets) G s = supplied_legend datasets G s.
Proof.
  unfold legend_of, supplied_legend. simpl legend.
  rewrite (dict_get_enumerate (fun p : Z * group_input => map make_legend (enumerate (snd (snd p))))).
  destruct (nth_Z datasets G) as [[G_label sets]|]; [|done]. simpl.
  assert (Hm : map make_legend (enumerate sets) =
               map (fun p => (fst p, snd (make_legend p))) (enumerate sets)).
  { apply map_ext. by intros [i [[l d] e]]. }
  rewrite Hm, (dict_get_enumerate (fun p => snd (make_legend p))).
  by destruct (nth_Z sets s) as [[[l d] e]|].
Qed.

Lemma subtitle_of_Graph_init (now description : text) (datasets : list group_input) (G : Z) :
  subtitle_of (Graph_init now description datasets) (Some G) = supplied_subtitle datasets G.
Proof.
  unfold subtitle_of, supplied_subtitle. simpl subtitle.
  rewrite (dict_get_enumerate (fun p : Z * group_input => subtitle_line (label_text (fst (snd p))))).
  by destruct (nth_Z datasets G) as [[G_label sets]|].
Qed.

(** ** Legend lines *)

Lemma scan_legend (g : Graph) (pre : list text) (line : text) (post : list text)
    (gp : option Z) (G s : Z) (E : list text) :
  scan_header g None pre = Ok (gp, E, false) ->
  current_group gp line = Ok (Some G) ->
  is_legend line = true ->
  int_of_text (first_digits line) = Ok s ->
  merge g (pre ++ line :: post) = scan g (Some G) (E ++ option_list (legend_of g G s)) post.
Proof.
  intros Hpre Hgroup Hleg Hs. unfold merge.
  rewrite scan_scan_header, Hpre. simpl.
  rewrite Hgroup. simpl. unfold classify. rewrite Hleg, Hs. done.
Qed.

(** ** Numerals read by [int] *)

Lemma digit_not_space (c : ascii) : is_digit c = true -> is_space c = false.
Proof. all_chars c. Qed.

Lemma digit_not_sign (c : ascii) :
  is_digit c = true -> ascii_eqb c MINUS = false /\ ascii_eqb c PLUS = false.
Proof. all_chars c. Qed.

Lemma lstrip_digit (c : ascii) (s : text) : is_digit c = true -> lstrip (c :: s) = c :: s.
Proof. intros H. simpl. by rewrite digit_not_space. Qed.

Lemma strip_digits (ds : text) : Forall (fun c => is_digit c = true) ds -> strip ds = ds.
Proof.
  intros H. unfold strip, rstrip.
  assert (Hl : forall s, Forall (fun c => is_digit c = true) s -> lstrip s = s).
  { intros s Hs. destruct Hs; [done|by apply lstrip_digit]. }
  rewrite (Hl ds H), Hl by (by apply Forall_reverse). apply reverse_involutive.
Qed.

Lemma uint_of_digits (ds : text) (after_digit : bool) :
  Forall (fun c => is_digit c = true) ds -> ds <> [] \/ after_digit = true ->
  exists d, uint_of_chars after_digit ds = Some d.
Proof.
  intros H. revert after_digit. induction H as [|c ds Hc _ IH]; intros b Hb.
  - destruct Hb as [Hne | ->]; [done|]. simpl. eauto.
  - simpl. rewrite Hc. destruct (IH true) as [d ->]; [by right|]. simpl. eauto.
Qed.

Lemma py_int_digits (ds : text) :
  Forall (fun c => is_digit c = true) ds -> ds <> [] -> exists n, py_int ds = Some n.
Proof.
  intros H Hne. unfold py_int. rewrite strip_digits by done.
  destruct ds as [|c ds]; [done|].
  destruct (digit_not_sign c) as [-> ->]; [by inversion H|].
  destruct (uint_of_digits (c :: ds) false H) as [d ->]; [by left|]. simpl. eauto.
Qed.

Lemma take_digits_digits (s : text) : Forall (fun c => is_digit c = true) (take_digits s).
Proof.
  induction s as [|c s IH]; simpl; [constructor|].
  destruct (is_digit c) eqn:E; by constructor.
Qed.

Lemma first_digits_digits (s : text) : Forall (fun c => is_digit c = true) (first_digits s).
Proof.
  induction s as [|c s IH]; simpl; [constructor|].
  destruct (is_digit c) eqn:E; [|done]. constructor; [done|apply take_digits_digits].
Qed.

Lemma first_digits_nonempty (s : text) (c : ascii) :
  c ∈ s -> is_digit c = true -> first_digits s <> [].
Proof.
  induction s as [|b s IH]; intros Hin Hc; [by inversion Hin|].
  simpl. destruct (is_digit b) eqn:E; [done|].
  apply elem_of_cons in Hin as [->|Hin]; [congruence|auto].
Qed.

Lemma legend_here_digit (s : text) :
  legend_here s = true -> exists c, c ∈ s /\ is_digit c = true.
Proof.
  unfold legend_here. intros H. apply andb_true_iff in H as [_ H].
  destruct (drop 6 s) as [|c r] eqn:E; [done|].
  apply andb_true_iff in H as [Hc _]. exists c. split; [|done].
  assert (Hin : c ∈ drop 6 s) by (rewrite E; left).
  rewrite <- (take_drop 6 s). apply elem_of_app. by right.
Qed.

Lemma is_legend_digit (line : text) :
  is_legend line = true -> exists c, c ∈ line /\ is_digit c = true.
Proof.
  induction line as [|b line IH]; simpl.
  - discriminate.
  - intros H. apply orb_true_iff in H as [H|H].
    + by apply legend_here_digit in H.
    + destruct (IH H) as (c & Hin & Hc). exists c. split; [by right|done].
Qed.

(** A line that matches the legend pattern has a set index. *)
Lemma legend_has_index (line : text) :
  is_legend line = true -> exists s, int_of_text (first_digits line) = Ok s.
Proof.
  intros H. destruct (is_legend_digit line H) as (c & Hin & Hc).
  destruct (py_int_digits (first_digits line)) as [n Hn].
  - apply first_digits_digits.
  - by eapply first_digits_nonempty.
  - exists n. unfold int_of_text. by rewrite Hn.
Qed.

(** C3: a legend line that the scan reaches, in group [G] and with set
    index [s], is replaced by the legend line of the newly supplied label
    when the new data has set [s] in group [G], and is dropped otherwise;
    the output before it ([E]) and after it is what the other lines give. *)
Theorem label_overwrite (now description : text) (datasets : list group_input)
    (pre : list text) (line : text) (post : list text)
    (gp : option Z) (G : Z) (E : list text) :
  let g := Graph_init now description datasets in
  scan_header g None pre = Ok (gp, E, false) ->
  current_group gp line = Ok (Some G) ->
  is_legend line = true ->
  exists s,
    int_of_text (first_digits line) = Ok s /\
    merge g (pre ++ line :: post) =
    (rest <- scan g (Some G) [] post ;;
     Ok (E ++ option_list (supplied_legend datasets G s) ++ rest)).
Proof.
  intros g Hpre Hgroup Hleg.
  destruct (legend_has_index line Hleg) as [s Hs]. exists s. split; [done|].
  rewrite (scan_legend g pre line post gp G s E) by done.
  rewrite scan_acc. unfold g. rewrite legend_of_Graph_init.
  destruct (scan _ _ [] post); simpl; [|done]. by rewrite app_assoc.
Qed.

Lemma label_overwrite_witness :
  exists s,
    int_of_text (first_digits old_legend) = Ok s /\
    merge (Graph_init (str "now") [] one_set)
          ([str "@with g0" ++ [NL]] ++ old_legend :: []) =
    (rest <- scan (Graph_init (str "now") [] one_set) (Some 0) [] [] ;;
     Ok ([str "@with g0" ++ [NL]] ++ option_list (supplied_legend one_set 0 s) ++ rest)).
Proof.
  apply (label_overwrite (str "now") [] one_set [str "@with g0" ++ [NL]] old_legend []
           (Some 0) 0 [str "@with g0" ++ [NL]]); reflexivity.
Defined.

(** A legend line after the start of the data portion is discarded with the
    rest of the file: the new legend of its set is not in the output. *)
Lemma legend_after_data_not_replaced :
  let original := [str "@with g0" ++ [NL]; str "@target G0.S0" ++ [NL]; old_legend] in
  supplied_legend one_set 0 0 = Some (legend_line 0 (str "alt")) /\
  exists out,
    merge (Graph_init (str "now") [] one_set) original = Ok out /\
    ~ legend_line 0 (str "alt") ∈ out.
Proof.
  split; [reflexivity|]. eexists. split; [vm_compute; reflexivity|].
  intros H. repeat (apply elem_of_cons in H as [H|H]; [discriminate H|]).
  inversion H.
Qed.

(** The pattern has one digit: the legend line of set 10 is a passthrough
    line for the merge, and keeps its old label. *)
Example legend_of_set_ten_kept :
  let ten := str "@    s10 legend  " ++ quoted "old" ++ [NL] in
  is_legend ten = false /\
  merge (Graph_init (str "now") [] one_set)
        [str "@with g0" ++ [NL]; ten; str "@target G0.S0" ++ [NL]]
  = Ok ([str "@with g0" ++ [NL]; ten] ++ data_of (Graph_init (str "now") [] one_set)).
Proof. split; vm_compute; reflexivity. Qed.

(** The scenario of the claim: a first run with two sets, then a run with
    the second set removed.  The first file holds the legend line of set 1;
    the second file holds no legend line with index 1. *)
Lemma shrinkage_leaves_no_stale_legend :
  exists first second,
    create_file (Graph_init (str "Monday") (str "example") two_sets) example_template None
      = Ok first /\
    create_file (Graph_init (str "Tuesday") (str "example") one_set) example_template
      (Some (file_content first)) = Ok second /\
    existsb (text_eqb stale_legend) (readlines (file_content first)) = true /\
    forallb (fun l => negb (is_legend l && text_eqb (first_digits l) (str "1")))
            (readlines (file_content second)) = true.
Proof.
  eexists _, _. split; [vm_compute; reflexivity|].
  split; [vm_compute; reflexivity|].
  split; vm_compute; reflexivity.
Qed.

(** ** Passthrough lines *)

Lemma is_owned_elem (g : Graph) (line : text) : is_owned g line = true <-> line ∈ owned g.
Proof.
  unfold is_owned. rewrite existsb_exists. split.
  - intros (l & Hin & Heq). apply text_eqb_eq in Heq as ->. by apply list_elem_of_In.
  - intros H. exists line. split; [by apply list_elem_of_In|by apply text_eqb_eq].
Qed.

Lemma dict_get_elem {V : Type} (d : list (Z * V)) (k : Z) (v : V) :
  dict_get d k = Some v -> (k, v) ∈ d.
Proof.
  induction d as [|[k' v'] d IH]; simpl; [done|].
  destruct (k' =? k) eqn:E.
  - intros [= ->]. apply Z.eqb_eq in E as ->. left.
  - intros H. right. auto.
Qed.

Lemma elem_of_map {A B : Type} (f : A -> B) (l : list A) (y : B) :
  y ∈ map f l <-> exists x, y = f x /\ x ∈ l.
Proof.
  rewrite list_elem_of_In, in_map_iff. split; intros (x & H1 & H2); exists x.
  - by rewrite list_elem_of_In.
  - by rewrite <- list_elem_of_In.
Qed.

Lemma elem_of_concat {A : Type} (ls : list (list A)) (x : A) :
  x ∈ concat ls <-> exists l, x ∈ l /\ l ∈ ls.
Proof.
  rewrite list_elem_of_In, in_concat. split; intros (l & H1 & H2); exists l.
  - by rewrite !list_elem_of_In.
  - by rewrite <- !list_elem_of_In.
Qed.

Lemma legend_owned (g : Graph) (G s : Z) (l : text) :
  legend_of g G s = Some l -> l ∈ owned g.
Proof.
  unfold legend_of. destruct (dict_get (legend g) G) as [sets|] eqn:E; [|done].
  intros H. apply dict_get_elem in E. apply dict_get_elem in H.
  unfold owned. rewrite !elem_of_app. right. right. left.
  apply elem_of_concat. exists (map snd sets). split.
  - apply elem_of_map. by exists (s, l).
  - apply elem_of_map. by exists (G, sets).
Qed.

Lemma subtitle_owned (g : Graph) (group : option Z) (l : text) :
  subtitle_of g group = Some l -> l ∈ owned g.
Proof.
  destruct group as [G|]; [|done]. simpl. intros H. apply dict_get_elem in H.
  unfold owned. rewrite !elem_of_app. right. left.
  apply elem_of_map. by exists (G, l).
Qed.

Lemma filter_none {A : Type} (P : A -> Prop) `{!forall x, Decision (P x)} (l : list A) :
  Forall (fun x => ~ P x) l -> filter P l = [].
Proof.
  induction 1 as [|x l Hx _ IH]; [done|]. by rewrite filter_cons_False.
Qed.

Lemma owned_not_foreign (g : Graph) (ls : list text) :
  (forall l, l ∈ ls -> l ∈ owned g) -> filter (foreign g) ls = [].
Proof.
  intros H. apply filter_none. apply Forall_forall. intros l Hl [_ Ho].
  apply H, is_owned_elem in Hl. congruence.
Qed.

Lemma option_list_owned (g : Graph) (o : option text) :
  (forall l, o = Some l -> l ∈ owned g) -> filter (foreign g) (option_list o) = [].
Proof.
  intros H. apply owned_not_foreign. intros l Hl. destruct o as [l'|]; [|by inversion Hl].
  apply list_elem_of_singleton in Hl as ->. by apply H.
Qed.

Lemma description_not_foreign (g : Graph) (b : bool) :
  filter (foreign g) (if b then description g else []) = [].
Proof.
  apply owned_not_foreign. intros l Hl. destruct b; [|by inversion Hl].
  unfold owned. rewrite !elem_of_app. by left.
Qed.

Lemma tail_not_foreign (g : Graph) :
  filter (foreign g) (label_lines g ++ data_of g) = [] /\
  filter (foreign g) (data_of g) = [].
Proof.
  split; apply owned_not_foreign; intros l Hl; unfold owned; rewrite !elem_of_app.
  - apply elem_of_app in Hl as [Hl|Hl]; auto.
  - auto.
Qed.

Lemma classify_passthrough (g : Graph) (group : option Z) (line : text) :
  passthrough line = true ->
  current_group group line = Ok group /\
  classify g group line =
  Ok (Append (line :: if negb (is_nil (description g)) && startswith PAGE_SIZE_START line
                      then description g else [])).
Proof.
  unfold passthrough, recognized. intros H. apply negb_true_iff in H.
  repeat (apply orb_false_iff in H as [H ?]).
  split; [by apply current_group_other|].
  unfold classify. repeat match goal with Hx : _ = false |- _ => rewrite Hx; clear Hx end.
  done.
Qed.

(** What the scan appends for a line that is not a passthrough line and
    does not start the data portion holds no foreign line. *)
Lemma classify_recognized (g : Graph) (group : option Z) (line : text) (ls : list text) :
  passthrough line = false ->
  classify g group line = Ok (Append ls) ->
  filter (foreign g) ls = [].
Proof.
  intros Hp. unfold classify.
  destruct (is_legend line) eqn:Hleg.
  { destruct group as [G|]; [|done]. destruct (int_of_text _) as [s|]; [|done].
    simpl. intros [= <-]. apply option_list_owned. intros l. apply legend_owned. }
  destruct (startswith SUBTITLE_START line) eqn:Hsub.
  { intros [= <-]. apply option_list_owned. intros l. apply subtitle_owned. }
  destruct (startswith TARGET_START line) eqn:Htar; [done|].
  destruct (startswith DESCRIPTION_START line) eqn:Hdes; [by intros [= <-]|].
  intros [= <-]. rewrite filter_cons_False.
  - apply description_not_foreign.
  - intros [Hpass _]. congruence.
Qed.

Lemma target_not_subtitle (line : text) :
  startswith TARGET_START line = true -> startswith SUBTITLE_START line = false.
Proof. intros H. apply startswith_prefix in H as [r ->]. reflexivity. Qed.

Lemma classify_data_start (g : Graph) (group : option Z) (line : text) :
  classify g group line = Ok DataPortion <-> data_start line = true.
Proof.
  unfold classify, data_start. destruct (is_legend line).
  { split; [|done]. destruct group; [|done]. by destruct (int_of_text _). }
  cbn [negb andb]. destruct (startswith TARGET_START line) eqn:Ht.
  - by rewrite target_not_subtitle.
  - destruct (startswith SUBTITLE_START line); [done|].
    by destruct (startswith DESCRIPTION_START line).
Qed.

Lemma scan_cons_append (g : Graph) (group group' : option Z) (line : text)
    (ls todo out : list text) :
  current_group group line = Ok group' ->
  classify g group' line = Ok (Append ls) ->
  scan g group [] (line :: todo) = Ok out ->
  exists out', scan g group' [] todo = Ok out' /\ out = ls ++ out'.
Proof.
  intros Hg Hc. simpl. rewrite Hg. simpl. rewrite Hc. simpl. rewrite scan_acc.
  destruct (scan g group' [] todo) as [out'|]; [|done]. simpl. intros [= <-]. eauto.
Qed.

Lemma scan_passthrough (g : Graph) (todo : list text) (group : option Z) (out : list text) :
  scan g group [] todo = Ok out ->
  filter (fun l => passthrough l = true) (before_data todo) `sublist_of` out /\
  filter (foreign g) out = filter (foreign g) (before_data todo).
Proof.
  revert group out. induction todo as [|line todo IH]; intros group out H.
  { simpl in H. rewrite data_lines_returns in H. simpl in H. injection H as <-.
    split; [apply sublist_nil_l|]. apply tail_not_foreign. }
  destruct (current_group group line) as [group'|e] eqn:Hg; [|simpl in H; by rewrite Hg in H].
  destruct (classify g group' line) as [[ls|]|e] eqn:Hc.
  - destruct (scan_cons_append _ _ _ _ _ _ _ Hg Hc H) as (out' & Hout' & ->).
    destruct (IH _ _ Hout') as [IH1 IH2].
    assert (Hds : data_start line = false).
    { destruct (data_start line) eqn:E; [|done].
      apply (classify_data_start g group') in E. congruence. }
    simpl before_data. rewrite Hds.
    destruct (passthrough line) eqn:Hp.
    + destruct (classify_passthrough g group line Hp) as [Hg' Hc'].
      rewrite Hg' in Hg. injection Hg as <-. rewrite Hc' in Hc. injection Hc as <-.
      rewrite filter_cons_True by done. split.
      * apply sublist_skip. by apply sublist_inserts_l.
      * rewrite <- app_comm_cons. destruct (decide (foreign g line)).
        -- rewrite !filter_cons_True by done.
           by rewrite filter_app, description_not_foreign, IH2.
        -- rewrite !filter_cons_False by done.
           by rewrite filter_app, description_not_foreign, IH2.
    + rewrite filter_cons_False by congruence. split.
      * by apply sublist_inserts_l.
      * rewrite filter_app, (classify_recognized g group' line ls Hp Hc), IH2.
        rewrite filter_cons_False; [done|]. intros [Hpass _]. congruence.
  - simpl in H. rewrite Hg in H. simpl in H. rewrite Hc in H. simpl in H.
    rewrite data_lines_returns in H. simpl in H. injection H as <-.
    apply classify_data_start in Hc. simpl before_data. rewrite Hc.
    split; [apply sublist_nil_l|]. apply tail_not_foreign.
  - simpl in H. rewrite Hg in H. simpl in H. by rewrite Hc in H.
Qed.

(** ** The data portion *)

Lemma round64_not_nan (s : bool) (x : ratio) : round64 s x <> S754_nan.
Proof.
  unfold round64. destruct (_ =? 0); [done|]. by destruct (_ && _).
Qed.

Lemma dtoa_fixed_nan (n : Z) (x : spec_float) : dtoa_fixed n x = DgNan -> x = S754_nan.
Proof.
  destruct x as [s|s| |s m e]; simpl; try done.
  unfold digits_of. by destruct (round_half_even _).
Qed.

Lemma float_of_formatted_nan (x : spec_float) :
  float_of_formatted x = S754_nan -> x = S754_nan.
Proof.
  unfold float_of_formatted, float_of_digits.
  destruct (dtoa_fixed PRECISION x) as [| | |neg D q] eqn:E; try done.
  - intros _. by apply dtoa_fixed_nan in E.
  - intros H. by apply round64_not_nan in H.
Qed.

Lemma clean_float_nan (x : spec_float) (msg : text) :
  clean_float x = Raise (ValueError msg) -> x = S754_nan.
Proof.
  unfold clean_float, bind.
  destruct (int_of_float (float_of_formatted x)) as [n|e] eqn:E.
  - by destruct (float_eq_int _ _).
  - intros [= ->]. apply float_of_formatted_nan.
    by destruct (float_of_formatted x).
Qed.

Lemma try_body_skips (d : datum) :
  mentions_inf_or_nan d = false ->
  (exists msg, try_body d = Raise (ValueError msg)) <-> skips d = true.
Proof.
  intros Hm. unfold skips. rewrite Hm. simpl. split.
  - intros [msg' H]. destruct d as [x|n|s|x t]; simpl in H; try done.
    + apply clean_float_nan in H as ->. by vm_compute in Hm.
    + by apply clean_float_nan in H as ->.
  - destruct d as [x|n|s|x t]; try done. destruct x; try done. intros _.
    eexists. reflexivity.
Qed.

Lemma clean_loop_dropped (en todo : entry) (acc : list item) :
  existsb skips todo = true -> exists m, clean_loop en todo acc = ([m], Ok []).
Proof.
  revert acc. induction todo as [|d todo IH]; intros acc H; [done|].
  rewrite clean_loop_cons. destruct (mentions_inf_or_nan d) eqn:Hm; [eauto|].
  simpl in H. pose proof (try_body_skips d Hm) as Hd.
  destruct (try_body d) as [it|e] eqn:E.
  - apply IH. destruct (skips d); [|done].
    destruct Hd as [_ Hd]. by destruct Hd.
  - destruct (try_body_raises _ _ E) as [-> | ->]; [simpl; eauto|].
    simpl. apply IH. destruct (skips d); [|done].
    destruct Hd as [_ Hd]. by destruct Hd.
Qed.

Lemma escape_no_newline (q c : ascii) : q = QUOTE \/ q = DQUOTE -> NL ∉ escape_char q c.
Proof.
  intros [-> | ->]; destruct c as [[] [] [] [] [] [] [] []]; vm_compute;
    intros H; repeat (apply elem_of_cons in H as [H|H]; [discriminate H|]); inversion H.
Qed.

Lemma repr_str_no_newline (t : text) : NL ∉ repr_str t.
Proof.
  unfold repr_str.
  set (q := if member QUOTE t && negb (member DQUOTE t) then DQUOTE else QUOTE).
  assert (Hq : q = QUOTE \/ q = DQUOTE) by (unfold q; destruct (_ && _); auto).
  intros H. apply elem_of_cons in H as [H|H]; [by destruct Hq as [-> | ->]|].
  apply elem_of_app in H as [H|H].
  - apply elem_of_concat in H as (l & Hl & Hin). apply elem_of_map in Hin as (c & -> & _).
    by apply escape_no_newline in Hl.
  - apply list_elem_of_singleton in H. by destruct Hq as [-> | ->].
Qed.

Lemma numeric_no_newline (t : text) : numeric t -> NL ∉ t.
Proof. intros H Hin. rewrite Forall_forall in H. by apply H in Hin. Qed.

Lemma repr_item_no_newline (i : item) : NL ∉ repr_item i.
Proof.
  destruct i; simpl; [apply repr_str_no_newline|].
  apply numeric_no_newline, numeric_str_of_Z.
Qed.

Lemma join_no_newline (parts : list text) :
  Forall (fun p => NL ∉ p) parts -> NL ∉ join (str ", ") parts.
Proof.
  induction 1 as [|p parts Hp Hparts IH]; simpl; [by inversion 1|].
  destruct parts as [|p' parts]; [done|].
  intros H. apply elem_of_app in H as [H|H]; [done|].
  do 2 (apply elem_of_cons in H as [H|H]; [discriminate H|]). done.
Qed.

Lemma clean_line_no_newline (acc : list item) : NL ∉ remove_chars (str_of_items acc).
Proof.
  unfold remove_chars, remove_chars_of. intros H. apply list_elem_of_filter in H as [_ H].
  unfold str_of_items in H.
  apply elem_of_app in H as [H|H].
  { repeat (apply elem_of_cons in H as [H|H]; [discriminate H|]). inversion H. }
  apply elem_of_app in H as [H|H].
  - revert H. apply join_no_newline. apply Forall_forall. intros p Hp.
    apply elem_of_map in Hp as (i & -> & _). apply repr_item_no_newline.
  - repeat (apply elem_of_cons in H as [H|H]; [discriminate H|]). inversion H.
Qed.

Lemma clean_loop_kept (en todo : entry) (acc : list item) :
  existsb skips todo = false ->
  exists t, clean_loop en todo acc = ([], Ok (t ++ [NL])) /\ NL ∉ t.
Proof.
  revert acc. induction todo as [|d todo IH]; intros acc H.
  { simpl. eexists. split; [done|]. apply clean_line_no_newline. }
  rewrite clean_loop_cons. simpl in H. apply orb_false_iff in H as [Hd Htodo].
  assert (Hm : mentions_inf_or_nan d = false).
  { unfold skips in Hd. by apply orb_false_iff in Hd as [? _]. }
  rewrite Hm. pose proof (try_body_skips d Hm) as Hs.
  destruct (try_body d) as [it|e] eqn:E; [by apply IH|].
  destruct (try_body_raises _ _ E) as [-> | ->].
  - destruct Hs as [Hs _]. rewrite Hs in Hd; [done|eauto].
  - simpl. by apply IH.
Qed.

Lemma entry_line_dropped (en : entry) : dropped en = true -> entry_line en = [].
Proof.
  intros H. destruct (clean_loop_dropped en en [] H) as [m Hm].
  unfold entry_line, clean_entry. by rewrite Hm.
Qed.

Lemma entry_line_kept (en : entry) :
  dropped en = false -> exists t, entry_line en = t ++ [NL] /\ NL ∉ t.
Proof.
  intros H. destruct (clean_loop_kept en en [] H) as (t & Ht & Hnl).
  exists t. unfold entry_line, clean_entry. by rewrite Ht.
Qed.


Lemma enumerate_from_map {A B : Type} (f : Z * A -> B) (l : list A) (i : Z) :
  enumerate_from i (map f (enumerate_from i l)) =
  map (fun q => (fst q, f q)) (enumerate_from i l).
Proof.
  revert i. induction l as [|a l IH]; intros i; simpl; [done|]. by rewrite IH.
Qed.

Lemma data_of_Graph_init (now description : text) (datasets : list group_input) :
  data_of (Graph_init now description datasets) =
  concat (map (fun p : Z * group_input =>
            concat (map (fun q : Z * set_input =>
                      target_line (fst p) (fst q)
                      :: (str "@type " ++ snd (fst (snd q)) ++ [NL])
                      :: map entry_line (snd (snd q)) ++ [END_LINE])
                    (enumerate (snd (snd p)))))
          (enumerate datasets)).
Proof.
  unfold data_of. simpl data. rewrite map_map. f_equal. apply map_ext.
  intros [G_i [G_label sets]]. unfold group_lines. simpl.
  unfold enumerate. rewrite enumerate_from_map, map_map. f_equal. apply map_ext.
  by intros [S_i [[S_label datatype] entries]].
Qed.



Example data_example :
  data_lines (Graph_init (str "now") [] two_sets) =
  Ok [str "@target G0.S0" ++ [NL]; str "@type xy" ++ [NL]; str "0.1 2" ++ [NL]; END_LINE;
      str "@target G0.S1" ++ [NL]; str "@type xy" ++ [NL]; str "3 4" ++ [NL]; END_LINE].
Proof. vm_compute. reflexivity. Qed.

(** ** Lines the graph writes, as the scan reads them *)

Lemma digits_uint (d : uint) : Forall (fun c => is_digit c = true) (chars_of_uint d).
Proof. induction d; simpl; constructor; auto. Qed.

Lemma uint_of_chars_of_uint (d : uint) (after_digit : bool) :
  d <> Nil \/ after_digit = true -> uint_of_chars after_digit (chars_of_uint d) = Some d.
Proof.
  revert after_digit. induction d; intros b Hb;
    try (simpl; rewrite IHd by (by right); reflexivity).
  destruct Hb as [Hb | ->]; [done|reflexivity].
Qed.

(** The numeral of a non-negative integer: digits, and [int] reads it back. *)
Lemma str_of_Z_nonneg (n : Z) :
  0 <= n ->
  exists d, str_of_Z n = chars_of_uint d /\ d <> Nil /\ Z.of_uint d = n.
Proof.
  intros Hn. unfold str_of_Z. destruct n as [|p|p]; [..|lia].
  - by exists (D0 Nil).
  - exists (Pos.to_uint p). split; [done|]. split; [apply Unsigned.to_uint_nonnil|].
    exact (DecimalZ.of_to (Z.pos p)).
Qed.

Lemma str_of_Z_digits (n : Z) :
  0 <= n -> Forall (fun c => is_digit c = true) (str_of_Z n) /\ str_of_Z n <> [].
Proof.
  intros Hn. destruct (str_of_Z_nonneg n Hn) as (d & -> & Hd & _).
  split; [apply digits_uint|]. by destruct d.
Qed.

Lemma py_int_numeral (n : Z) : 0 <= n -> py_int (str_of_Z n) = Some n.
Proof.
  intros Hn. destruct (str_of_Z_digits n Hn) as [Hd Hne].
  destruct (str_of_Z_nonneg n Hn) as (d & E & Hnil & Hof).
  unfold py_int. rewrite strip_digits by done. rewrite E in *.
  destruct (chars_of_uint d) as [|c s] eqn:Ec; [done|].
  destruct (digit_not_sign c) as [-> ->]; [by inversion Hd|].
  rewrite <- Ec, uint_of_chars_of_uint by (by left). simpl. by rewrite Hof.
Qed.

Lemma strip_numeral_line (ds : text) :
  Forall (fun c => is_digit c = true) ds -> ds <> [] -> strip (ds ++ [NL]) = ds.
Proof.
  intros Hd Hne. unfold strip, rstrip.
  destruct ds as [|c ds]; [done|].
  rewrite <- app_comm_cons, lstrip_digit by (by inversion Hd).
  rewrite app_comm_cons, reverse_app. simpl.
  assert (Hr : Forall (fun c => is_digit c = true) (reverse (c :: ds))) by (by apply Forall_reverse).
  destruct (reverse (c :: ds)) as [|b r] eqn:Er.
  - apply (f_equal reverse) in Er. rewrite reverse_involutive in Er. done.
  - rewrite lstrip_digit by (by inversion Hr). rewrite <- Er. apply reverse_involutive.
Qed.

Lemma py_int_numeral_line (n : Z) : 0 <= n -> py_int (str_of_Z n ++ [NL]) = Some n.
Proof.
  intros Hn. pose proof (py_int_numeral n Hn) as H.
  destruct (str_of_Z_digits n Hn) as [Hd Hne].
  unfold py_int in *. rewrite strip_numeral_line by done.
  by rewrite strip_digits in H.
Qed.

Lemma take_digits_run (ds rest : text) :
  Forall (fun c => is_digit c = true) ds ->
  match rest with c :: _ => is_digit c = false | [] => True end ->
  take_digits (ds ++ rest) = ds.
Proof.
  intros Hd Hrest. induction Hd as [|b ds Hb _ IH].
  - destruct rest as [|b rest]; [done|]. cbn [app take_digits]. by rewrite Hrest.
  - cbn [app take_digits]. by rewrite Hb, IH.
Qed.

Lemma first_digits_run (ds rest : text) :
  Forall (fun c => is_digit c = true) ds -> ds <> [] ->
  match rest with c :: _ => is_digit c = false | [] => True end ->
  first_digits (ds ++ rest) = ds.
Proof.
  intros Hd Hne Hrest. destruct Hd as [|c ds Hc Hds]; [done|].
  cbn [app first_digits]. rewrite Hc. f_equal. by apply take_digits_run.
Qed.

(** The set index that the scan reads from a legend line the graph wrote. *)
Lemma legend_line_index (s : Z) (S_label : text) :
  0 <= s -> int_of_text (first_digits (legend_line s S_label)) = Ok s.
Proof.
  intros Hs. destruct (str_of_Z_digits s Hs) as [Hd Hne].
  unfold legend_line.
  assert (E : forall r, first_digits (str "@    s" ++ r) = first_digits r) by reflexivity.
  rewrite E, first_digits_run; [|done|done|reflexivity].
  unfold int_of_text. by rewrite py_int_numeral.
Qed.

Lemma legend_here_at (s : text) : legend_here s = true -> exists r, s = AT :: r.
Proof.
  unfold legend_here. intros H. apply andb_true_iff in H as [H _].
  apply startswith_prefix in H as [r ->]. eauto.
Qed.

(** A line without an at sign matches no pattern. *)
Lemma no_at_not_legend (s : text) : AT ∉ s -> is_legend s = false.
Proof.
  induction s as [|c s IH]; intros H; [done|].
  cbn [is_legend]. rewrite IH by (intros Hin; apply H; by right).
  rewrite orb_false_r. destruct (legend_here (c :: s)) eqn:E; [|done].
  apply legend_here_at in E as [r [= -> _]]. destruct H. left.
Qed.

Lemma no_at_remove_all_fuel (fuel : nat) (s : text) :
  AT ∉ s -> remove_all_fuel fuel GROUP_START s = s.
Proof.
  revert s. induction fuel as [|fuel IH]; intros s H; [done|].
  destruct s as [|c s]; [done|]. cbn [remove_all_fuel].
  assert (Hc : c <> AT) by (intros ->; apply H; left).
  assert (Hs : startswith GROUP_START (c :: s) = false).
  { cbn [startswith GROUP_START]. apply andb_false_iff. left.
    apply ascii_eqb_false. intros <-. by apply Hc. }
  rewrite Hs, IH; [done|]. intros Hin. apply H. by right.
Qed.

Lemma digits_no_at (ds : text) : Forall (fun c => is_digit c = true) ds -> AT ∉ ds ++ [NL].
Proof.
  intros Hd Hin. apply elem_of_app in Hin as [Hin|Hin].
  - rewrite Forall_forall in Hd. by apply Hd in Hin.
  - by apply list_elem_of_singleton in Hin.
Qed.

Lemma remove_all_fuel_S (fuel : nat) (old : text) (c : ascii) (s : text) :
  remove_all_fuel (S fuel) old (c :: s) =
  if startswith old (c :: s) then remove_all_fuel fuel old (drop (length old) (c :: s))
  else c :: remove_all_fuel fuel old s.
Proof. reflexivity. Qed.

Lemma remove_all_group_start (s : text) :
  AT ∉ s -> remove_all GROUP_START (GROUP_START ++ s) = s.
Proof.
  intros H. unfold remove_all.
  change (GROUP_START ++ s) with (AT :: str "with g" ++ s) at 1 2.
  cbn [length]. rewrite remove_all_fuel_S.
  change (AT :: str "with g" ++ s) with (GROUP_START ++ s).
  rewrite startswith_app, drop_app_length. by apply no_at_remove_all_fuel.
Qed.

(** The scan reads the group from a group line the graph wrote. *)
Lemma group_line_group (group : option Z) (G_i : Z) :
  0 <= G_i -> current_group group (group_line G_i) = Ok (Some G_i).
Proof.
  intros HG. destruct (str_of_Z_digits G_i HG) as [Hd Hne].
  unfold current_group, group_line.
  change (str "@with g") with GROUP_START. rewrite startswith_app.
  assert (E : remove_all GROUP_START (GROUP_START ++ str_of_Z G_i ++ [NL]) = str_of_Z G_i ++ [NL]).
  { apply remove_all_group_start. by apply digits_no_at. }
  rewrite E. unfold int_of_text. by rewrite py_int_numeral_line.
Qed.

(** ** Lines and files *)

Lemma single_line_cons (c : ascii) (l : text) :
  single_line (c :: l) = true ->
  (c = NL /\ l = []) \/ (c <> NL /\ single_line l = true).
Proof.
  cbn [single_line]. destruct l as [|b l].
  - intros H. apply ascii_eqb_true in H. auto.
  - intros H. apply andb_true_iff in H as [H1 H2]. right. split; [|done].
    apply negb_true_iff, ascii_eqb_false in H1. done.
Qed.

Lemma lines_of_single_line (l rest : text) :
  single_line l = true -> lines_of (l ++ rest) = l :: lines_of rest.
Proof.
  induction l as [|c l IH]; [done|]. intros H.
  apply single_line_cons in H as [[-> ->] | [Hc Hl]].
  - cbn [app lines_of]. by rewrite ascii_eqb_refl.
  - cbn [app lines_of]. rewrite IH by done.
    apply ascii_eqb_false in Hc. by rewrite Hc.
Qed.

Lemma lines_of_concat (ls : list text) :
  Forall (fun l => l = [] \/ single_line l = true) ls ->
  lines_of (concat ls) = filter (fun l : text => l <> []) ls.
Proof.
  induction 1 as [|l ls Hl _ IH]; [done|]. cbn [concat].
  destruct Hl as [-> | Hl].
  - rewrite filter_cons_False by (by intros H). done.
  - rewrite lines_of_single_line, IH by done.
    rewrite filter_cons_True; [done|]. by destruct l.
Qed.

Lemma lines_of_lines (s : text) :
  s = [] \/ last s = Some NL ->
  Forall (fun l => single_line l = true) (lines_of s).
Proof.
  induction s as [|c s IH]; intros H; [constructor|].
  destruct H as [H|H]; [done|].
  cbn [lines_of]. destruct (ascii_eqb c NL) eqn:Ec.
  - constructor; [done|]. apply IH.
    destruct s as [|b s]; [by left|by right].
  - destruct s as [|b s].
    { cbn in H. injection H as ->. by rewrite ascii_eqb_refl in Ec. }
    assert (Hrest : Forall (fun l => single_line l = true) (lines_of (b :: s))).
    { apply IH. by right. }
    destruct (lines_of (b :: s)) as [|l ls] eqn:E.
    + cbn [lines_of] in E. destruct (ascii_eqb b NL); [done|].
      by destruct (lines_of s).
    + inversion Hrest as [|? ? Hl Hls]; subst. constructor; [|done].
      cbn [single_line]. destruct l as [|b' l']; [done|]. by rewrite Ec, Hl.
Qed.

Lemma lines_of_elem (s l : text) (c : ascii) : l ∈ lines_of s -> c ∈ l -> c ∈ s.
Proof.
  revert l. induction s as [|b s IH]; intros l Hl Hc; [by inversion Hl|].
  cbn [lines_of] in Hl. destruct (ascii_eqb b NL) eqn:Eb.
  - apply ascii_eqb_true in Eb as ->.
    apply elem_of_cons in Hl as [-> | Hl].
    + apply list_elem_of_singleton in Hc as ->. left.
    + right. by apply (IH l).
  - destruct (lines_of s) as [|l' ls] eqn:E.
    + apply list_elem_of_singleton in Hl as ->.
      apply list_elem_of_singleton in Hc as ->. left.
    + apply elem_of_cons in Hl as [-> | Hl].
      * apply elem_of_cons in Hc as [-> | Hc]; [left|right]. apply (IH l'); [left|done].
      * right. apply (IH l); [by right|done].
Qed.

(** *** Universal newlines *)

Lemma translate_no_cr (after_cr : bool) (s : text) : CR ∉ translate_newlines after_cr s.
Proof.
  revert after_cr. induction s as [|c s IH]; intros after_cr; [by inversion 1|].
  cbn [translate_newlines]. destruct (ascii_eqb c CR) eqn:Ec.
  - intros H. apply elem_of_cons in H as [H | H]; [discriminate H|by apply IH in H].
  - assert (Hc : CR <> c) by (intros <-; by rewrite ascii_eqb_refl in Ec).
    destruct (ascii_eqb c NL); [destruct after_cr|]; intros H;
      try apply elem_of_cons in H as [H | H]; try done; by apply IH in H.
Qed.

(** A text without CR is read as it is. *)
Lemma translate_app (l rest : text) :
  CR ∉ l -> translate_newlines false (l ++ rest) = l ++ translate_newlines false rest.
Proof.
  induction l as [|c l IH]; [done|]. intros H.
  assert (Hc : ascii_eqb c CR = false) by (apply ascii_eqb_false; intros ->; apply H; left).
  assert (Hl : CR ∉ l) by (intros Hin; apply H; by right).
  cbn [app translate_newlines]. rewrite Hc, IH by done.
  destruct (ascii_eqb c NL) eqn:En; [|done]. by apply ascii_eqb_true in En as ->.
Qed.

Lemma translate_id (s : text) : CR ∉ s -> universal_newlines s = s.
Proof.
  intros H. unfold universal_newlines. rewrite <- (app_nil_r s) at 1.
  rewrite translate_app by done. cbn [translate_newlines]. apply app_nil_r.
Qed.

Lemma translate_nil (s : text) : translate_newlines false s = [] -> s = [].
Proof.
  destruct s as [|c s]; [done|]. cbn [translate_newlines].
  destruct (ascii_eqb c CR); [done|]. by destruct (ascii_eqb c NL).
Qed.

(** A file that ends with LF is read as a text that ends with LF. *)
Lemma translate_last (after_cr : bool) (s : text) :
  s = [] \/ last s = Some NL ->
  translate_newlines after_cr s = [] \/ last (translate_newlines after_cr s) = Some NL.
Proof.
  revert after_cr. induction s as [|c s IH]; intros after_cr H; [by left|].
  assert (Hs : s = [] \/ last s = Some NL).
  { destruct H as [H|H]; [done|]. destruct s as [|b s]; [by left|by right]. }
  assert (Hlast : forall (a : ascii) (t : text),
            t = [] \/ last t = Some NL -> (t = [] -> a = NL) -> last (a :: t) = Some NL).
  { intros a t [-> | Ht] Ha; [by rewrite Ha|]. by destruct t. }
  cbn [translate_newlines]. destruct (ascii_eqb c CR) eqn:Ec.
  - right. apply Hlast; [by apply IH|done].
  - destruct (ascii_eqb c NL) eqn:En.
    + destruct after_cr; [by apply IH|]. right. apply Hlast; [by apply IH|done].
    + right. apply Hlast; [by apply IH|]. intros Ht. apply translate_nil in Ht as ->.
      destruct H as [H|H]; [done|]. cbn in H. injection H as ->.
      by rewrite ascii_eqb_refl in En.
Qed.

Lemma one_line_single (l : text) : one_line l = true -> single_line l = true.
Proof. unfold one_line. intros H. by apply andb_true_iff in H as [? _]. Qed.

Lemma member_elem (c : ascii) (s : text) : member c s = true <-> c ∈ s.
Proof.
  unfold member. rewrite existsb_exists. split.
  - intros (x & Hx & E). apply ascii_eqb_true in E as ->. by apply list_elem_of_In.
  - intros H. exists c. split; [by apply list_elem_of_In|apply ascii_eqb_refl].
Qed.

Lemma one_line_no_cr (l : text) : one_line l = true -> CR ∉ l.
Proof.
  unfold one_line. intros H. apply andb_true_iff in H as [_ H].
  apply negb_true_iff in H. intros Hin. apply member_elem in Hin. congruence.
Qed.

Lemma one_line_intro (l : text) : single_line l = true -> CR ∉ l -> one_line l = true.
Proof.
  intros Hs Hc. unfold one_line. rewrite Hs. cbn [andb]. apply negb_true_iff.
  destruct (member CR l) eqn:E; [|done]. by apply member_elem in E.
Qed.

Lemma readlines_no_cr (content l : text) : l ∈ readlines content -> CR ∉ l.
Proof.
  unfold readlines. intros Hl Hc. apply (lines_of_elem _ _ _ Hl) in Hc.
  by apply translate_no_cr in Hc.
Qed.

(** The lines of a file that ends with a newline. *)
Lemma readlines_lines (content : text) :
  content = [] \/ last content = Some NL ->
  Forall (fun l => single_line l = true) (readlines content).
Proof. intros H. apply lines_of_lines. by apply translate_last. Qed.

Lemma readlines_one_line (content : text) :
  content = [] \/ last content = Some NL ->
  Forall (fun l => one_line l = true) (readlines content).
Proof.
  intros H. pose proof (readlines_lines content H) as Hs. rewrite Forall_forall in Hs.
  apply Forall_forall. intros l Hl. apply one_line_intro; [by apply Hs|].
  by apply (readlines_no_cr content).
Qed.

Lemma readlines_single_line (l rest : text) :
  single_line l = true -> CR ∉ l -> readlines (l ++ rest) = l :: readlines rest.
Proof.
  intros Hs Hc. unfold readlines, universal_newlines.
  rewrite translate_app by done. by apply lines_of_single_line.
Qed.

Lemma no_cr_concat (ls : list text) : Forall (fun l => CR ∉ l) ls -> CR ∉ concat ls.
Proof.
  induction 1 as [|l ls Hl _ IH]; [by inversion 1|]. cbn [concat]. intros H.
  apply elem_of_app in H as [H | H]; done.
Qed.

(** Reading back what was written: the empty strings are gone. *)
Lemma readlines_concat (ls : list text) :
  Forall (fun l => l = [] \/ single_line l = true) ls ->
  Forall (fun l => CR ∉ l) ls ->
  readlines (concat ls) = filter (fun l : text => l <> []) ls.
Proof.
  intros Hs Hc. unfold readlines. rewrite translate_id by (by apply no_cr_concat).
  by apply lines_of_concat.
Qed.

(** ** A line cannot start a group and hold a legend *)

Lemma legend_here_letter (s : text) : legend_here s = true -> LETTER_L ∈ s.
Proof.
  unfold legend_here. intros H. apply andb_true_iff in H as [H1 H2].
  apply startswith_prefix in H1 as [r ->].
  change (drop 6 (str "@    s" ++ r)) with r in H2.
  destruct r as [|c r]; [done|]. apply andb_true_iff in H2 as [_ H2].
  apply startswith_prefix in H2 as [r' ->].
  do 8 right. left.
Qed.

Lemma is_legend_letter (line : text) : is_legend line = true -> LETTER_L ∈ line.
Proof.
  induction line as [|c line IH]; [done|]. cbn [is_legend].
  intros H. apply orb_true_iff in H as [H|H]; [by apply legend_here_letter|].
  right. auto.
Qed.

Lemma remove_all_fuel_keeps (c : ascii) (fuel : nat) (s : text) :
  c ∉ GROUP_START -> (length s <= fuel)%nat -> c ∈ s ->
  c ∈ remove_all_fuel fuel GROUP_START s.
Proof.
  intros Hc. revert s. induction fuel as [|fuel IH]; intros s Hlen Hin.
  { destruct s; [done|simpl in Hlen; lia]. }
  destruct s as [|b s]; [done|]. rewrite remove_all_fuel_S.
  destruct (startswith GROUP_START (b :: s)) eqn:E.
  - apply startswith_prefix in E as [r E]. rewrite E in *.
    rewrite drop_app_length. apply IH.
    + rewrite length_app in Hlen. change (length GROUP_START) with 7%nat in Hlen. lia.
    + apply elem_of_app in Hin as [Hin|Hin]; done.
  - apply elem_of_cons in Hin as [->|Hin]; [left|right].
    apply IH; [simpl in Hlen; lia|done].
Qed.

Lemma uint_of_chars_chars (s : text) (after_digit : bool) (d : uint) :
  uint_of_chars after_digit s = Some d -> Forall (fun c => int_char c = true) s.
Proof.
  revert after_digit d. induction s as [|c s IH]; intros b d H; [constructor|].
  cbn [uint_of_chars] in H. destruct (is_digit c) eqn:Ec.
  - destruct (uint_of_chars true s) as [d'|] eqn:E; [|done].
    constructor; [|by eapply IH]. unfold int_char. rewrite Ec. by rewrite orb_true_r.
  - destruct (ascii_eqb c UNDERSCORE && b) eqn:Eu; [|done].
    destruct s as [|c' s]; [done|]. destruct (is_digit c'); [|done].
    apply andb_true_iff in Eu as [Eu _].
    constructor; [|by eapply IH]. unfold int_char. rewrite Eu. by rewrite orb_true_r.
Qed.

Lemma lstrip_elem (c : ascii) (s : text) : c ∈ s -> is_space c = true \/ c ∈ lstrip s.
Proof.
  induction s as [|b s IH]; intros H; [by inversion H|].
  cbn [lstrip]. destruct (is_space b) eqn:E; [|by right].
  apply elem_of_cons in H as [->|H]; [by left|auto].
Qed.

Lemma strip_elem (c : ascii) (s : text) : c ∈ s -> is_space c = true \/ c ∈ strip s.
Proof.
  intros H. unfold strip, rstrip. apply lstrip_elem in H as [H|H]; [by left|].
  apply elem_of_reverse, lstrip_elem in H as [H|H]; [by left|].
  right. by apply elem_of_reverse.
Qed.

Lemma py_int_chars (s : text) (n : Z) :
  py_int s = Some n -> Forall (fun c => int_char c = true) s.
Proof.
  unfold py_int. intros H.
  assert (Hs : Forall (fun c => int_char c = true) (strip s)).
  { destruct (strip s) as [|c s'] eqn:E; [done|].
    destruct (ascii_eqb c MINUS) eqn:Em.
    { destruct (uint_of_chars false s') eqn:Eu; [|done].
      constructor; [|by eapply uint_of_chars_chars].
      unfold int_char. rewrite Em. by rewrite !orb_true_r. }
    destruct (ascii_eqb c PLUS) eqn:Ep.
    { destruct (uint_of_chars false s') eqn:Eu; [|done].
      constructor; [|by eapply uint_of_chars_chars].
      unfold int_char. rewrite Ep. by rewrite !orb_true_r. }
    destruct (uint_of_chars false (c :: s')) eqn:Eu; [|done].
    by eapply uint_of_chars_chars. }
  apply Forall_forall. intros c Hc. apply strip_elem in Hc as [Hc|Hc].
  - unfold int_char. by rewrite Hc.
  - rewrite Forall_forall in Hs. auto.
Qed.

(** [int] fails on what is left of a line with a legend, so such a line
    does not start a group without raising. *)
Lemma legend_not_group (group group' : option Z) (line : text) :
  is_legend line = true -> current_group group line = Ok group' ->
  startswith GROUP_START line = false.
Proof.
  intros Hleg. unfold current_group.
  destruct (startswith GROUP_START line) eqn:E; [|done].
  unfold int_of_text. destruct (py_int _) as [n|] eqn:En; [|done].
  apply py_int_chars in En. rewrite Forall_forall in En.
  assert (Hin : LETTER_L ∈ remove_all GROUP_START line).
  { apply remove_all_fuel_keeps; [|done|by apply is_legend_letter].
    intros H. repeat (apply elem_of_cons in H as [H|H]; [discriminate H|]). inversion H. }
  apply En in Hin. discriminate Hin.
Qed.

(** ** Graphs that write tidy lines *)

Lemma make_description_eq (now description : text) :
  make_description now description = time_stamp_line now :: description_body description.
Proof. reflexivity. Qed.

Lemma time_stamp_line_is (now : text) : is_time_stamp (time_stamp_line now) = true.
Proof. reflexivity. Qed.

Lemma description_lines_start (now description : text) :
  Forall (fun l => startswith DESCRIPTION_START l = true) (make_description now description).
Proof.
  unfold make_description. repeat (constructor; [reflexivity|]).
  apply Forall_app. split; [|by repeat constructor].
  apply Forall_forall. intros l Hl. apply elem_of_map in Hl as (l' & -> & _). reflexivity.
Qed.

Lemma forallb_elem {A : Type} (f : A -> bool) (l : list A) (x : A) :
  forallb f l = true -> x ∈ l -> f x = true.
Proof. rewrite forallb_forall. intros H Hx. apply H. by apply list_elem_of_In. Qed.

Lemma tidy_description_line (g : Graph) (l : text) :
  tidy g = true -> l ∈ description g -> one_line l = true /\ is_legend l = false.
Proof.
  unfold tidy. intros H Hl. repeat (apply andb_true_iff in H as [H ?]).
  apply (forallb_elem _ _ l) in H; [|done]. apply andb_true_iff in H as [Hsingle Hnot].
  by apply negb_true_iff in Hnot.
Qed.

Lemma tidy_subtitle_line (g : Graph) (group : option Z) (l : text) :
  tidy g = true -> subtitle_of g group = Some l ->
  one_line l = true /\ is_legend l = false.
Proof.
  unfold tidy. intros H Hl. repeat (apply andb_true_iff in H as [H ?]).
  destruct group as [G|]; [|done]. apply dict_get_elem in Hl.
  match goal with Hs : forallb _ (subtitle g) = true |- _ =>
    apply (forallb_elem _ _ (G, l)) in Hs; [|done];
    apply andb_true_iff in Hs as [Hsingle Hnot] end.
  by apply negb_true_iff in Hnot.
Qed.

Lemma tidy_legend_line (g : Graph) (G s : Z) (l : text) :
  tidy g = true -> legend_of g G s = Some l -> one_line l = true.
Proof.
  unfold tidy, legend_of. intros H Hl. repeat (apply andb_true_iff in H as [H ?]).
  destruct (dict_get (legend g) G) as [sets|] eqn:E; [|done].
  apply dict_get_elem in E. apply dict_get_elem in Hl.
  match goal with Hs : forallb _ (legend g) = true |- _ =>
    apply (forallb_elem _ _ (G, sets)) in Hs; [|done];
    apply (forallb_elem _ _ (s, l)) in Hs; [|done] end.
  done.
Qed.

Lemma tidy_description (g : Graph) (l : text) :
  tidy g = true -> l ∈ description g -> single_line l = true /\ is_legend l = false.
Proof.
  intros H Hl. destruct (tidy_description_line g l H Hl). split; [by apply one_line_single|done].
Qed.

Lemma tidy_subtitle (g : Graph) (group : option Z) (l : text) :
  tidy g = true -> subtitle_of g group = Some l ->
  single_line l = true /\ is_legend l = false.
Proof.
  intros H Hl. destruct (tidy_subtitle_line g group l H Hl).
  split; [by apply one_line_single|done].
Qed.

Lemma tidy_legend (g : Graph) (G s : Z) (l : text) :
  tidy g = true -> legend_of g G s = Some l -> single_line l = true.
Proof. intros H Hl. by apply one_line_single, (tidy_legend_line g G s). Qed.

(** ** Prefixes that exclude each other *)

Ltac other_prefix H := apply startswith_prefix in H as [? ->]; reflexivity.

Lemma description_prefix (l : text) :
  startswith DESCRIPTION_START l = true ->
  startswith GROUP_START l = false /\ startswith SUBTITLE_START l = false /\
  startswith TARGET_START l = false.
Proof. intros H. repeat split; other_prefix H. Qed.

Lemma subtitle_prefix (l : text) :
  startswith SUBTITLE_START l = true ->
  startswith GROUP_START l = false /\ startswith TARGET_START l = false /\
  startswith DESCRIPTION_START l = false /\ startswith PAGE_SIZE_START l = false.
Proof. intros H. repeat split; other_prefix H. Qed.

Lemma target_prefix (l : text) :
  startswith TARGET_START l = true -> startswith GROUP_START l = false.
Proof. intros H. other_prefix H. Qed.

Lemma group_prefix (l : text) :
  startswith GROUP_START l = true ->
  startswith SUBTITLE_START l = false /\ startswith TARGET_START l = false /\
  startswith DESCRIPTION_START l = false /\ startswith PAGE_SIZE_START l = false.
Proof. intros H. repeat split; other_prefix H. Qed.

Lemma digit_not_u (c : ascii) : is_digit c = true -> ascii_eqb "u" c = false.
Proof. all_chars c. Qed.

Lemma legend_line_prefix (s : Z) (S_label : text) :
  0 <= s ->
  let l := legend_line s S_label in
  startswith GROUP_START l = false /\ startswith SUBTITLE_START l = false /\
  startswith TARGET_START l = false /\ startswith DESCRIPTION_START l = false /\
  startswith PAGE_SIZE_START l = false.
Proof.
  intros Hs l. repeat split; try reflexivity.
  destruct (str_of_Z_digits s Hs) as [Hd Hne]. unfold l, legend_line.
  destruct (str_of_Z s) as [|c ds]; [done|].
  change (startswith SUBTITLE_START (str "@    s" ++ (c :: ds) ++ str " legend  " ++ DQUOTE :: S_label ++ [DQUOTE; NL]))
    with (ascii_eqb "u" c && startswith (str "btitle " ++ [DQUOTE]) (ds ++ str " legend  " ++ DQUOTE :: S_label ++ [DQUOTE; NL])).
  rewrite digit_not_u; [done|by inversion Hd].
Qed.

(** ** Scanning what a run has written *)

Lemma scan_header_cons (g : Graph) (group group' : option Z) (line : text)
    (ls rest : list text) :
  current_group group line = Ok group' ->
  classify g group' line = Ok (Append ls) ->
  scan_header g group (line :: rest) =
  bind (scan_header g group' rest) (fun r => Ok (fst (fst r), ls ++ snd (fst r), snd r)).
Proof. intros Hg Hc. cbn [scan_header]. rewrite Hg. cbn [bind]. by rewrite Hc. Qed.

Lemma scan_header_app (g : Graph) (a b : list text) (group : option Z) :
  scan_header g group (a ++ b) =
  bind (scan_header g group a) (fun r =>
    if snd r then Ok r
    else bind (scan_header g (fst (fst r)) b) (fun r' =>
           Ok (fst (fst r'), snd (fst r) ++ snd (fst r'), snd r'))).
Proof.
  revert group. induction a as [|line a IH]; intros group.
  - cbn. by destruct (scan_header g group b) as [[[gp E] found]|].
  - cbn [app scan_header]. destruct (current_group group line) as [group'|]; [|done].
    cbn [bind]. destruct (classify g group' line) as [[ls|]|]; [|done|done].
    cbn [bind]. rewrite IH.
    destruct (scan_header g group' a) as [[[gp E] found]|]; [|done]. cbn.
    destruct found; [done|].
    destruct (scan_header g gp b) as [[[gp' E'] found']|]; [|done]. cbn.
    by rewrite app_assoc.
Qed.

(** Lines that the scan drops without changing the group. *)
Lemma scan_header_dropped (g : Graph) (group : option Z) (ls : list text) :
  Forall (fun l => current_group group l = Ok group /\ classify g group l = Ok (Append [])) ls ->
  scan_header g group ls = Ok (group, [], false).
Proof.
  induction 1 as [|l ls [Hg Hc] _ IH]; [done|].
  rewrite (scan_header_cons g group group l [] ls Hg Hc), IH. done.
Qed.

Lemma supplied_legend_line (datasets : list group_input) (G s : Z) (l : text) :
  supplied_legend datasets G s = Some l ->
  0 <= s /\ exists S_label, l = legend_line s S_label.
Proof.
  unfold supplied_legend. destruct (nth_Z datasets G) as [[G_label sets]|]; [|done].
  destruct (nth_Z sets s) as [[[S_label datatype] entries]|] eqn:E; [|done].
  intros [= <-]. split; [|eauto].
  unfold nth_Z in E. destruct (s <? 0) eqn:Es; [done|]. by apply Z.ltb_ge in Es.
Qed.

Lemma supplied_subtitle_line (datasets : list group_input) (G : Z) (l : text) :
  supplied_subtitle datasets G = Some l -> startswith SUBTITLE_START l = true.
Proof.
  unfold supplied_subtitle. destruct (nth_Z datasets G) as [[G_label sets]|]; [|done].
  by intros [= <-].
Qed.

Lemma without_time_stamps_description (now description : text) :
  without_time_stamps (make_description now description)
  = without_time_stamps (description_body description).
Proof.
  rewrite make_description_eq. unfold without_time_stamps.
  rewrite filter_cons_False; [done|]. by rewrite time_stamp_line_is.
Qed.

Lemma without_time_stamps_cons (l : text) (a b : list text) :
  without_time_stamps a = without_time_stamps b ->
  without_time_stamps (l :: a) = without_time_stamps (l :: b).
Proof.
  unfold without_time_stamps. intros H. destruct (decide (is_time_stamp l = false)).
  - rewrite !filter_cons_True by done. by rewrite H.
  - by rewrite !filter_cons_False.
Qed.

Lemma scan_header_kept (g : Graph) (group : option Z) (ls : list text) :
  Forall (fun l => current_group group l = Ok group /\ classify g group l = Ok (Append [l])) ls ->
  scan_header g group ls = Ok (group, ls, false).
Proof.
  induction 1 as [|l ls [Hg Hc] _ IH]; [done|].
  rewrite (scan_header_cons g group group l [l] ls Hg Hc), IH. done.
Qed.

Lemma data_start_group (group : option Z) (line : text) :
  data_start line = true -> current_group group line = Ok group.
Proof.
  unfold data_start. intros H. apply andb_true_iff in H as [_ H].
  apply current_group_other. by apply target_prefix.
Qed.

Lemma enumerate_from_elem {A : Type} (l : list A) (i k : Z) (a : A) :
  (k, a) ∈ enumerate_from i l -> i <= k /\ nth_Z l (k - i) = Some a.
Proof.
  revert i. induction l as [|b l IH]; intros i H; [by inversion H|].
  cbn [enumerate_from] in H. apply elem_of_cons in H as [[= -> ->]|H].
  - split; [lia|]. unfold nth_Z. by rewrite Z.sub_diag.
  - apply IH in H as [Hk Hn]. split; [lia|].
    unfold nth_Z in *. destruct (k - (i + 1) <? 0) eqn:E; [done|]. apply Z.ltb_ge in E.
    replace (k - i <? 0) with false by (symmetry; apply Z.ltb_ge; lia).
    by replace (Z.to_nat (k - i)) with (S (Z.to_nat (k - (i + 1)))) by lia.
Qed.

Lemma dict_get_enumerate_elem {A V : Type} (h : Z * A -> V) (l : list A) (k : Z) (v : V) :
  (k, v) ∈ map (fun p => (fst p, h p)) (enumerate l) ->
  0 <= k /\ dict_get (map (fun p => (fst p, h p)) (enumerate l)) k = Some v.
Proof.
  intros H. apply elem_of_map in H as ([k' a] & [= -> ->] & H).
  apply enumerate_from_elem in H as [Hk Hn]. split; [done|].
  rewrite dict_get_enumerate. rewrite Z.sub_0_r in Hn. by rewrite Hn.
Qed.

Lemma single_line_intro (t : text) : NL ∉ t -> single_line (t ++ [NL]) = true.
Proof.
  induction t as [|c t IH]; intros H; [done|].
  cbn [app single_line]. rewrite IH by (intros Hin; apply H; by right).
  assert (Hc : ascii_eqb c NL = false).
  { apply ascii_eqb_false. intros ->. apply H. left. }
  rewrite Hc. by destruct (t ++ [NL]) eqn:E; [destruct t|].
Qed.

Lemma numeric_single_line (pre t : text) :
  NL ∉ pre -> numeric t -> single_line (pre ++ t ++ [NL]) = true.
Proof.
  intros Hpre Ht. rewrite app_assoc. apply single_line_intro.
  intros H. apply elem_of_app in H as [H|H]; [done|]. by apply numeric_no_newline in H.
Qed.

Lemma group_line_single (G_i : Z) : single_line (group_line G_i) = true.
Proof.
  apply numeric_single_line; [|apply numeric_str_of_Z].
  intros H. repeat (apply elem_of_cons in H as [H|H]; [discriminate H|]). inversion H.
Qed.

Lemma numeric_no_at (t : text) : numeric t -> AT ∉ t.
Proof. intros H Hin. rewrite Forall_forall in H. by apply H in Hin. Qed.

Lemma group_line_classify (g : Graph) (group : option Z) (G_i : Z) :
  classify g group (group_line G_i) = Ok (Append [group_line G_i]).
Proof.
  assert (Hleg : is_legend (group_line G_i) = false).
  { change (is_legend (group_line G_i)) with (is_legend (str_of_Z G_i ++ [NL])).
    apply no_at_not_legend. intros H. apply elem_of_app in H as [H|H].
    - by apply numeric_no_at in H; [|apply numeric_str_of_Z].
    - by apply list_elem_of_singleton in H. }
  unfold classify. rewrite Hleg.
  change (startswith SUBTITLE_START (group_line G_i)) with false.
  change (startswith TARGET_START (group_line G_i)) with false.
  change (startswith DESCRIPTION_START (group_line G_i)) with false.
  change (startswith PAGE_SIZE_START (group_line G_i)) with false.
  by rewrite andb_false_r.
Qed.

Section Rerun.

Variables (desc : text) (datasets : list group_input) (now1 now2 : text).

Local Abbreviation g1 := (Graph_init now1 desc datasets).
Local Abbreviation g2 := (Graph_init now2 desc datasets).

Hypothesis Htidy1 : tidy g1 = true.
Hypothesis Htidy2 : tidy g2 = true.

Lemma classify_own_legend (G s : Z) (leg : text) :
  legend_of g2 G s = Some leg ->
  current_group (Some G) leg = Ok (Some G) /\
  classify g2 (Some G) leg = Ok (Append [leg]).
Proof.
  intros Hleg. pose proof Hleg as Hl. rewrite legend_of_Graph_init in Hl.
  apply supplied_legend_line in Hl as (Hs & S_label & ->).
  destruct (legend_line_prefix s S_label Hs) as (Hg & Hsub & Ht & Hd & Hp).
  split; [by apply current_group_other|].
  unfold classify. destruct (is_legend (legend_line s S_label)).
  - rewrite legend_line_index by done. cbn [bind]. by rewrite Hleg.
  - rewrite Hsub, Ht, Hd, Hp. by rewrite andb_false_r.
Qed.

Lemma classify_own_subtitle (group : option Z) (sub : text) :
  subtitle_of g2 group = Some sub ->
  current_group group sub = Ok group /\
  classify g2 group sub = Ok (Append [sub]).
Proof.
  intros Hsub. destruct (tidy_subtitle g2 group sub Htidy2 Hsub) as [_ Hleg].
  assert (Hstart : startswith SUBTITLE_START sub = true).
  { destruct group as [G|]; [|done]. rewrite subtitle_of_Graph_init in Hsub.
    by apply supplied_subtitle_line in Hsub. }
  destruct (subtitle_prefix sub Hstart) as (Hg & _).
  split; [by apply current_group_other|].
  unfold classify. by rewrite Hleg, Hstart, Hsub.
Qed.

Lemma rescan_description (group : option Z) :
  scan_header g2 group (description g1) = Ok (group, [], false).
Proof.
  apply scan_header_dropped. apply Forall_forall. intros l Hl.
  destruct (tidy_description g1 l Htidy1 Hl) as [_ Hleg].
  pose proof (description_lines_start now1 desc) as Hd.
  rewrite Forall_forall in Hd. specialize (Hd l Hl).
  destruct (description_prefix l Hd) as (Hg & Hs & Ht).
  split; [by apply current_group_other|].
  unfold classify. by rewrite Hleg, Hs, Ht, Hd.
Qed.

Lemma legend_of_same (G s : Z) : legend_of g2 G s = legend_of g1 G s.
Proof. by rewrite !legend_of_Graph_init. Qed.

Lemma subtitle_of_same (group : option Z) : subtitle_of g2 group = subtitle_of g1 group.
Proof. destruct group; [|done]. by rewrite !subtitle_of_Graph_init. Qed.

(** What the first run appends for a line is, for the second run, a
    piece of file that gives what the second run appends for that line. *)
Lemma rescan_line (group group' : option Z) (line : text) (ls1 : list text) :
  single_line line = true ->
  current_group group line = Ok group' ->
  classify g1 group' line = Ok (Append ls1) ->
  exists ls2,
    classify g2 group' line = Ok (Append ls2) /\
    scan_header g2 group ls1 = Ok (group', ls2, false) /\
    Forall (fun l => single_line l = true) ls1 /\
    without_time_stamps ls1 = without_time_stamps ls2.
Proof.
  intros Hsingle Hgroup Hclass. unfold classify in *.
  remember (startswith PAGE_SIZE_START line) as page eqn:Hpage.
  destruct (is_legend line) eqn:Hleg.
  { pose proof (legend_not_group _ _ _ Hleg Hgroup) as Hstart.
    rewrite current_group_other in Hgroup by done. injection Hgroup as <-.
    destruct group as [G|]; [|done].
    destruct (int_of_text (first_digits line)) as [s|]; [|done].
    cbn [bind] in *. injection Hclass as <-. rewrite legend_of_same.
    eexists. split; [done|].
    destruct (legend_of g1 G s) as [leg|] eqn:El; simpl (option_list _).
    - rewrite <- legend_of_same in El.
      destruct (classify_own_legend G s leg El) as [Hg Hc].
      rewrite (scan_header_cons g2 (Some G) (Some G) leg [leg] [] Hg Hc).
      split; [done|]. split; [|done]. constructor; [|done].
      rewrite legend_of_same in El. by apply (tidy_legend g1 G s).
    - done. }
  destruct (startswith SUBTITLE_START line) eqn:Hsub.
  { destruct (subtitle_prefix line Hsub) as (Hstart & _).
    rewrite current_group_other in Hgroup by done. injection Hgroup as <-.
    injection Hclass as <-. rewrite subtitle_of_same.
    eexists. split; [done|].
    destruct (subtitle_of g1 group) as [sub|] eqn:Es; simpl (option_list _).
    - rewrite <- subtitle_of_same in Es.
      destruct (classify_own_subtitle group sub Es) as [Hg Hc].
      rewrite (scan_header_cons g2 group group sub [sub] [] Hg Hc).
      split; [done|]. split; [|done]. constructor; [|done].
      rewrite subtitle_of_same in Es. by apply (tidy_subtitle g1 group).
    - done. }
  destruct (startswith TARGET_START line) eqn:Htar; [done|].
  destruct (startswith DESCRIPTION_START line) eqn:Hdes.
  { destruct (description_prefix line Hdes) as (Hstart & _).
    rewrite current_group_other in Hgroup by done. injection Hgroup as <-.
    injection Hclass as <-. by exists []. }
  injection Hclass as <-.
  change (is_nil (description g1)) with false.
  change (is_nil (description g2)) with false.
change (negb false) with true. rewrite !andb_true_l.
  eexists. split; [done|].
  assert (Hc : classify g2 group' line =
               Ok (Append (line :: if page then description g2 else []))).
  { unfold classify. by rewrite Hleg, Hsub, Htar, Hdes, <- Hpage. }
  rewrite (scan_header_cons g2 group group' line _ _ Hgroup Hc).
  clear Hpage Hc. destruct page.
  - rewrite rescan_description. cbn [bind fst snd]. rewrite app_nil_r.
    split; [done|]. split.
    + constructor; [done|]. apply Forall_forall. intros l Hl.
      by apply (tidy_description g1 l Htidy1).
    + apply without_time_stamps_cons.
      apply (eq_trans (without_time_stamps_description now1 desc)).
      symmetry. apply without_time_stamps_description.
  - cbn [scan_header bind fst snd]. rewrite app_nil_r.
    split; [done|]. split; [|done]. by constructor.
Qed.

(** The second run reads the header the first run wrote as the first run
    read the header it was given. *)
Lemma rescan (pre : list text) (group gp : option Z) (E1 : list text) (found : bool) :
  Forall (fun l => single_line l = true) pre ->
  scan_header g1 group pre = Ok (gp, E1, found) ->
  exists E2,
    scan_header g2 group pre = Ok (gp, E2, found) /\
    scan_header g2 group E1 = Ok (gp, E2, false) /\
    Forall (fun l => single_line l = true) E1 /\
    without_time_stamps E1 = without_time_stamps E2.
Proof.
  intros Hpre. revert group gp E1 found.
  induction Hpre as [|line pre Hline _ IH]; intros group gp E1 found H.
  { injection H as <- <- <-. by exists []. }
  cbn [scan_header] in H.
  destruct (current_group group line) as [group'|] eqn:Hg; [|done]. cbn [bind] in H.
  destruct (classify g1 group' line) as [[ls1|]|] eqn:Hc; [|..|done]; cbn [bind] in H.
  - destruct (scan_header g1 group' pre) as [[[gp' E1'] found']|] eqn:Hs; [|done].
    cbn in H. injection H as <- <- <-.
    destruct (IH _ _ _ _ Hs) as (E2' & H1 & H2 & H3 & H4).
    destruct (rescan_line group group' line ls1 Hline Hg Hc) as (ls2 & L1 & L2 & L3 & L4).
    exists (ls2 ++ E2'). split; [|split; [|split]].
    + by rewrite (scan_header_cons g2 group group' line ls2 pre Hg L1), H1.
    + rewrite scan_header_app, L2. cbn. by rewrite H2.
    + by apply Forall_app.
    + unfold without_time_stamps in *. by rewrite !filter_app, L4, H4.
  - injection H as <- <- <-. apply classify_data_start in Hc.
    rewrite data_start_group in Hg by done. injection Hg as <-.
    exists []. split; [|done].
    cbn [scan_header]. rewrite data_start_group by done. cbn [bind].
    apply (classify_data_start g2 group) in Hc. by rewrite Hc.
Qed.

(** The label block of one group, as the second run reads it. *)
Lemma rescan_block (group : option Z) (G_i : Z) (sub : text) :
  (G_i, sub) ∈ subtitle g2 ->
  let block := group_line G_i :: sub :: map snd (default [] (dict_get (legend g2) G_i)) in
  scan_header g2 group block = Ok (Some G_i, block, false).
Proof.
  intros Hin block. subst block. cbn [subtitle Graph_init] in Hin.
  apply dict_get_enumerate_elem in Hin as [HG Hsub].
  rewrite (scan_header_cons g2 group (Some G_i) (group_line G_i) [group_line G_i]);
    [|by apply group_line_group|apply group_line_classify].
  rewrite scan_header_kept; [done|].
  constructor; [by apply classify_own_subtitle|].
  apply Forall_forall. intros leg Hleg. apply elem_of_map in Hleg as ([s leg'] & -> & Hleg).
  cbn [snd]. apply (classify_own_legend G_i s). unfold legend_of. cbn [legend Graph_init] in *.
  rewrite (dict_get_enumerate (fun p : Z * group_input => map make_legend (enumerate (snd (snd p))))) in *.
  destruct (nth_Z datasets G_i) as [[G_label sets]|]; [|by inversion Hleg].
  cbn in Hleg |- *.
  assert (Hm : map make_legend (enumerate sets) =
               map (fun p => (fst p, snd (make_legend p))) (enumerate sets)).
  { apply map_ext. by intros [i [[l d] e]]. }
  change (enumerate_from 0 sets) with (enumerate sets) in *.
  rewrite Hm in *. by apply dict_get_enumerate_elem in Hleg as [_ Hleg].
Qed.

Lemma rescan_blocks (entries : list (Z * text)) (group : option Z) :
  Forall (fun p => p ∈ subtitle g2) entries ->
  let blocks := concat (map (fun p : Z * text =>
                  group_line (fst p) :: snd p ::
                  map snd (default [] (dict_get (legend g2) (fst p)))) entries) in
  exists gp, scan_header g2 group blocks = Ok (gp, blocks, false).
Proof.
  intros H. cbv zeta. revert group.
  induction H as [|[G_i sub] entries Hp _ IH]; intros group.
  { by exists group. }
  rewrite map_cons, concat_cons. cbn [fst snd].
  destruct (IH (Some G_i)) as [gp Hgp]. exists gp.
  rewrite scan_header_app, (rescan_block group G_i sub Hp). cbn [bind fst snd].
  by rewrite Hgp.
Qed.

Lemma rescan_labels (group : option Z) :
  exists gp, scan_header g2 group (label_lines g1) = Ok (gp, label_lines g2, false).
Proof.
  change (label_lines g1) with (label_lines g2).
  apply rescan_blocks. by apply Forall_forall.
Qed.

End Rerun.

(** ** The data portion and the label block as lines of a file *)

Lemma merge_header (g : Graph) (original : list text) :
  merge g original =
  bind (scan_header g None original) (fun r =>
    Ok (snd (fst r) ++ (if snd r then [] else label_lines g) ++ data_of g)).
Proof.
  unfold merge. rewrite <- (app_nil_r original) at 1. rewrite scan_scan_header.
  destruct (scan_header g None original) as [[[gp E] found]|]; [|done]. cbn [bind fst snd].
  destruct found; [done|]. cbn [scan]. rewrite data_lines_returns. done.
Qed.

(** A character is not in a given literal. *)
Ltac not_in_literal H :=
  repeat (apply elem_of_cons in H as [H|H]; [discriminate H|]); inversion H.

Lemma target_line_not_legend (G S : Z) : is_legend (target_line G S) = false.
Proof.
  change (is_legend (target_line G S))
    with (is_legend (str_of_Z G ++ str ".S" ++ str_of_Z S ++ [NL])).
  apply no_at_not_legend. intros H.
  apply elem_of_app in H as [H|H]; [by apply numeric_no_at in H; [|apply numeric_str_of_Z]|].
  do 2 (apply elem_of_cons in H as [H|H]; [discriminate H|]).
  apply elem_of_app in H as [H|H]; [by apply numeric_no_at in H; [|apply numeric_str_of_Z]|].
  by apply list_elem_of_singleton in H.
Qed.

Lemma target_line_data_start (G S : Z) : data_start (target_line G S) = true.
Proof. unfold data_start. by rewrite target_line_not_legend. Qed.

Lemma target_line_single (G S : Z) : single_line (target_line G S) = true.
Proof.
  unfold target_line. rewrite !app_assoc. apply single_line_intro.
  intros H.
  apply elem_of_app in H as [H|H]; [|by apply numeric_no_newline in H; [|apply numeric_str_of_Z]].
  apply elem_of_app in H as [H|H]; [|not_in_literal H].
  apply elem_of_app in H as [H|H]; [|by apply numeric_no_newline in H; [|apply numeric_str_of_Z]].
  not_in_literal H.
Qed.

(** The data portion, when it is not empty, starts with a target line. *)
Lemma group_lines_head (gr : Group) :
  group_lines gr = [] \/ exists G S rest, group_lines gr = target_line G S :: rest.
Proof.
  unfold group_lines. destruct (enumerate (group_sets gr)) as [|p ps]; [by left|].
  right. cbn [map concat]. unfold block_lines at 1. cbn [app]. eauto.
Qed.

Lemma data_of_head (g : Graph) :
  data_of g = [] \/ exists G S rest, data_of g = target_line G S :: rest.
Proof.
  unfold data_of. induction (data g) as [|gr grs IH]; [by left|].
  cbn [map concat]. destruct (group_lines_head gr) as [-> | (G & S & rest & ->)].
  - done.
  - right. cbn [app]. eauto.
Qed.

Lemma entry_line_proper (en : entry) : entry_line en = [] \/ single_line (entry_line en) = true.
Proof.
  destruct (dropped en) eqn:E.
  - left. by apply entry_line_dropped.
  - right. destruct (entry_line_kept en E) as (t & -> & Ht). by apply single_line_intro.
Qed.

Lemma enumerate_from_snd {A : Type} (l : list A) (i : Z) (p : Z * A) :
  p ∈ enumerate_from i l -> snd p ∈ l.
Proof.
  revert i. induction l as [|a l IH]; intros i H; [by inversion H|].
  cbn [enumerate_from] in H. apply elem_of_cons in H as [->|H]; [left|right; eauto].
Qed.

Lemma Forall_concat_intro {A : Type} (P : A -> Prop) (ls : list (list A)) :
  Forall (Forall P) ls -> Forall P (concat ls).
Proof.
  induction 1 as [|l ls Hl _ IH]; [constructor|]. cbn [concat]. by apply Forall_app.
Qed.

Lemma data_of_proper (g : Graph) :
  tidy g = true -> Forall (fun l => l = [] \/ single_line l = true) (data_of g).
Proof.
  unfold tidy. intros H. repeat (apply andb_true_iff in H as [H ?]).
  unfold data_of. apply Forall_concat_intro, Forall_forall.
  intros ls Hls. apply elem_of_map in Hls as (gr & -> & Hgr).
  unfold group_lines. apply Forall_concat_intro, Forall_forall.
  intros ls Hls. apply elem_of_map in Hls as (p & -> & Hp).
  apply enumerate_from_snd in Hp.
  unfold block_lines. constructor; [right; apply target_line_single|].
  apply Forall_app. split; [|by repeat constructor].
  unfold set_lines. constructor.
  - right. match goal with Hd : forallb _ (data g) = true |- _ =>
      apply (forallb_elem _ _ gr) in Hd; [|done];
      apply (forallb_elem _ _ (snd p)) in Hd; [|done];
      by apply one_line_single end.
  - apply Forall_forall. intros l Hl. apply elem_of_map in Hl as (en & -> & _).
    apply entry_line_proper.
Qed.

(** *** No line that is written holds a CR *)

Lemma escape_no_cr (q c : ascii) : q = QUOTE \/ q = DQUOTE -> CR ∉ escape_char q c.
Proof.
  intros [-> | ->]; destruct c as [[] [] [] [] [] [] [] []]; vm_compute;
    intros H; repeat (apply elem_of_cons in H as [H|H]; [discriminate H|]); inversion H.
Qed.

Lemma repr_str_no_cr (t : text) : CR ∉ repr_str t.
Proof.
  unfold repr_str.
  set (q := if member QUOTE t && negb (member DQUOTE t) then DQUOTE else QUOTE).
  assert (Hq : q = QUOTE \/ q = DQUOTE) by (unfold q; destruct (_ && _); auto).
  intros H. apply elem_of_cons in H as [H|H]; [by destruct Hq as [-> | ->]|].
  apply elem_of_app in H as [H|H].
  - apply elem_of_concat in H as (l & Hl & Hin). apply elem_of_map in Hin as (c & -> & _).
    by apply escape_no_cr in Hl.
  - apply list_elem_of_singleton in H. by destruct Hq as [-> | ->].
Qed.

Lemma numeric_no_cr (t : text) : numeric t -> CR ∉ t.
Proof. intros H Hin. rewrite Forall_forall in H. by apply H in Hin. Qed.

Lemma repr_item_no_cr (i : item) : CR ∉ repr_item i.
Proof.
  destruct i; simpl; [apply repr_str_no_cr|].
  apply numeric_no_cr, numeric_str_of_Z.
Qed.

Lemma join_no_cr (parts : list text) :
  Forall (fun p => CR ∉ p) parts -> CR ∉ join (str ", ") parts.
Proof.
  induction 1 as [|p parts Hp Hparts IH]; simpl; [by inversion 1|].
  destruct parts as [|p' parts]; [done|].
  intros H. apply elem_of_app in H as [H|H]; [done|].
  do 2 (apply elem_of_cons in H as [H|H]; [discriminate H|]). done.
Qed.

Lemma clean_line_no_cr (acc : list item) : CR ∉ remove_chars (str_of_items acc).
Proof.
  unfold remove_chars, remove_chars_of. intros H. apply list_elem_of_filter in H as [_ H].
  unfold str_of_items in H.
  apply elem_of_app in H as [H|H].
  { repeat (apply elem_of_cons in H as [H|H]; [discriminate H|]). inversion H. }
  apply elem_of_app in H as [H|H].
  - revert H. apply join_no_cr. apply Forall_forall. intros p Hp.
    apply elem_of_map in Hp as (i & -> & _). apply repr_item_no_cr.
  - repeat (apply elem_of_cons in H as [H|H]; [discriminate H|]). inversion H.
Qed.

Lemma clean_loop_no_cr (en todo : entry) (acc : list item) :
  existsb skips todo = false ->
  exists t, clean_loop en todo acc = ([], Ok (t ++ [NL])) /\ CR ∉ t.
Proof.
  revert acc. induction todo as [|d todo IH]; intros acc H.
  { simpl. eexists. split; [done|]. apply clean_line_no_cr. }
  rewrite clean_loop_cons. simpl in H. apply orb_false_iff in H as [Hd Htodo].
  assert (Hm : mentions_inf_or_nan d = false).
  { unfold skips in Hd. by apply orb_false_iff in Hd as [? _]. }
  rewrite Hm. pose proof (try_body_skips d Hm) as Hs.
  destruct (try_body d) as [it|e] eqn:E; [by apply IH|].
  destruct (try_body_raises _ _ E) as [-> | ->].
  - destruct Hs as [Hs _]. rewrite Hs in Hd; [done|eauto].
  - simpl. by apply IH.
Qed.

Lemma entry_line_no_cr (en : entry) : CR ∉ entry_line en.
Proof.
  destruct (dropped en) eqn:E.
  - rewrite entry_line_dropped by done. by inversion 1.
  - destruct (clean_loop_no_cr en en [] E) as (t & Ht & Hcr).
    unfold entry_line, clean_entry. rewrite Ht. cbn [snd]. intros H.
    apply elem_of_app in H as [H|H]; [done|].
    apply list_elem_of_singleton in H. discriminate H.
Qed.

Lemma target_line_no_cr (G S : Z) : CR ∉ target_line G S.
Proof.
  unfold target_line. intros H.
  apply elem_of_app in H as [H|H]; [not_in_literal H|].
  apply elem_of_app in H as [H|H]; [by apply numeric_no_cr in H; [|apply numeric_str_of_Z]|].
  apply elem_of_app in H as [H|H]; [not_in_literal H|].
  apply elem_of_app in H as [H|H]; [by apply numeric_no_cr in H; [|apply numeric_str_of_Z]|].
  not_in_literal H.
Qed.

Lemma group_line_no_cr (G_i : Z) : CR ∉ group_line G_i.
Proof.
  unfold group_line. intros H.
  apply elem_of_app in H as [H|H]; [not_in_literal H|].
  apply elem_of_app in H as [H|H]; [by apply numeric_no_cr in H; [|apply numeric_str_of_Z]|].
  not_in_literal H.
Qed.

Lemma Forall_concat_elim {A : Type} (P : A -> Prop) (ls : list (list A)) :
  (forall l, l ∈ ls -> Forall P l) -> Forall P (concat ls).
Proof. intros H. apply Forall_concat_intro, Forall_forall. exact H. Qed.

Lemma data_of_no_cr (g : Graph) :
  tidy g = true -> Forall (fun l => CR ∉ l) (data_of g).
Proof.
  unfold tidy. intros H. repeat (apply andb_true_iff in H as [H ?]).
  unfold data_of. apply Forall_concat_intro, Forall_forall.
  intros ls Hls. apply elem_of_map in Hls as (gr & -> & Hgr).
  unfold group_lines. apply Forall_concat_intro, Forall_forall.
  intros ls Hls. apply elem_of_map in Hls as (p & -> & Hp).
  apply enumerate_from_snd in Hp.
  unfold block_lines. constructor; [apply target_line_no_cr|].
  apply Forall_app. split.
  2:{ constructor; [|constructor]. intros Hc. not_in_literal Hc. }
  unfold set_lines. constructor.
  - match goal with Hd : forallb _ (data g) = true |- _ =>
      apply (forallb_elem _ _ gr) in Hd; [|done];
      apply (forallb_elem _ _ (snd p)) in Hd; [|done];
      by apply one_line_no_cr end.
  - apply Forall_forall. intros l Hl. apply elem_of_map in Hl as (en & -> & _).
    apply entry_line_no_cr.
Qed.

Lemma label_lines_single (g : Graph) :
  tidy g = true -> Forall (fun l => single_line l = true) (label_lines g).
Proof.
  intros Ht. unfold label_lines. apply Forall_concat_intro, Forall_forall.
  intros ls Hls. apply elem_of_map in Hls as ([G_i sub] & -> & Hp). cbn [fst snd].
  constructor; [apply group_line_single|]. constructor.
  - unfold tidy in Ht. repeat (apply andb_true_iff in Ht as [Ht ?]).
    match goal with Hs : forallb _ (subtitle g) = true |- _ =>
      apply (forallb_elem _ _ (G_i, sub)) in Hs; [|done];
      apply andb_true_iff in Hs as [Hs _]; by apply one_line_single end.
  - destruct (dict_get (legend g) G_i) as [sets|] eqn:E; [|constructor].
    apply Forall_forall. intros l Hl. apply elem_of_map in Hl as ([s leg] & -> & Hl).
    apply dict_get_elem in E. cbn [default] in Hl. cbn [snd].
    unfold tidy in Ht. repeat (apply andb_true_iff in Ht as [Ht ?]).
    match goal with Hs : forallb _ (legend g) = true |- _ =>
      apply (forallb_elem _ _ (G_i, sets)) in Hs; [|done];
      apply (forallb_elem _ _ (s, leg)) in Hs; [|done];
      by apply one_line_single end.
Qed.

Lemma label_lines_no_cr (g : Graph) :
  tidy g = true -> Forall (fun l => CR ∉ l) (label_lines g).
Proof.
  intros Ht. unfold label_lines. apply Forall_concat_intro, Forall_forall.
  intros ls Hls. apply elem_of_map in Hls as ([G_i sub] & -> & Hp). cbn [fst snd].
  constructor; [apply group_line_no_cr|]. constructor.
  - unfold tidy in Ht. repeat (apply andb_true_iff in Ht as [Ht ?]).
    match goal with Hs : forallb _ (subtitle g) = true |- _ =>
      apply (forallb_elem _ _ (G_i, sub)) in Hs; [|done];
      apply andb_true_iff in Hs as [Hs _]; by apply one_line_no_cr end.
  - destruct (dict_get (legend g) G_i) as [sets|] eqn:E; [|constructor].
    apply Forall_forall. intros l Hl. apply elem_of_map in Hl as ([s leg] & -> & Hl).
    apply dict_get_elem in E. cbn [default] in Hl. cbn [snd].
    unfold tidy in Ht. repeat (apply andb_true_iff in Ht as [Ht ?]).
    match goal with Hs : forallb _ (legend g) = true |- _ =>
      apply (forallb_elem _ _ (G_i, sets)) in Hs; [|done];
      apply (forallb_elem _ _ (s, leg)) in Hs; [|done];
      by apply one_line_no_cr end.
Qed.

(** ** Running the merge twice *)

Lemma single_line_nonempty (l : text) : single_line l = true -> l <> [].
Proof. by destruct l. Qed.

Lemma filter_nonempty_single (ls : list text) :
  Forall (fun l => single_line l = true) ls -> filter (fun l : text => l <> []) ls = ls.
Proof.
  induction 1 as [|l ls Hl _ IH]; [done|].
  rewrite filter_cons_True by (by apply single_line_nonempty). by rewrite IH.
Qed.

Lemma lines_eqb_refl (a : list text) : lines_eqb a a = true.
Proof.
  induction a as [|x a IH]; [done|]. cbn [lines_eqb]. rewrite IH.
  by rewrite (proj2 (text_eqb_eq x x) eq_refl).
Qed.

Lemma proper_weaken (ls : list text) :
  Forall (fun l => single_line l = true) ls ->
  Forall (fun l => l = [] \/ single_line l = true) ls.
Proof. intros H. eapply Forall_impl; [exact H|]. auto. Qed.

Lemma data_of_single (now desc : text) (datasets : list group_input) :
  tidy (Graph_init now desc datasets) = true ->
  no_tuple_dropped datasets = true ->
  Forall (fun l => single_line l = true) (data_of (Graph_init now desc datasets)).
Proof.
  intros Ht Hd. pose proof (data_of_proper _ Ht) as Hp.
  rewrite data_of_Graph_init in *.
  apply Forall_forall. intros l Hl. rewrite Forall_forall in Hp.
  destruct (Hp l Hl) as [-> | H]; [|done]. exfalso.
  apply elem_of_concat in Hl as (ls & Hl & Hls).
  apply elem_of_map in Hls as ([G_i [G_label sets]] & -> & HG).
  apply elem_of_concat in Hl as (ls & Hl & Hls).
  apply elem_of_map in Hls as ([S_i [[S_label datatype] entries]] & -> & HS).
  cbn [fst snd] in *.
  apply enumerate_from_snd in HG. apply enumerate_from_snd in HS. cbn [snd] in *.
  apply elem_of_cons in Hl as [Hl|Hl]; [by pose proof (target_line_single G_i S_i) as Hx; rewrite <- Hl in Hx|].
  apply elem_of_cons in Hl as [Hl|Hl]; [by destruct datatype|].
  apply elem_of_app in Hl as [Hl|Hl]; [|by apply list_elem_of_singleton in Hl].
  apply elem_of_map in Hl as (en & Hen & Hin).
  unfold no_tuple_dropped in Hd.
  apply (forallb_elem _ _ (G_label, sets)) in Hd; [|done]. cbn [snd] in Hd.
  apply (forallb_elem _ _ (S_label, datatype, entries)) in Hd; [|done]. cbn [snd] in Hd.
  apply (forallb_elem _ _ en) in Hd; [|done]. apply negb_true_iff in Hd.
  destruct (entry_line_kept en Hd) as (t & Ht' & _). rewrite Ht' in Hen. by destruct t.
Qed.

Lemma before_data_elem (original : list text) (l : text) :
  l ∈ before_data original -> l ∈ original.
Proof.
  induction original as [|line original IH]; [done|]. cbn [before_data].
  destruct (data_start line); [by inversion 1|].
  intros H. apply elem_of_cons in H as [-> | H]; [left|right; by apply IH].
Qed.

(** Where the lines that the scan appends come from: the file, or the
    description, legends and subtitles of the graph. *)
Lemma scan_header_lines (g : Graph) (todo : list text) (group gp : option Z)
    (E : list text) (found : bool) (l : text) :
  scan_header g group todo = Ok (gp, E, found) -> l ∈ E ->
  l ∈ before_data todo \/ l ∈ description g \/
  (exists G s, legend_of g G s = Some l) \/ (exists gp', subtitle_of g gp' = Some l).
Proof.
  revert group gp E found. induction todo as [|line todo IH]; intros group gp E found H Hl.
  { injection H as _ <- _. by inversion Hl. }
  cbn [scan_header] in H.
  destruct (current_group group line) as [group'|] eqn:Hg; [|done]. cbn [bind] in H.
  destruct (classify g group' line) as [[ls|]|] eqn:Hc; [| |done]; cbn [bind] in H.
  2:{ injection H as _ <- _. by inversion Hl. }
  destruct (scan_header g group' todo) as [[[gp1 E1] f1]|] eqn:Hs; [|done].
  cbn [bind fst snd] in H. injection H as _ <- _.
  assert (Hds : data_start line = false).
  { destruct (data_start line) eqn:Ed; [|done].
    apply (classify_data_start g group') in Ed. congruence. }
  cbn [before_data]. rewrite Hds.
  apply elem_of_app in Hl as [Hl | Hl].
  2:{ destruct (IH _ _ _ _ Hs Hl) as [H | H]; [left; by right|by right]. }
  remember (startswith PAGE_SIZE_START line) as page eqn:Hpage.
  remember (description g) as dsc eqn:Hdsc.
  unfold classify in Hc. rewrite <- Hpage, <- Hdsc in Hc.
  destruct (is_legend line).
  { destruct group' as [gi|]; [|done]. destruct (int_of_text _) as [s|]; [|done].
    cbn [bind] in Hc. injection Hc as <-.
    destruct (legend_of g gi s) as [leg|] eqn:El; [|by inversion Hl].
    apply list_elem_of_singleton in Hl as ->. right. right. left. eauto. }
  destruct (startswith SUBTITLE_START line).
  { injection Hc as <-.
    destruct (subtitle_of g group') as [sub|] eqn:Es; [|by inversion Hl].
    apply list_elem_of_singleton in Hl as ->. right. right. right. eauto. }
  destruct (startswith TARGET_START line); [done|].
  destruct (startswith DESCRIPTION_START line).
  { injection Hc as <-. by inversion Hl. }
  injection Hc as <-. apply elem_of_cons in Hl as [-> | Hl]; [left; left|].
  destruct (negb (is_nil dsc) && page); [|by inversion Hl].
  right. by left.
Qed.

Lemma scan_header_no_cr (g : Graph) (todo : list text) (group gp : option Z)
    (E : list text) (found : bool) :
  tidy g = true -> Forall (fun l => CR ∉ l) todo ->
  scan_header g group todo = Ok (gp, E, found) -> Forall (fun l => CR ∉ l) E.
Proof.
  intros Ht Htodo Hs. rewrite Forall_forall in Htodo. apply Forall_forall. intros l Hl.
  destruct (scan_header_lines _ _ _ _ _ _ _ Hs Hl)
    as [Hb | [Hd | [(G & s & Hg) | (gp' & Hg)]]].
  - by apply Htodo, before_data_elem.
  - by apply one_line_no_cr, (tidy_description_line g).
  - by apply one_line_no_cr, (tidy_legend_line g G s).
  - by apply one_line_no_cr, (tidy_subtitle_line g gp').
Qed.

(** The lines that a merge writes hold no CR, when those of the file and
    of the graph hold none. *)
Lemma merge_no_cr (g : Graph) (original out : list text) :
  tidy g = true -> Forall (fun l => CR ∉ l) original ->
  merge g original = Ok out -> Forall (fun l => CR ∉ l) out.
Proof.
  intros Ht Ho H. rewrite merge_header in H.
  destruct (scan_header g None original) as [[[gp E] found]|] eqn:Hs; [|done].
  cbn [bind fst snd] in H. injection H as <-.
  apply Forall_app. split; [by apply (scan_header_no_cr g original None gp E found)|].
  apply Forall_app. split; [|by apply data_of_no_cr].
  destruct found; [constructor|by apply label_lines_no_cr].
Qed.

Lemma one_line_Forall (ls : list text) :
  Forall (fun l => one_line l = true) ls ->
  Forall (fun l => single_line l = true) ls /\ Forall (fun l => CR ∉ l) ls.
Proof.
  intros H. split; (eapply Forall_impl; [exact H|]); intros l Hl;
    [by apply one_line_single|by apply one_line_no_cr].
Qed.

Lemma rerun_lines (desc now1 now2 : text) (datasets : list group_input)
    (original L1 : list text) :
  tidy (Graph_init now1 desc datasets) = true ->
  tidy (Graph_init now2 desc datasets) = true ->
  data_of (Graph_init now1 desc datasets) <> [] ->
  Forall (fun l => one_line l = true) original ->
  merge (Graph_init now1 desc datasets) original = Ok L1 ->
  exists L2,
    merge (Graph_init now2 desc datasets) original = Ok L2 /\
    merge (Graph_init now2 desc datasets) (readlines (concat L1)) = Ok L2 /\
    readlines (concat L1) = filter (fun l : text => l <> []) L1 /\
    readlines (concat L2) = filter (fun l : text => l <> []) L2 /\
    without_time_stamps (filter (fun l : text => l <> []) L1)
    = without_time_stamps (filter (fun l : text => l <> []) L2) /\
    (no_tuple_dropped datasets = true ->
     filter (fun l : text => l <> []) L1 = L1 /\ filter (fun l : text => l <> []) L2 = L2).
Proof.
  set (g1 := Graph_init now1 desc datasets). set (g2 := Graph_init now2 desc datasets).
  intros Ht1 Ht2 Hdata Hone H1.
  destruct (one_line_Forall original Hone) as [Horig Hocr].
  rewrite merge_header in H1.
  destruct (scan_header g1 None original) as [[[gp E1] found]|] eqn:Hs1; [|done].
  cbn [bind fst snd] in H1. injection H1 as <-.
  destruct (rescan desc datasets now1 now2 Ht1 Ht2 original None gp E1 found Horig Hs1)
    as (E2 & Hs2 & Hre & HE1 & Hts).
  fold g1 g2 in Hs2, Hre.
  pose proof (scan_header_no_cr g1 original None gp E1 found Ht1 Hocr Hs1) as HE1cr.
  pose proof (scan_header_no_cr g2 original None gp E2 found Ht2 Hocr Hs2) as HE2cr.
  set (lab := if found then [] else label_lines g1).
  set (dat := data_of g1).
  assert (Hlabcr : Forall (fun l => CR ∉ l) lab).
  { unfold lab. destruct found; [constructor|by apply label_lines_no_cr]. }
  assert (Hdatcr : Forall (fun l => CR ∉ l) dat) by (by apply data_of_no_cr).
  assert (Hlab : Forall (fun l => single_line l = true) lab).
  { unfold lab. destruct found; [constructor|by apply label_lines_single]. }
  assert (Hdat : Forall (fun l => l = [] \/ single_line l = true) dat)
    by (by apply data_of_proper).
  assert (HE2 : Forall (fun l => single_line l = true) E2).
  { assert (Hq : exists E, scan_header g2 None E = Ok (gp, E2, false) /\
                             Forall (fun l => single_line l = true) E) by eauto.
    destruct Hq as (E & HsE & HE).
    destruct (rescan desc datasets now2 now2 Ht2 Ht2 E None gp E2 false HE HsE)
      as (E2' & _ & _ & HE2 & _). done. }
  exists (E2 ++ lab ++ dat). split; [by rewrite merge_header, Hs2|].
  assert (Hfilter : forall E, Forall (fun l => single_line l = true) E ->
            filter (fun l : text => l <> []) (E ++ lab ++ dat)
            = E ++ lab ++ filter (fun l : text => l <> []) dat).
  { intros E HE. rewrite !filter_app.
    by rewrite (filter_nonempty_single E), (filter_nonempty_single lab). }
  assert (Hread : forall E, Forall (fun l => single_line l = true) E ->
            Forall (fun l => CR ∉ l) E ->
            readlines (concat (E ++ lab ++ dat))
            = filter (fun l : text => l <> []) (E ++ lab ++ dat)).
  { intros E HE HEcr. apply readlines_concat.
    - apply Forall_app. split; [by apply proper_weaken|].
      apply Forall_app. split; [by apply proper_weaken|done].
    - apply Forall_app. split; [done|]. by apply Forall_app. }
  split; [|split; [by apply Hread|split; [by apply Hread|split]]].
  - rewrite Hread, Hfilter by done.
    destruct (data_of_head g1) as [Hnil | (G & S & rest & Hhead)]; [done|].
    fold dat in Hhead. rewrite Hhead.
    rewrite filter_cons_True by (apply single_line_nonempty, target_line_single).
    unfold merge. rewrite app_assoc, scan_scan_header, scan_header_app, Hre.
    cbn [bind fst snd].
    assert (Hl : exists gp', scan_header g2 gp lab = Ok (gp', lab, false)).
    { unfold lab. destruct found; [by exists gp|].
      destruct (rescan_labels desc datasets now1 now2 Ht2 gp) as [gp' Hgp'].
      exists gp'. exact Hgp'. }
    destruct Hl as [gp' ->]. cbn [bind fst snd scan].
    rewrite data_start_group by apply target_line_data_start. cbn [bind].
    rewrite (proj2 (classify_data_start g2 gp' (target_line G S)))
      by apply target_line_data_start.
    cbn [bind]. rewrite data_lines_returns. cbn [bind app].
    by rewrite <- app_assoc, <- Hhead.
  - rewrite !Hfilter by done. unfold without_time_stamps in *.
    by rewrite !filter_app, Hts.
  - intros Hnd. pose proof (data_of_single now1 desc datasets Ht1 Hnd) as Hsingle.
    fold g1 in Hsingle. fold dat in Hsingle.
    rewrite !Hfilter by done. by rewrite filter_nonempty_single.
Qed.

Lemma ends_with_newline_last (content : text) :
  ends_with_newline content = true -> content = [] \/ last content = Some NL.
Proof.
  unfold ends_with_newline. destruct (last content) as [c|] eqn:E.
  - intros H. apply ascii_eqb_true in H as ->. by right.
  - intros _. left. by apply last_None.
Qed.

Lemma scan_header_single (g : Graph) (todo : list text) (group gp : option Z)
    (E : list text) (found : bool) :
  tidy g = true -> Forall (fun l => single_line l = true) todo ->
  scan_header g group todo = Ok (gp, E, found) -> Forall (fun l => single_line l = true) E.
Proof.
  intros Ht Htodo Hs. rewrite Forall_forall in Htodo. apply Forall_forall. intros l Hl.
  destruct (scan_header_lines _ _ _ _ _ _ _ Hs Hl)
    as [Hb | [Hd | [(G & s & Hg) | (gp' & Hg)]]].
  - by apply Htodo, before_data_elem.
  - by apply (tidy_description g).
  - by apply (tidy_legend g G s).
  - by apply (tidy_subtitle g gp').
Qed.

(** The lines that a merge writes are whole lines, the texts of the sets
    apart, which may be empty. *)
Lemma merge_proper (g : Graph) (original out : list text) :
  tidy g = true -> Forall (fun l => single_line l = true) original ->
  merge g original = Ok out -> Forall (fun l => l = [] \/ single_line l = true) out.
Proof.
  intros Ht Ho H. rewrite merge_header in H.
  destruct (scan_header g None original) as [[[gp E] found]|] eqn:Hs; [|done].
  cbn [bind fst snd] in H. injection H as <-.
  apply Forall_app. split.
  { by apply proper_weaken, (scan_header_single g original None gp E found). }
  apply Forall_app. split; [|by apply data_of_proper].
  destruct found; [constructor|by apply proper_weaken, label_lines_single].
Qed.

(** What is read back from the file that a merge has written. *)
Lemma merge_read_back (g : Graph) (original out : list text) :
  tidy g = true -> Forall (fun l => one_line l = true) original ->
  merge g original = Ok out ->
  readlines (concat out) = filter (fun l : text => l <> []) out.
Proof.
  intros Ht Hone H. destruct (one_line_Forall original Hone) as [Ho Hc].
  apply readlines_concat; [by apply (merge_proper g original)|by apply (merge_no_cr g original)].
Qed.

Lemma filter_comm {A : Type} (P Q : A -> Prop) `{!forall x, Decision (P x)}
    `{!forall x, Decision (Q x)} (l : list A) :
  filter P (filter Q l) = filter Q (filter P l).
Proof.
  induction l as [|x l IH]; [done|].
  destruct (decide (P x)), (decide (Q x));
    rewrite ?(filter_cons_True P), ?(filter_cons_False P), ?(filter_cons_True Q),
      ?(filter_cons_False Q), ?(filter_cons_True P), ?(filter_cons_False P) by done;
    by rewrite ?IH.
Qed.

Lemma filter_mono_sublist {A : Type} (P : A -> Prop) `{!forall x, Decision (P x)}
    (l k : list A) :
  l `sublist_of` k -> filter P l `sublist_of` filter P k.
Proof.
  induction 1 as [|x l k _ IH|x l k _ IH]; [done| |].
  - destruct (decide (P x)).
    + rewrite !filter_cons_True by done. by apply sublist_skip.
    + by rewrite !filter_cons_False by done.
  - destruct (decide (P x)).
    + rewrite filter_cons_True by done. by apply sublist_cons.
    + by rewrite filter_cons_False by done.
Qed.

Lemma Forall_filter_keep {A : Type} (P : A -> Prop) (Q : A -> Prop)
    `{!forall x, Decision (Q x)} (l : list A) :
  Forall P l -> Forall P (filter Q l).
Proof.
  intros HP. rewrite Forall_forall in HP. apply Forall_forall. intros x Hx.
  apply list_elem_of_filter in Hx as [_ Hx]. by apply HP.
Qed.

(** C2, as the code has it: when the file ends with a newline and the
    graph writes whole lines without a carriage return, the passthrough
    lines that come before the start of the data portion are lines of the
    file that is written, unmodified and in their order; and those of them
    that the graph does not write itself occur in that file exactly as
    often and in the same order as before. *)
Theorem passthrough_preserved (g : Graph) (template : text) (existing : option text)
    (out : outcome) :
  tidy g = true ->
  ends_with_newline (default template existing) = true ->
  create_file g template existing = Ok out ->
  filter (fun l => passthrough l = true)
    (before_data (readlines (default template existing)))
    `sublist_of` readlines (file_content out) /\
  filter (foreign g) (readlines (file_content out))
  = filter (foreign g) (before_data (readlines (default template existing))).
Proof.
  intros Ht He H. unfold create_file in H.
  set (original := readlines (default template existing)) in *.
  assert (Hone : Forall (fun l => one_line l = true) original).
  { apply readlines_one_line. by apply ends_with_newline_last. }
  destruct (merge g original) as [lines|] eqn:Hm; [|done].
  cbn [bind] in H. injection H as <-. cbn [file_content].
  rewrite (merge_read_back g original lines Ht Hone Hm).
  destruct (scan_passthrough g original None lines Hm) as [Hsub Hfor].
  assert (Hbd : Forall (fun l => single_line l = true) (before_data original)).
  { destruct (one_line_Forall original Hone) as [Ho _]. rewrite Forall_forall in Ho.
    apply Forall_forall. intros l Hl. by apply Ho, before_data_elem. }
  split.
  - rewrite <- (filter_nonempty_single (filter _ (before_data original)))
      by (by apply Forall_filter_keep).
    by apply filter_mono_sublist.
  - rewrite filter_comm, Hfor. apply filter_nonempty_single. by apply Forall_filter_keep.
Qed.

Lemma passthrough_preserved_witness :
  exists out,
    create_file (Graph_init (str "now") [] one_set) example_template None = Ok out /\
    filter (fun l => passthrough l = true)
      (before_data (readlines (default example_template None)))
      `sublist_of` readlines (file_content out) /\
    filter (foreign (Graph_init (str "now") [] one_set)) (readlines (file_content out))
    = filter (foreign (Graph_init (str "now") [] one_set))
        (before_data (readlines (default example_template None))).
Proof.
  destruct (create_file (Graph_init (str "now") [] one_set) example_template None)
    as [out|] eqn:E; [|vm_compute in E; discriminate E].
  exists out. split; [reflexivity|].
  assert (Ht : tidy (Graph_init (str "now") [] one_set) = true) by (vm_compute; reflexivity).
  assert (He : ends_with_newline (default example_template None) = true)
    by (vm_compute; reflexivity).
  exact (passthrough_preserved (Graph_init (str "now") [] one_set) example_template None out
           Ht He E).
Defined.

(** A passthrough line after the start of the data portion is lost: it is
    a line of the file before the run and not after it. *)
Lemma passthrough_after_data_lost :
  let zzz := str "zzz" ++ [NL] in
  let content := str "@target G0.S0" ++ [NL] ++ zzz in
  passthrough zzz = true /\ zzz ∈ readlines content /\
  exists out, create_file empty_graph [] (Some content) = Ok out /\
              ~ zzz ∈ readlines (file_content out).
Proof.
  split; [reflexivity|]. split; [right; left|].
  eexists. split; [vm_compute; reflexivity|]. intros H. vm_compute in H. inversion H.
Qed.

(** A last line without its newline is joined to the line that the run
    writes after it: the run keeps the text and not the line. *)
Lemma passthrough_without_newline_joined :
  let content := STARTING_LINE ++ str "zzz" in
  let g := Graph_init (str "now") [] one_set in
  passthrough (str "zzz") = true /\ str "zzz" ∈ readlines content /\
  exists out, create_file g [] (Some content) = Ok out /\
              ~ str "zzz" ∈ readlines (file_content out) /\
              str "zzz@with g0" ++ [NL] ∈ readlines (file_content out).
Proof.
  split; [reflexivity|]. split; [right; left|].
  eexists. split; [vm_compute; reflexivity|].
  assert (Hm : existsb (text_eqb (str "zzz"))
                 (readlines (concat (STARTING_LINE :: str "zzz"
                    :: label_lines (Graph_init (str "now") [] one_set)
                    ++ data_of (Graph_init (str "now") [] one_set)))) = false)
    by (vm_compute; reflexivity).
  split.
  - intros H. apply not_true_iff_false in Hm. apply Hm. apply existsb_exists.
    exists (str "zzz"). split; [by apply list_elem_of_In|apply text_eqb_eq; reflexivity].
  - vm_compute. right. left.
Qed.

(** C1, as the code has it: when the data has at least one set, the file
    ends with a newline and the graph writes tidy lines (each of its
    labels, datatypes and description lines is read back as one line: it
    holds no LF and no CR, which the reading of the file would take for the
    end of a line), a second run with the same data (and another time
    stamp) writes the file that the first run would have written with the
    second time stamp; the two files have the same lines apart from the
    time stamp lines; and when no tuple is skipped the second run reports
    no changes. *)
Theorem second_run_idempotent (desc now1 now2 : text) (datasets : list group_input)
    (template : text) (existing : option text) (first : outcome) :
  tidy (Graph_init now1 desc datasets) = true ->
  tidy (Graph_init now2 desc datasets) = true ->
  is_nil (data_of (Graph_init now1 desc datasets)) = false ->
  ends_with_newline (default template existing) = true ->
  create_file (Graph_init now1 desc datasets) template existing = Ok first ->
  exists second again,
    create_file (Graph_init now2 desc datasets) template (Some (file_content first))
      = Ok second /\
    create_file (Graph_init now2 desc datasets) template existing = Ok again /\
    file_content second = file_content again /\
    without_time_stamps (readlines (file_content second))
    = without_time_stamps (readlines (file_content first)) /\
    (no_tuple_dropped datasets = true -> no_changes second = true).
Proof.
  intros Ht1 Ht2 Hdata Hend Hfirst. unfold create_file in *.
  set (original := readlines (default template existing)) in *.
  assert (Horig : Forall (fun l => one_line l = true) original).
  { apply readlines_one_line. by apply ends_with_newline_last. }
  destruct (merge (Graph_init now1 desc datasets) original) as [L1|] eqn:H1; [|done].
  cbn [bind] in Hfirst. injection Hfirst as <-. cbn [file_content from_option id]. unfold id.
  assert (Hne : data_of (Graph_init now1 desc datasets) <> []).
  { intros E. by rewrite E in Hdata. }
  destruct (rerun_lines desc now1 now2 datasets original L1 Ht1 Ht2 Hne Horig H1)
    as (L2 & Ha & Hb & Hr1 & Hr2 & Hts & Hnd).
  rewrite Ha, Hb. cbn [bind]. eexists _, _. split; [done|]. split; [done|].
  cbn [file_content no_changes]. split; [done|]. split.
  - by rewrite Hr1, Hr2.
  - intros Hno. destruct (Hnd Hno) as [E1 E2].
    unfold no_differences, get_file_differences. cbn [fst snd].
    rewrite Hr1, E1. rewrite E1, E2 in Hts. rewrite Hts. apply lines_eqb_refl.
Qed.

Lemma second_run_idempotent_witness :
  exists first second again,
    create_file (Graph_init (str "Monday") (str "example") two_sets) example_template None
      = Ok first /\
    create_file (Graph_init (str "Tuesday") (str "example") two_sets) example_template
      (Some (file_content first)) = Ok second /\
    create_file (Graph_init (str "Tuesday") (str "example") two_sets) example_template None
      = Ok again /\
    file_content second = file_content again /\
    without_time_stamps (readlines (file_content second))
    = without_time_stamps (readlines (file_content first)) /\
    no_changes second = true.
Proof.
  destruct (create_file (Graph_init (str "Monday") (str "example") two_sets)
              example_template None) as [first|] eqn:E;
    [|vm_compute in E; discriminate E].
  exists first.
  assert (Ht1 : tidy (Graph_init (str "Monday") (str "example") two_sets) = true)
    by (vm_compute; reflexivity).
  assert (Ht2 : tidy (Graph_init (str "Tuesday") (str "example") two_sets) = true)
    by (vm_compute; reflexivity).
  assert (Hd : is_nil (data_of (Graph_init (str "Monday") (str "example") two_sets)) = false)
    by (vm_compute; reflexivity).
  assert (He : ends_with_newline (default example_template None) = true)
    by (vm_compute; reflexivity).
  destruct (second_run_idempotent (str "example") (str "Monday") (str "Tuesday") two_sets
              example_template None first Ht1 Ht2 Hd He E)
    as (second & again & H1 & H2 & H3 & H4 & H5).
  exists second, again. split; [reflexivity|]. repeat (split; [assumption|]).
  apply H5. vm_compute. reflexivity.
Defined.

(** A group without sets: there is no data portion, so the second run takes
    the file for a fresh one and writes the label block again. *)
Lemma rerun_without_data_differs :
  exists first second,
    create_file (Graph_init (str "Monday") (str "example") no_sets) example_template None
      = Ok first /\
    create_file (Graph_init (str "Monday") (str "example") no_sets) example_template
      (Some (file_content first)) = Ok second /\
    file_content second <> file_content first /\
    without_time_stamps (readlines (file_content second))
    <> without_time_stamps (readlines (file_content first)) /\
    no_changes second = false.
Proof.
  eexists _, _. split; [vm_compute; reflexivity|]. split; [vm_compute; reflexivity|].
  split; [vm_compute; discriminate|]. split; [vm_compute; discriminate|].
  vm_compute. reflexivity.
Qed.

(** With a skipped tuple the second run writes the same file, and reports
    changes: the lines it compares hold the empty string of the skipped
    tuple, which the file does not have. *)
Example skipped_tuple_reported_as_change :
  exists first second,
    create_file (Graph_init (str "Monday") (str "example") nan_set) example_template None
      = Ok first /\
    create_file (Graph_init (str "Monday") (str "example") nan_set) example_template
      (Some (file_content first)) = Ok second /\
    file_content second = file_content first /\
    no_changes second = false.
Proof.
  eexists _, _. split; [vm_compute; reflexivity|]. split; [vm_compute; reflexivity|].
  split; vm_compute; reflexivity.
Qed.

(** ** The line of an entry, component by component *)

Lemma remove_chars_app (a b : text) : remove_chars (a ++ b) = remove_chars a ++ remove_chars b.
Proof. unfold remove_chars, remove_chars_of. apply filter_app. Qed.

Lemma remove_chars_join (parts : list text) :
  remove_chars (join (str ", ") parts) = join [SPACE] (map remove_chars parts).
Proof.
  induction parts as [|p parts IH]; [done|].
  destruct parts as [|p' parts]; [done|].
  change (join (str ", ") (p :: p' :: parts)) with (p ++ str ", " ++ join (str ", ") (p' :: parts)).
  change (join [SPACE] (map remove_chars (p :: p' :: parts)))
    with (remove_chars p ++ [SPACE] ++ join [SPACE] (map remove_chars (p' :: parts))).
  rewrite !remove_chars_app, IH. done.
Qed.

(** [remove_chars(str(reformatted_entry))]: the elements, cleaned, with one
    space between them. *)
Lemma remove_chars_items (its : list item) :
  remove_chars (str_of_items its)
  = join [SPACE] (map (fun i => remove_chars (repr_item i)) its).
Proof.
  unfold str_of_items. rewrite !remove_chars_app, remove_chars_join, map_map.
  change (remove_chars (str "[")) with (@nil ascii).
  change (remove_chars (str "]")) with (@nil ascii).
  by rewrite app_nil_r.
Qed.

Lemma fields_cons (d : datum) (en : entry) :
  fields (d :: en) = match field d with Some t => t :: fields en | None => fields en end.
Proof. reflexivity. Qed.

Lemma clean_loop_fields (en todo : entry) (acc : list item) :
  existsb skips todo = false ->
  clean_loop en todo acc
  = ([], Ok (join [SPACE] (map (fun i => remove_chars (repr_item i)) acc ++ fields todo)
             ++ [NL])).
Proof.
  revert acc. induction todo as [|d todo IH]; intros acc H.
  { cbn [clean_loop]. rewrite remove_chars_items. unfold fields.
    change (omap field []) with (@nil text). by rewrite app_nil_r. }
  rewrite clean_loop_cons. simpl in H. apply orb_false_iff in H as [Hd Htodo].
  assert (Hm : mentions_inf_or_nan d = false).
  { unfold skips in Hd. by apply orb_false_iff in Hd as [? _]. }
  rewrite Hm. pose proof (try_body_skips d Hm) as Hs.
  rewrite fields_cons. unfold field.
  destruct (try_body d) as [it|e] eqn:E.
  - rewrite IH by done. by rewrite map_app, <- app_assoc.
  - destruct (try_body_raises _ _ E) as [-> | ->].
    + destruct Hs as [Hs _]. rewrite Hs in Hd; [done|eauto].
    + rewrite handler_infinity. by apply IH.
Qed.

Lemma clean_entry_kept (en : entry) :
  dropped en = false ->
  clean_entry en = ([], Ok (join [SPACE] (fields en) ++ [NL])).
Proof. intros H. unfold clean_entry. by rewrite clean_loop_fields. Qed.






Lemma clean_float_overflow (x : spec_float) (msg : text) :
  is_binary64 x = true -> clean_float x = Raise (OverflowError msg) ->
  exists s, x = S754_infinity s.
Proof.
  intros Hb H. destruct (non_finite x) eqn:Hf.
  - destruct x as [s|s| |s m e]; try done. eauto.
  - exfalso. pose proof (float_of_formatted_finite x Hb Hf) as Hinf.
    unfold clean_float, bind in H.
    destruct (float_of_formatted x) as [s|s| |s m e] eqn:E; cbn [int_of_float] in H.
    + by destruct (float_eq_int _ _).
    + by destruct (Hinf s).
    + done.
    + by destruct (float_eq_int _ _).
Qed.

Lemma field_none (d : datum) :
  skips d = false ->
  match d with DFloat x | DFloatSub x _ => is_binary64 x = true | _ => True end ->
  (field d = None <-> is_infinite d = true).
Proof.
  intros Hs Hb. split.
  - unfold field. destruct (try_body d) as [it|e] eqn:E; [done|]. intros _.
    assert (Hm : mentions_inf_or_nan d = false).
    { unfold skips in Hs. by apply orb_false_iff in Hs as [? _]. }
    destruct (try_body_raises _ _ E) as [-> | ->].
    + rewrite (proj1 (try_body_skips d Hm)) in Hs; [done|eauto].
    + destruct d as [x|n|s|x shown]; cbn [try_body] in E; try done.
      * by destruct (clean_float_overflow x _ Hb E) as [s ->].
      * by destruct (clean_float_overflow x _ Hb E) as [s ->].
  - destruct d as [x|n|s|x shown]; try done; destruct x as [s'|s'| |s' m e]; done.
Qed.

(** X1: the line of an entry that is not skipped is the text of its
    components in order, each cleaned of the characters that [remove_chars]
    removes, with exactly one space between two of them and a newline at
    the end; nothing is printed.  The components that are left out are the
    infinities: those of a subclass of [float] whose text hides them, since
    the entry is not skipped.  The integers are within the limit of [str]
    and the floats are binary64 values. *)
Theorem clean_entry_fields (en : entry) :
  dropped en = false -> ints_within_limit en = true -> floats_binary64 en = true ->
  clean_entry en = ([], Ok (join [SPACE] (fields en) ++ [NL])) /\
  forall d, d ∈ en -> (field d = None <-> is_infinite d = true).
Proof.
  intros Hd _ Hb. split; [by apply clean_entry_kept|].
  intros d Hin. apply field_none.
  - unfold dropped in Hd. destruct (skips d) eqn:E; [|done].
    assert (existsb skips en = true); [|congruence].
    apply existsb_exists. exists d. split; [by apply list_elem_of_In|done].
  - unfold floats_binary64 in Hb. apply (forallb_elem _ _ d) in Hb; [|done].
    by destruct d.
Qed.

Lemma clean_entry_fields_witness :
  clean_entry [DFloat tenth; DInt 3; DStr (str "a,b")]
  = ([], Ok (str "0.1 3 " ++ quoted "ab" ++ [NL])).
Proof.
  assert (Hl : ints_within_limit [DFloat tenth; DInt 3; DStr (str "a,b")] = true)
    by (vm_compute; reflexivity).
  exact (proj1 (clean_entry_fields [DFloat tenth; DInt 3; DStr (str "a,b")] eq_refl Hl eq_refl)).
Defined.

Lemma int_not_mentioned (n : Z) : mentions_inf_or_nan (DInt n) = false.
Proof.
  unfold mentions_inf_or_nan, mentions. cbn [str_of_datum].
  by rewrite numeric_no_inf, numeric_no_nan by apply numeric_str_of_Z.
Qed.

(** X2: an entry of integers within the limit of [str] gives their decimal
    numerals separated by single spaces; no such entry is skipped. *)
Theorem clean_entry_ints (ns : list Z) :
  forallb within_limit ns = true ->
  clean_entry (map DInt ns) = ([], Ok (join [SPACE] (map str_of_Z ns) ++ [NL])).
Proof.
  intros _.
  assert (Hf : fields (map DInt ns) = map str_of_Z ns).
  { induction ns as [|n ns IH]; [done|].
    cbn [map]. rewrite fields_cons. cbn [field try_body repr_item].
    by rewrite IH, remove_chars_numeric by apply numeric_str_of_Z. }
  rewrite clean_entry_kept.
  - by rewrite Hf.
  - clear Hf. unfold dropped. induction ns as [|n ns IH]; [done|].
    cbn [map existsb]. rewrite IH. unfold skips. by rewrite int_not_mentioned.
Qed.

Lemma clean_entry_ints_witness :
  clean_entry (map DInt [1; -20; 300]) = ([], Ok (str "1 -20 300" ++ [NL])).
Proof.
  assert (Hl : forallb within_limit [1; -20; 300] = true) by (vm_compute; reflexivity).
  exact (clean_entry_ints [1; -20; 300] Hl).
Defined.

Lemma string_repr_quote (s : text) :
  repr_str (DQUOTE :: s ++ [DQUOTE])
  = QUOTE :: DQUOTE :: concat (map (escape_char QUOTE) s) ++ [DQUOTE; QUOTE].
Proof.
  unfold repr_str.
  assert (Hm : member DQUOTE (DQUOTE :: s ++ [DQUOTE]) = true) by done.
  rewrite Hm, andb_false_r. cbn [map concat].
  change (escape_char QUOTE DQUOTE) with [DQUOTE].
  rewrite map_app, concat_app. cbn [map concat].
  change (escape_char QUOTE DQUOTE) with [DQUOTE].
  cbn [app]. by rewrite <- !app_assoc.
Qed.

Lemma remove_chars_concat (ls : list text) :
  remove_chars (concat ls) = concat (map remove_chars ls).
Proof.
  induction ls as [|l ls IH]; [done|]. cbn [concat map]. by rewrite remove_chars_app, IH.
Qed.

Lemma field_string (s : text) :
  field (DStr s) = Some (DQUOTE :: concat (map shown_char s) ++ [DQUOTE]).
Proof.
  unfold field. cbn [try_body repr_item]. rewrite string_repr_quote. f_equal.
  change (QUOTE :: DQUOTE :: concat (map (escape_char QUOTE) s) ++ [DQUOTE; QUOTE])
    with ([QUOTE; DQUOTE] ++ concat (map (escape_char QUOTE) s) ++ [DQUOTE; QUOTE]).
  rewrite !remove_chars_app, remove_chars_concat, map_map. done.
Qed.

(** X3: a string component that is not skipped stands between double quotes;
    each of its characters is shown as [repr] escapes it, less the removed
    characters: an apostrophe becomes a backslash, a comma, a parenthesis
    or a square bracket disappears, and any other printable character but
    the backslash is kept. *)
Theorem string_component (s : text) :
  mentions_inf_or_nan (DStr s) = false ->
  clean_entry [DStr s] = ([], Ok (DQUOTE :: concat (map shown_char s) ++ [DQUOTE; NL]))
  /\ shown_char QUOTE = [BACKSLASH]
  /\ (forall c, c <> QUOTE -> member c DEFAULT_CHARS = true -> shown_char c = [])
  /\ (forall c, member c DEFAULT_CHARS = false -> printable c = true -> c <> BACKSLASH ->
         shown_char c = [c]).
Proof.
  intros Hm. split.
  - rewrite clean_entry_kept.
    + rewrite fields_cons, field_string. change (fields []) with (@nil text).
      cbn [join]. by rewrite <- app_comm_cons, <- app_assoc.
    + unfold dropped, skips. cbn [existsb]. by rewrite Hm.
  - split; [done|]. split.
    + intros c Hc. all_chars c.
    + intros c. all_chars c.
Qed.

Lemma string_component_witness :
  clean_entry [DStr (str "f(x), it's")]
  = ([], Ok (DQUOTE :: concat (map shown_char (str "f(x), it's")) ++ [DQUOTE; NL])).
Proof. exact (proj1 (string_component (str "f(x), it's") eq_refl)). Defined.

Example string_component_example :
  clean_entry [DStr (str "f(x), it's")] = ([], Ok (DQUOTE :: str "fx it\s" ++ [DQUOTE; NL])).
Proof. vm_compute. reflexivity. Qed.

(** X4: [clean_entry] does not raise on floats, integers within the limit
    of [str] and strings: the [raise ValueError(e, entry)] of the handler
    is not reached, since [int] of a float raises a [ValueError] only with
    the text that the handler tests for.  It prints one message exactly
    when it returns the empty string. *)
Theorem clean_entry_never_raises (en : entry) :
  ints_within_limit en = true ->
  exists msgs line,
    clean_entry en = (msgs, Ok line) /\
    ((dropped en = false /\ msgs = [] /\ line <> [])
     \/ (dropped en = true /\ (exists m, msgs = [m]) /\ line = [])).
Proof.
  intros _. destruct (dropped en) eqn:E.
  - destruct (clean_loop_dropped en en [] E) as [m Hm].
    exists [m], []. split; [done|]. right. eauto.
  - destruct (clean_loop_kept en en [] E) as (t & Ht & _).
    exists [], (t ++ [NL]). split; [done|]. left. split; [done|]. split; [done|].
    by destruct t.
Qed.

Lemma clean_entry_never_raises_witness :
  exists msgs line,
    clean_entry [DFloat S754_nan; DInt 7] = (msgs, Ok line) /\
    ((dropped [DFloat S754_nan; DInt 7] = false /\ msgs = [] /\ line <> [])
     \/ (dropped [DFloat S754_nan; DInt 7] = true /\ (exists m, msgs = [m]) /\ line = [])).
Proof.
  assert (Hl : ints_within_limit [DFloat S754_nan; DInt 7] = true) by (vm_compute; reflexivity).
  exact (clean_entry_never_raises [DFloat S754_nan; DInt 7] Hl).
Defined.

(** ** Subtitles and the description in the merge *)

Lemma subtitle_of_current (now desc : text) (datasets : list group_input) (group : option Z) :
  subtitle_of (Graph_init now desc datasets) group = current_subtitle datasets group.
Proof. destruct group as [G|]; [apply subtitle_of_Graph_init|done]. Qed.

Lemma scan_at (g : Graph) (pre : list text) (line : text) (post : list text)
    (gp gp' : option Z) (E ls : list text) :
  scan_header g None pre = Ok (gp, E, false) ->
  current_group gp line = Ok gp' ->
  classify g gp' line = Ok (Append ls) ->
  merge g (pre ++ line :: post) = (rest <- scan g gp' [] post ;; Ok (E ++ ls ++ rest)).
Proof.
  intros Hpre Hg Hc. unfold merge. rewrite scan_scan_header, Hpre. cbn [bind fst snd app scan].
  rewrite Hg. cbn [bind]. rewrite Hc. cbn [bind]. rewrite scan_acc.
  destruct (scan g gp' [] post); cbn [bind]; [|done]. by rewrite app_assoc.
Qed.

(** X5: a subtitle line that the scan reaches is replaced by the subtitle
    that the new data gives the current group; when no group has started
    or the data has no such group, the line is dropped. *)
Theorem subtitle_overwrite (now desc : text) (datasets : list group_input)
    (pre : list text) (line : text) (post : list text) (gp : option Z) (E : list text) :
  let g := Graph_init now desc datasets in
  scan_header g None pre = Ok (gp, E, false) ->
  is_legend line = false ->
  startswith SUBTITLE_START line = true ->
  merge g (pre ++ line :: post) =
  (rest <- scan g gp [] post ;;
   Ok (E ++ option_list (current_subtitle datasets gp) ++ rest)).
Proof.
  intros g Hpre Hleg Hsub.
  destruct (subtitle_prefix line Hsub) as (Hg & _).
  apply (scan_at g pre line post gp gp E); [done|by apply current_group_other|].
  unfold classify. rewrite Hleg, Hsub. unfold g. by rewrite subtitle_of_current.
Qed.

Lemma subtitle_overwrite_witness :
  merge (Graph_init (str "now") [] one_set)
    ([str "@with g0" ++ [NL]] ++ (str "@    subtitle " ++ quoted "old" ++ [NL]) :: [])
  = (rest <- scan (Graph_init (str "now") [] one_set) (Some 0) [] [] ;;
     Ok ([str "@with g0" ++ [NL]]
         ++ option_list (current_subtitle one_set (Some 0)) ++ rest))
  /\ current_subtitle one_set (Some 0) = Some (str "@    subtitle " ++ quoted "group1" ++ [NL]).
Proof.
  split; [|reflexivity].
  apply (subtitle_overwrite (str "now") [] one_set [str "@with g0" ++ [NL]]
           (str "@    subtitle " ++ quoted "old" ++ [NL]) [] (Some 0)
           [str "@with g0" ++ [NL]]); reflexivity.
Defined.

(** X6: the description of the graph is written after every line that
    starts with the page size directive and that the scan reaches. *)
Theorem description_after_page_size (g : Graph)
    (pre : list text) (line : text) (post : list text) (gp : option Z) (E : list text) :
  scan_header g None pre = Ok (gp, E, false) ->
  is_legend line = false ->
  startswith PAGE_SIZE_START line = true ->
  merge g (pre ++ line :: post) =
  (rest <- scan g gp [] post ;; Ok (E ++ (line :: description g) ++ rest)).
Proof.
  intros Hpre Hleg Hpage.
  assert (Hg : startswith GROUP_START line = false) by other_prefix Hpage.
  assert (Hs : startswith SUBTITLE_START line = false) by other_prefix Hpage.
  assert (Ht : startswith TARGET_START line = false) by other_prefix Hpage.
  assert (Hd : startswith DESCRIPTION_START line = false) by other_prefix Hpage.
  apply (scan_at g pre line post gp gp E); [done|by apply current_group_other|].
  unfold classify. rewrite Hleg, Hs, Ht, Hd, Hpage.
  by destruct (description g).
Qed.

Lemma description_after_page_size_witness :
  merge (Graph_init (str "now") (str "text") one_set)
    ([str "# Grace project file" ++ [NL]] ++ (str "@page size 792, 612" ++ [NL]) :: [])
  = (rest <- scan (Graph_init (str "now") (str "text") one_set) None [] [] ;;
     Ok ([str "# Grace project file" ++ [NL]]
         ++ ((str "@page size 792, 612" ++ [NL])
             :: description (Graph_init (str "now") (str "text") one_set))
         ++ rest)).
Proof.
  apply (description_after_page_size (Graph_init (str "now") (str "text") one_set)
           [str "# Grace project file" ++ [NL]] (str "@page size 792, 612" ++ [NL]) []
           None [str "# Grace project file" ++ [NL]]); reflexivity.
Defined.

(** ** A set that is removed *)

Lemma str_of_Z_two_digits (s : Z) :
  10 <= s ->
  exists c1 c2 ds, str_of_Z s = c1 :: c2 :: ds /\ is_digit c1 = true /\ is_digit c2 = true
                   /\ Forall (fun c => is_digit c = true) ds.
Proof.
  intros Hs. destruct (str_of_Z_nonneg s ltac:(lia)) as (d & E & Hnil & Hof).
  pose proof (digits_uint d) as Hd. rewrite E.
  destruct d as [|d|d|d|d|d|d|d|d|d|d]; [done|..];
    (destruct d as [|d|d|d|d|d|d|d|d|d|d]; [vm_compute in Hof; lia|..]);
    cbn [chars_of_uint] in *; inversion Hd as [|? ? H1 Hd']; inversion Hd' as [|? ? H2 Hd''];
    subst; eauto 10.
Qed.

(** The legend line of a set with one digit matches the legend pattern. *)
Lemma legend_line_matches (s : Z) (label : text) :
  0 <= s < 10 -> is_legend (legend_line s label) = true.
Proof.
  intros Hs.
  assert (E : s = 0 \/ s = 1 \/ s = 2 \/ s = 3 \/ s = 4 \/ s = 5 \/ s = 6 \/ s = 7 \/ s = 8
              \/ s = 9) by lia.
  repeat (destruct E as [-> | E]; [reflexivity|]). by subst s.
Qed.

(** The legend line of a set with two digits or more does not match it,
    unless its label does. *)
Lemma legend_line_no_match (s : Z) (label : text) :
  10 <= s -> AT ∉ label -> is_legend (legend_line s label) = false.
Proof.
  intros Hs Hat. destruct (str_of_Z_two_digits s Hs) as (c1 & c2 & ds & E & H1 & H2 & Hds).
  unfold legend_line. rewrite E.
  change (str "@    s" ++ (c1 :: c2 :: ds) ++ str " legend  " ++ DQUOTE :: label ++ [DQUOTE; NL])
    with (AT :: str "    s" ++ (c1 :: c2 :: ds) ++ str " legend  " ++ DQUOTE :: label
          ++ [DQUOTE; NL]).
  cbn [is_legend]. rewrite no_at_not_legend.
  - rewrite orb_false_r. unfold legend_here.
    cbn [app str list_ascii_of_string startswith drop]. rewrite !ascii_eqb_refl.
    cbn [andb]. rewrite H1. cbn [andb].
    change (ascii_eqb SPACE c2) with (ascii_eqb " " c2).
    destruct (ascii_eqb " " c2) eqn:Ec; [|done].
    apply ascii_eqb_true in Ec as <-. discriminate H2.
  - intros Hin. cbn [app str list_ascii_of_string] in Hin.
    repeat (apply elem_of_cons in Hin as [Hin | Hin]; [discriminate Hin|]).
    apply elem_of_cons in Hin as [<- | Hin]; [discriminate H1|].
    apply elem_of_cons in Hin as [<- | Hin]; [discriminate H2|].
    apply elem_of_app in Hin as [Hin | Hin].
    { rewrite Forall_forall in Hds. apply Hds in Hin. discriminate Hin. }
    repeat (apply elem_of_cons in Hin as [Hin | Hin]; [discriminate Hin|]).
    apply elem_of_app in Hin as [Hin | Hin]; [done|].
    repeat (apply elem_of_cons in Hin as [Hin | Hin]; [discriminate Hin|]).
    inversion Hin.
Qed.

Lemma merge_at (g : Graph) (pre post : list text) (gp : option Z) (E : list text) :
  scan_header g None pre = Ok (gp, E, false) ->
  merge g (pre ++ post) = (rest <- scan g gp [] post ;; Ok (E ++ rest)).
Proof.
  intros Hpre. unfold merge. rewrite scan_scan_header, Hpre. cbn [bind fst snd app].
  by rewrite scan_acc.
Qed.

(** C8, as the code has it.  A line that matches the legend pattern and
    whose set the new data no longer has is dropped at once: the merge
    gives what it gives for the file without that line.  The legend line
    that a run writes for a set matches the pattern when the index of the
    set has one digit, and is so dropped.  With an index of 10 or more it
    does not match the pattern, which has one digit, and the line stays
    where it is, with its old label. *)
Theorem removed_set_legend_dropped (now description : text) (datasets : list group_input)
    (pre post : list text) (G s : Z) (E : list text) :
  let g := Graph_init now description datasets in
  scan_header g None pre = Ok (Some G, E, false) ->
  supplied_legend datasets G s = None ->
  (forall line,
     startswith GROUP_START line = false -> is_legend line = true ->
     int_of_text (first_digits line) = Ok s ->
     merge g (pre ++ line :: post) = merge g (pre ++ post)) /\
  (forall label,
     0 <= s < 10 ->
     is_legend (legend_line s label) = true /\
     merge g (pre ++ legend_line s label :: post) = merge g (pre ++ post)) /\
  (forall label,
     10 <= s -> AT ∉ label ->
     is_legend (legend_line s label) = false /\
     merge g (pre ++ post) = (rest <- scan g (Some G) [] post ;; Ok (E ++ rest)) /\
     merge g (pre ++ legend_line s label :: post)
     = (rest <- scan g (Some G) [] post ;; Ok (E ++ legend_line s label :: rest))).
Proof.
  intros g Hpre Hnone.
  assert (Hdrop : forall line,
            startswith GROUP_START line = false -> is_legend line = true ->
            int_of_text (first_digits line) = Ok s ->
            merge g (pre ++ line :: post) = merge g (pre ++ post)).
  { intros line Hstart Hleg Hs.
    rewrite (scan_legend g pre line post (Some G) G s E);
      [|done|by apply current_group_other|done|done].
    unfold g at 2. rewrite legend_of_Graph_init, Hnone. simpl. rewrite app_nil_r.
    unfold merge. rewrite scan_scan_header, Hpre. done. }
  split; [exact Hdrop|]. split.
  - intros label Hs. split; [by apply legend_line_matches|]. apply Hdrop.
    + by destruct (legend_line_prefix s label ltac:(lia)) as (? & _).
    + by apply legend_line_matches.
    + apply legend_line_index. lia.
  - intros label Hs Hat.
    pose proof (legend_line_no_match s label Hs Hat) as Hleg.
    split; [done|]. split; [by apply merge_at|].
    destruct (legend_line_prefix s label ltac:(lia)) as (Hg & Hsub & Htar & Hdes & Hpage).
    assert (Hp : passthrough (legend_line s label) = true).
    { unfold passthrough, recognized. by rewrite Hg, Hleg, Hsub, Htar, Hdes. }
    destruct (classify_passthrough g (Some G) _ Hp) as [Hcg Hc].
    rewrite Hpage, andb_false_r in Hc.
    by rewrite (scan_at g pre _ post (Some G) (Some G) E _ Hpre Hcg Hc).
Qed.

Lemma removed_set_legend_dropped_witness :
  let g := Graph_init (str "now") [] one_set in
  let pre := [str "@with g0" ++ [NL]] in
  let post := [str "@target G0.S0" ++ [NL]] in
  merge g (pre ++ stale_legend :: post) = merge g (pre ++ post) /\
  (is_legend (legend_line 10 (str "old")) = false /\
   merge g (pre ++ post) = (rest <- scan g (Some 0) [] post ;; Ok (pre ++ rest)) /\
   merge g (pre ++ legend_line 10 (str "old") :: post)
   = (rest <- scan g (Some 0) [] post ;; Ok (pre ++ legend_line 10 (str "old") :: rest))).
Proof.
  intros g pre post.
  assert (Hpre : scan_header g None pre = Ok (Some 0, pre, false)) by reflexivity.
  split.
  - destruct (removed_set_legend_dropped (str "now") [] one_set pre post 0 1 pre Hpre eq_refl)
      as (H & _ & _).
    apply H; reflexivity.
  - destruct (removed_set_legend_dropped (str "now") [] one_set pre post 0 10 pre Hpre eq_refl)
      as (_ & _ & H).
    apply H; [lia|]. intros Hin.
    repeat (apply elem_of_cons in Hin as [Hin | Hin]; [discriminate Hin|]). inversion Hin.
Defined.

(** The scenario with eleven sets, then ten: the legend line of the set of
    index 10 is in the first file and stays in the second, where no set has
    this index. *)
Example shrinkage_beyond_nine_leaves_legend :
  let eleven := [(Some (str "group1"), replicate 11 set_alt)] in
  let ten := [(Some (str "group1"), replicate 10 set_alt)] in
  exists first second,
    create_file (Graph_init (str "Monday") (str "example") eleven) example_template None
      = Ok first /\
    create_file (Graph_init (str "Tuesday") (str "example") ten) example_template
      (Some (file_content first)) = Ok second /\
    supplied_legend ten 0 10 = None /\
    existsb (text_eqb (legend_line 10 (str "alt"))) (readlines (file_content first)) = true /\
    existsb (text_eqb (legend_line 10 (str "alt"))) (readlines (file_content second)) = true.
Proof.
  eexists _, _. split; [vm_compute; reflexivity|].
  split; [vm_compute; reflexivity|].
  repeat split; vm_compute; reflexivity.
Qed.

(** ** How the merge can fail *)

Lemma scan_raises (g : Graph) (todo : list text) (group : option Z) (lines : list text)
    (e : exn) :
  scan g group lines todo = Raise e ->
  e = AssertionError NO_GROUP_MESSAGE \/
  exists line, line ∈ before_data todo /\ startswith GROUP_START line = true /\
               py_int (remove_all GROUP_START line) = None /\
               e = invalid_literal (remove_all GROUP_START line).
Proof.
  revert group lines. induction todo as [|line todo IH]; intros group lines H.
  { cbn [scan] in H. by rewrite data_lines_returns in H. }
  cbn [scan] in H. cbn [before_data].
  destruct (current_group group line) as [group'|e'] eqn:Hg.
  - cbn [bind] in H. destruct (classify g group' line) as [[ls|]|e'] eqn:Hc.
    + cbn [bind] in H. apply IH in H as [H | (l & Hl & Hs & Hp & He)]; [by left|right].
      assert (Hds : data_start line = false).
      { destruct (data_start line) eqn:Eds; [|done].
        apply (classify_data_start g group') in Eds. congruence. }
      rewrite Hds. exists l. split; [by right|done].
    + cbn [bind] in H. by rewrite data_lines_returns in H.
    + cbn [bind] in H. injection H as <-. left.
      unfold classify in Hc. destruct (is_legend line) eqn:Hleg.
      * destruct group' as [gi|]; [|by injection Hc as <-].
        destruct (legend_has_index line Hleg) as [s Hs]. by rewrite Hs in Hc.
      * destruct (startswith SUBTITLE_START line); [done|].
        destruct (startswith TARGET_START line); [done|].
        by destruct (startswith DESCRIPTION_START line).
  - cbn [bind] in H. injection H as <-. right. unfold current_group in Hg.
    destruct (startswith GROUP_START line) eqn:Hs; [|done].
    exists line. unfold data_start. rewrite (proj1 (proj2 (group_prefix line Hs))).
    rewrite andb_false_r. split; [left|]. split; [done|].
    unfold int_of_text in Hg. destruct (py_int _); [done|]. by injection Hg as <-.
Qed.

(** X7: for a graph that [__init__] has built, when the integers of the
    graph are within the limit of [str] and the lines before the data
    portion have at most 4300 characters, the merge fails in two ways only: with the assertion on a legend line that
    has no group, or with the [ValueError] of [int] on a line that starts a
    group, comes before the data portion and does not hold an integer after
    the directive. *)
Theorem merge_raises_only (now desc : text) (datasets : list group_input)
    (original : list text) (e : exn) :
  let g := Graph_init now desc datasets in
  graph_within_limit g = true ->
  Forall (fun l => short_line l = true) (before_data original) ->
  merge g original = Raise e ->
  e = AssertionError NO_GROUP_MESSAGE \/
  exists line, line ∈ before_data original /\ startswith GROUP_START line = true /\
               py_int (remove_all GROUP_START line) = None /\
               e = invalid_literal (remove_all GROUP_START line).
Proof. intros g _ _. apply scan_raises. Qed.

Lemma merge_raises_only_witness :
  invalid_literal (str "X" ++ [NL]) = AssertionError NO_GROUP_MESSAGE \/
  exists line, line ∈ before_data [bad_group_line] /\ startswith GROUP_START line = true /\
               py_int (remove_all GROUP_START line) = None /\
               invalid_literal (str "X" ++ [NL]) = invalid_literal (remove_all GROUP_START line).
Proof.
  apply (merge_raises_only (str "now") [] one_set [bad_group_line]
           (invalid_literal (str "X" ++ [NL]))).
  - vm_compute. reflexivity.
  - repeat constructor.
  - vm_compute. reflexivity.
Defined.

(** X8: for a graph that [__init__] has built, when the integers of the
    graph are within the limit of [str] and the lines before the data
    portion have at most 4300 characters, the merge returns for every file in which each line that starts a group
    before the data portion holds an integer after the directive, and in
    which a line that starts a group comes before every legend line. *)
Theorem merge_succeeds (now desc : text) (datasets : list group_input)
    (original : list text) :
  let g := Graph_init now desc datasets in
  graph_within_limit g = true ->
  Forall (fun l => short_line l = true) (before_data original) ->
  (forall line, line ∈ before_data original -> startswith GROUP_START line = true ->
                exists n, py_int (remove_all GROUP_START line) = Some n) ->
  group_precedes_legends original ->
  exists out, merge g original = Ok out.
Proof.
  intros g _ _ Hint Hprec. destruct (merge g original) as [out|e] eqn:E; [eauto|].
  exfalso. pose proof E as E'.
  apply scan_raises in E as [-> | (line & Hl & Hs & Hp & _)].
  - revert E'. apply scan_never_asserts. by right.
  - destruct (Hint line Hl Hs) as [n Hn]. congruence.
Qed.

Lemma merge_succeeds_witness :
  exists out, merge (Graph_init (str "now") [] one_set) example_original = Ok out.
Proof.
  apply (merge_succeeds (str "now") [] one_set example_original).
  - vm_compute. reflexivity.
  - apply Forall_forall. intros l Hl. vm_compute in Hl.
    repeat (apply elem_of_cons in Hl as [-> | Hl]; [reflexivity|]). inversion Hl.
  - intros line Hl Hs. vm_compute in Hl.
    repeat (apply elem_of_cons in Hl as [-> | Hl]; [first [discriminate Hs | by exists 0]|]).
    inversion Hl.
  - intros i line Hi Hl. destruct i as [|[|[|i]]].
    + injection Hi as <-. discriminate Hl.
    + injection Hi as <-. discriminate Hl.
    + exists 1%nat. eexists. split; [lia|]. split; reflexivity.
    + destruct i as [|[|[|i]]]; simpl in Hi; try discriminate Hi;
        injection Hi as <-; discriminate Hl.
Defined.

(** ** The first character of the lines a graph writes *)

Lemma clean_float_numeric (x : spec_float) (it : item) :
  clean_float x = Ok it -> exists t, it = IText t /\ numeric t.
Proof.
  unfold clean_float, bind.
  destruct (int_of_float (float_of_formatted x)) as [n|e] eqn:E; [|done].
  destruct (float_eq_int _ n); intros [= <-].
  - eexists. split; [done|]. apply numeric_str_of_Z.
  - eexists. split; [done|]. unfold format_float. unfold float_of_formatted in E.
    apply numeric_format_short.
    + intros H. by rewrite H in E.
    + intros neg H. by rewrite H in E.
Qed.

(** The text of a component is a numeral or starts with a double quote. *)
Lemma field_shape (d : datum) (t : text) :
  field d = Some t -> numeric t \/ exists s, t = DQUOTE :: s.
Proof.
  assert (Hf : forall x, match clean_float x with
                         | Ok it => Some (remove_chars (repr_item it))
                         | Raise _ => None
                         end = Some t -> numeric t).
  { intros x. destruct (clean_float x) as [it|] eqn:E; [|done].
    apply clean_float_numeric in E as (t' & -> & Ht'). intros [= <-]. cbn [repr_item].
    rewrite numeric_repr_str by done.
    change (QUOTE :: t' ++ [QUOTE]) with ([QUOTE] ++ t' ++ [QUOTE]).
    rewrite !remove_chars_app, (remove_chars_numeric t') by done.
    change (remove_chars [QUOTE]) with (@nil ascii). by rewrite app_nil_r. }
  destruct d as [x|n|s|x shown].
  - intros H. left. by apply (Hf x).
  - unfold field. cbn [try_body repr_item]. intros [= <-]. left.
    rewrite remove_chars_numeric; apply numeric_str_of_Z.
  - rewrite field_string. intros [= <-]. right. eauto.
  - intros H. left. by apply (Hf x).
Qed.






Lemma at_prefix (p l : text) : startswith (AT :: p) l = true -> startswith [AT] l = true.
Proof.
  destruct l as [|c l]; [done|]. cbn [startswith]. intros H.
  apply andb_true_iff in H as [-> _]. done.
Qed.


(** ** The description lines of the merged file *)

Section Description.
Variables (now desc : text) (datasets : list group_input).

Local Abbreviation g := (Graph_init now desc datasets).






End Description.



(** ** The data portion of the merged file *)

Lemma scan_header_found (g : Graph) (todo : list text) (group gp : option Z)
    (E : list text) (found : bool) :
  scan_header g group todo = Ok (gp, E, found) -> found = existsb data_start todo.
Proof.
  revert group gp E found. induction todo as [|line todo IH]; intros group gp E found H.
  { by injection H as _ _ <-. }
  cbn [scan_header] in H. destruct (current_group group line) as [group'|]; [|done].
  cbn [bind] in H. destruct (classify g group' line) as [[ls|]|] eqn:Hc; [| |done].
  - cbn [bind] in H. destruct (scan_header g group' todo) as [[[gp' E'] found']|] eqn:Hs; [|done].
    cbn [bind fst snd] in H. injection H as _ _ <-. cbn [existsb].
    assert (Hds : data_start line = false).
    { destruct (data_start line) eqn:Eds; [|done].
      apply (classify_data_start g group') in Eds. congruence. }
    rewrite Hds. by apply IH in Hs.
  - injection H as _ _ <-. apply classify_data_start in Hc. cbn [existsb]. by rewrite Hc.
Qed.

(** The scan of a file is the scan of its lines before the data portion. *)
Lemma scan_header_before_data (g : Graph) (original : list text) (group gp : option Z)
    (E : list text) (found : bool) :
  scan_header g group original = Ok (gp, E, found) ->
  scan_header g group (before_data original) = Ok (gp, E, false).
Proof.
  revert group gp E found. induction original as [|line todo IH]; intros group gp E found H.
  { by injection H as <- <- _. }
  cbn [scan_header] in H.
  destruct (current_group group line) as [group'|] eqn:Hg; [|done]. cbn [bind] in H.
  destruct (classify g group' line) as [[ls|]|] eqn:Hc; [| |done]; cbn [bind] in H.
  - destruct (scan_header g group' todo) as [[[gp1 E1] f1]|] eqn:Hs; [|done].
    cbn [bind fst snd] in H. injection H as <- <- _.
    assert (Hds : data_start line = false).
    { destruct (data_start line) eqn:Eds; [|done].
      apply (classify_data_start g group') in Eds. congruence. }
    cbn [before_data]. rewrite Hds. cbn [scan_header]. rewrite Hg. cbn [bind].
    rewrite Hc. cbn [bind]. by rewrite (IH _ _ _ _ Hs).
  - injection H as <- <- _. apply classify_data_start in Hc.
    rewrite (data_start_group group line Hc) in Hg. injection Hg as <-.
    cbn [before_data]. by rewrite Hc.
Qed.

(** X10: the merged file is what the scan of the lines before the data
    portion gives, then the label block ([@with g], subtitle and legends of
    every group) exactly when the file had no line that starts a data
    portion, then the new data portion, and nothing else.  A line starts a
    data portion when it starts with the data marker and does not match the
    legend pattern. *)
Theorem merged_file_shape (g : Graph) (original out : list text) :
  merge g original = Ok out ->
  exists gp E,
    scan_header g None (before_data original) = Ok (gp, E, false) /\
    out = E ++ (if existsb data_start original then [] else label_lines g) ++ data_of g.
Proof.
  rewrite merge_header.
  destruct (scan_header g None original) as [[[gp E] found]|] eqn:H; [|done].
  cbn [bind fst snd]. intros [= <-]. exists gp, E.
  split; [by apply (scan_header_before_data g original None gp E found)|].
  by rewrite (scan_header_found _ _ _ _ _ _ H).
Qed.

Lemma merged_file_shape_witness :
  exists out gp E,
    merge (Graph_init (str "now") [] one_set) example_original = Ok out /\
    scan_header (Graph_init (str "now") [] one_set) None (before_data example_original)
    = Ok (gp, E, false) /\
    out = E ++ data_of (Graph_init (str "now") [] one_set).
Proof.
  destruct (merge (Graph_init (str "now") [] one_set) example_original) as [out|] eqn:E;
    [|vm_compute in E; discriminate E].
  destruct (merged_file_shape _ _ _ E) as (gp & header & Hs & H).
  exists out, gp, header. split; [reflexivity|]. split; [exact Hs|exact H].
Defined.

(** A line that starts with the data marker and matches the legend pattern
    does not start the data portion: it is taken for a legend line, with
    the first digits of the line as the index of its set, and the label
    block is written. *)
Example target_line_with_legend_pattern :
  let line := str "@target G0.S0 @    s1 legend  " ++ [DQUOTE] ++ str "x" ++ [DQUOTE; NL] in
  startswith TARGET_START line = true /\ data_start line = false /\
  merge (Graph_init (str "now") [] one_set) [str "@with g0" ++ [NL]; line]
  = Ok ((str "@with g0" ++ [NL]) :: legend_line 0 (str "alt")
        :: label_lines (Graph_init (str "now") [] one_set)
        ++ data_of (Graph_init (str "now") [] one_set)).
Proof. repeat split; vm_compute; reflexivity. Qed.

(** X11: what follows the first line that starts the data portion has no
    influence on the merged file: the old data is never read. *)
Theorem old_data_ignored (g : Graph) (pre : list text) (line : text) (post post' : list text) :
  data_start line = true ->
  merge g (pre ++ line :: post) = merge g (pre ++ line :: post').
Proof.
  intros Hds. unfold merge. rewrite !scan_scan_header.
  destruct (scan_header g None pre) as [[[gp E] found]|]; [|done]. cbn [bind fst snd].
  destruct found; [done|]. cbn [scan].
  rewrite (data_start_group gp line Hds). cbn [bind].
  by rewrite (proj2 (classify_data_start g gp line) Hds).
Qed.

Lemma old_data_ignored_witness :
  merge (Graph_init (str "now") [] one_set)
    ([str "# Grace project file" ++ [NL]] ++ (str "@target G0.S0" ++ [NL]) :: [str "1 2" ++ [NL]])
  = merge (Graph_init (str "now") [] one_set)
    ([str "# Grace project file" ++ [NL]] ++ (str "@target G0.S0" ++ [NL]) :: []).
Proof. apply old_data_ignored. reflexivity. Defined.

(** ** The description block *)

(** X12: [get_longest_string_length] returns 0 for no strings; otherwise it
    returns the length of one of the strings, and no string is longer. *)
Theorem longest_string_length (strings : list text) :
  get_longest_string_length [] = 0%nat
  /\ (forall s, s ∈ strings -> (length s <= get_longest_string_length strings)%nat)
  /\ (strings <> [] ->
      exists s, s ∈ strings /\ length s = get_longest_string_length strings).
Proof.
  split; [done|]. split.
  - induction strings as [|s' strings IH]; intros s Hs; [by inversion Hs|].
    cbn [get_longest_string_length foldr]. fold (get_longest_string_length strings).
    apply elem_of_cons in Hs as [-> | Hs]; [lia|]. specialize (IH s Hs). lia.
  - induction strings as [|s' strings IH]; [done|]. intros _.
    cbn [get_longest_string_length foldr]. fold (get_longest_string_length strings).
    destruct (Nat.max_spec (length s') (get_longest_string_length strings)) as [[Hlt ->] | [Hle ->]].
    + destruct strings as [|s'' strings]; [cbn in Hlt; lia|].
      destruct IH as (s & Hs & Hlen); [done|]. exists s. split; [by right|done].
    + exists s'. split; [left|done].
Qed.









Example description_example :
  make_description (str "now") (str "a" ++ [TAB] ++ str "b" ++ [NL; NL] ++ str "cd") =
  [str "@description " ++ quoted "Last Updated: now" ++ [NL];
   str "@description " ++ quoted "=========" ++ [NL];
   str "@description " ++ quoted "a       b" ++ [NL];
   str "@description " ++ quoted "cd       " ++ [NL];
   str "@description " ++ quoted "=========" ++ [NL]].
Proof. reflexivity. Qed.

(** ** [Set.__str__] and [Group.__str__] *)

Lemma join_lines (parts : list text) :
  parts <> [] -> join [NL] parts ++ [NL] = concat (map (fun p => p ++ [NL]) parts).
Proof.
  induction parts as [|p parts IH]; [done|]. intros _.
  destruct parts as [|q parts].
  - cbn [join map concat]. by rewrite app_nil_r.
  - specialize (IH ltac:(done)).
    change (join [NL] (p :: q :: parts)) with (p ++ [NL] ++ join [NL] (q :: parts)).
    change (concat (map (fun p => p ++ [NL]) (p :: q :: parts)))
      with ((p ++ [NL]) ++ concat (map (fun p => p ++ [NL]) (q :: parts))).
    by rewrite <- IH, <- !app_assoc.
Qed.

(** X14: [Group.__str__] does not raise for a group whose integers are
    within the limit of [str].  For a group without sets it is the empty
    string; otherwise, with a newline added at its end, it is the text of
    the lines of [Group.as_list] with one empty line before the end line of
    every set. *)
Theorem Group_str_lines (g : Group) :
  group_within_limit g = true ->
  exists t,
    Group_str g = Ok t /\
    Group_as_list g = Ok (concat (map (block_lines (group_index g)) (enumerate (group_sets g)))) /\
    (group_sets g = [] -> t = []) /\
    (group_sets g <> [] ->
     t ++ [NL]
     = concat (concat (map (spaced_block_lines (group_index g)) (enumerate (group_sets g))))).
Proof.
  intros _. unfold Group_str.
  rewrite (map_result_returns _
    (fun p => target_line (group_index g) (fst p) ++ concat (set_lines (snd p)) ++ [NL; AMPERSAND])).
  2:{ intros p. unfold set_str_block, Set_str. by rewrite Set_as_list_lines. }
  cbn [bind]. eexists. split; [done|]. split; [apply Group_as_list_lines|]. split.
  - intros ->. done.
  - intros Hne. rewrite join_lines.
    2:{ unfold enumerate. by destruct (group_sets g). }
    rewrite map_map. induction (enumerate (group_sets g)) as [|p ps IH]; [done|].
    cbn [map concat]. rewrite concat_app, IH. f_equal.
    unfold spaced_block_lines. cbn [concat]. rewrite concat_app. cbn [concat].
    rewrite <- !app_assoc. done.
Qed.

Lemma Group_str_lines_witness :
  exists t,
    Group_str (mkGroup 0 (str "group1") [mkSet (str "alt") (str "xy") [[DInt 1; DInt 2]]]) = Ok t /\
    t ++ [NL] = concat [str "@target G0.S0" ++ [NL]; str "@type xy" ++ [NL]; str "1 2" ++ [NL];
                        [NL]; str "&" ++ [NL]].
Proof.
  assert (Hl : group_within_limit
                 (mkGroup 0 (str "group1") [mkSet (str "alt") (str "xy") [[DInt 1; DInt 2]]])
               = true) by (vm_compute; reflexivity).
  destruct (Group_str_lines
              (mkGroup 0 (str "group1") [mkSet (str "alt") (str "xy") [[DInt 1; DInt 2]]]) Hl)
    as (t & Ht & _ & _ & H).
  exists t. split; [exact Ht|]. apply H. discriminate.
Defined.

(** ** [ask_prompt] *)

Lemma lower_char_idempotent (c : ascii) : lower_char (lower_char c) = lower_char c.
Proof. all_chars c. Qed.

Lemma lower_idempotent (s : text) : lower (lower s) = lower s.
Proof.
  unfold lower. rewrite map_map. apply map_ext. intros c. apply lower_char_idempotent.
Qed.

Lemma ask_loop_invalid (question opps : text) (invalid rest : list text) :
  forallb not_understood invalid = true ->
  ask_loop question opps (invalid ++ rest)
  = let '(out, r, unread) := ask_loop question opps rest in
    (concat (map (fun _ => [Prompted question; Said opps]) invalid) ++ out, r, unread).
Proof.
  induction invalid as [|i invalid IH]; intros H.
  - cbn [app map concat]. by destruct (ask_loop question opps rest) as [[out r] unread].
  - cbn [forallb] in H. apply andb_true_iff in H as [Hi H].
    unfold not_understood in Hi. apply andb_true_iff in Hi as [Ha Hn].
    apply negb_true_iff in Ha, Hn.
    cbn [app ask_loop]. rewrite Ha, Hn, IH by done.
    by destruct (ask_loop question opps rest) as [[out r] unread].
Qed.

(** X15: without a default, [ask_prompt] asks until it understands: it
    prints [opps] once for every response that is neither affirmative nor
    negative, returns on the first one that is, and leaves the responses
    after it unread; when the input ends before that, [input] raises after
    the last prompt. *)
Theorem ask_prompt_until_understood (question opps : text) (invalid : list text) :
  forallb not_understood invalid = true ->
  (forall response rest,
     not_understood response = false ->
     ask_prompt question opps None (invalid ++ response :: rest)
     = (concat (map (fun _ => [Prompted question; Said opps]) invalid) ++ [Prompted question],
        Answer (isAffirmative response), rest))
  /\ ask_prompt question opps None invalid
     = (concat (map (fun _ => [Prompted question; Said opps]) invalid) ++ [Prompted question],
        EndOfInput, []).
Proof.
  intros H. split.
  - intros response rest Hr. cbn [ask_prompt]. rewrite ask_loop_invalid by done.
    cbn [ask_loop]. unfold not_understood in Hr.
    destruct (isAffirmative response); [done|]. by destruct (isNegative response).
  - cbn [ask_prompt]. rewrite <- (app_nil_r invalid) at 1.
    by rewrite ask_loop_invalid.
Qed.

Lemma ask_prompt_until_understood_witness :
  ask_prompt (str "Open?") (str "Sorry") None ([str "maybe"; []] ++ str "No" :: [str "y"])
  = ([Prompted (str "Open?"); Said (str "Sorry"); Prompted (str "Open?"); Said (str "Sorry");
      Prompted (str "Open?")],
     Answer false, [str "y"]).
Proof.
  exact (proj1 (ask_prompt_until_understood (str "Open?") (str "Sorry") [str "maybe"; []]
                  eq_refl) (str "No") [str "y"] eq_refl).
Defined.

(** X16: the answer does not depend on the case of the letters of a
    response, no response is both affirmative and negative, and with a
    default exactly one response is read and nothing but the prompt is
    shown. *)
Theorem ask_prompt_answers (question opps : text) (default : option bool)
    (response : text) (rest : list text) :
  ask_prompt question opps default (lower response :: rest)
  = ask_prompt question opps default (response :: rest)
  /\ (isAffirmative response && isNegative response = false)
  /\ forall d, exists b,
       ask_prompt question opps (Some d) (response :: rest) = ([Prompted question], Answer b, rest)
       /\ (b = true <-> isAffirmative response = true
                        \/ (d = true /\ isNegative response = false)).
Proof.
  assert (Ha : isAffirmative (lower response) = isAffirmative response)
    by (unfold isAffirmative; by rewrite lower_idempotent).
  assert (Hn : isNegative (lower response) = isNegative response)
    by (unfold isNegative; by rewrite lower_idempotent).
  assert (Hx : isAffirmative response && isNegative response = false).
  { destruct (isAffirmative response) eqn:E; [|done]. cbn [andb].
    unfold isAffirmative, AFFIRMATIVE_ANSWERS in E. cbn [existsb] in E. unfold isNegative.
    repeat (apply orb_true_iff in E as [E | E];
            [apply text_eqb_eq in E; rewrite E; reflexivity|]).
    discriminate E. }
  split; [|split; [exact Hx|]].
  - destruct default as [d|]; cbn [ask_prompt ask_loop]; by rewrite Ha, Hn.
  - intros d. eexists. split; [reflexivity|].
    destruct (isAffirmative response), (isNegative response), d; try discriminate Hx;
      split; intros H; try done; try (by left); try (by right);
      destruct H as [H | [H1 H2]]; done.
Qed.

(** ** The tools around the file *)

Lemma first_existing_none (path_exists : text -> bool) (paths : list text) :
  first_existing path_exists paths = None <->
  forall p, p ∈ paths -> path_exists p = false.
Proof.
  induction paths as [|q paths IH]; cbn [first_existing].
  - split; [|done]. intros _ p Hp. inversion Hp.
  - destruct (path_exists q) eqn:E.
    + split; [done|]. intros H. rewrite H in E; [done|left].
    + rewrite IH. split.
      * intros H p Hp. apply elem_of_cons in Hp as [-> | Hp]; [done|by apply H].
      * intros H p Hp. apply H. by right.
Qed.

Lemma first_existing_some (path_exists : text -> bool) (paths : list text) (p : text) :
  first_existing path_exists paths = Some p ->
  path_exists p = true /\
  exists before after, paths = before ++ p :: after /\
                       Forall (fun q => path_exists q = false) before.
Proof.
  induction paths as [|q paths IH]; cbn [first_existing]; [done|].
  destruct (path_exists q) eqn:E.
  - intros [= <-]. split; [done|]. exists [], paths. split; [done|constructor].
  - intros H. destruct (IH H) as (Hp & before & after & -> & Hb).
    split; [done|]. exists (q :: before), after. split; [done|by constructor].
Qed.

(** X17: [find_xmgrace_folder] returns the first of its five locations that
    exists, in the order of the source, and [None] exactly when none of
    them exists. *)
Theorem find_xmgrace_folder_first (path_exists : text -> bool) :
  (find_xmgrace_folder path_exists = None <->
   forall p, p ∈ POSSIBLE_PATHS -> path_exists p = false)
  /\ forall p, find_xmgrace_folder path_exists = Some p ->
       path_exists p = true /\
       exists before after, POSSIBLE_PATHS = before ++ p :: after /\
                            Forall (fun q => path_exists q = false) before.
Proof. split; [apply first_existing_none|apply first_existing_some]. Qed.

Lemma first_line_prefix (s : text) : exists rest, s = first_line s ++ rest.
Proof.
  induction s as [|c s [rest IH]]; [by exists []|].
  cbn [first_line]. destruct (ascii_eqb c NL) eqn:E.
  - apply ascii_eqb_true in E as ->. by exists s.
  - exists rest. cbn [app]. by rewrite <- IH.
Qed.

Lemma is_valid_file_starts (content : text) :
  is_valid_file content = true <->
  startswith STARTING_LINE (universal_newlines content) = true.
Proof.
  unfold is_valid_file, readline. rewrite text_eqb_eq, startswith_prefix. split.
  - intros H. destruct (first_line_prefix (universal_newlines content)) as [rest Hr].
    exists rest. by rewrite <- H.
  - intros [rest ->]. reflexivity.
Qed.

(** A text whose translation starts with a line starts with that line,
    ended by LF or by CR. *)
Lemma translate_line_start (p r s : text) :
  NL ∉ p -> translate_newlines false s = p ++ NL :: r ->
  exists rest, s = p ++ NL :: rest \/ s = p ++ CR :: rest.
Proof.
  revert s. induction p as [|a p IH]; intros s Hp H.
  - destruct s as [|c s]; [done|]. cbn [translate_newlines app] in H.
    destruct (ascii_eqb c CR) eqn:Ec.
    + apply ascii_eqb_true in Ec as ->. exists s. by right.
    + destruct (ascii_eqb c NL) eqn:En.
      * apply ascii_eqb_true in En as ->. exists s. by left.
      * injection H as -> _. by rewrite ascii_eqb_refl in En.
  - destruct s as [|c s]; [done|]. cbn [translate_newlines app] in H.
    apply not_elem_of_cons in Hp as [Ha Hp].
    destruct (ascii_eqb c CR) eqn:Ec; [by injection H as <- _|].
    destruct (ascii_eqb c NL) eqn:En; [by injection H as <- _|].
    injection H as -> H. destruct (IH s Hp H) as [rest [-> | ->]]; exists rest; [by left|by right].
Qed.

Lemma starting_line_no_cr : CR ∉ STARTING_LINE.
Proof. intros H. by apply member_elem in H. Qed.

Lemma valid_line_start (content : text) :
  is_valid_file content = true <->
  exists rest, content = str "# Grace project file" ++ NL :: rest \/
               content = str "# Grace project file" ++ CR :: rest.
Proof.
  rewrite is_valid_file_starts, startswith_prefix. unfold universal_newlines. split.
  - intros [r H]. apply (translate_line_start _ r); [|exact H].
    intros Hn. by apply member_elem in Hn.
  - intros [rest [-> | ->]].
    + rewrite translate_app by (intros Hc; by apply member_elem in Hc).
      cbn [translate_newlines]. change (ascii_eqb NL CR) with false.
      change (ascii_eqb NL NL) with true. cbv iota. by eexists.
    + rewrite translate_app by (intros Hc; by apply member_elem in Hc).
      cbn [translate_newlines]. change (ascii_eqb CR CR) with true. cbv iota. by eexists.
Qed.

Lemma starting_line_classify (g : Graph) (group : option Z) :
  current_group group STARTING_LINE = Ok group /\
  classify g group STARTING_LINE = Ok (Append [STARTING_LINE]).
Proof.
  split; [done|]. unfold classify.
  change (is_legend STARTING_LINE) with false.
  change (startswith SUBTITLE_START STARTING_LINE) with false.
  change (startswith TARGET_START STARTING_LINE) with false.
  change (startswith DESCRIPTION_START STARTING_LINE) with false.
  change (startswith PAGE_SIZE_START STARTING_LINE) with false.
  cbv iota. by rewrite andb_false_r.
Qed.

(** X18: a file is valid exactly when its content starts with
    [# Grace project file] followed by the end of a line, which the reading
    of the code takes to be LF, CR LF or CR; and a run of [create_file] on a
    valid file, or from a valid template, writes a valid file, so that
    [open] does not reject the file that the run has just written. *)
Theorem valid_file_kept (g : Graph) (template : text) (existing : option text)
    (out : outcome) :
  (forall content,
     is_valid_file content = true <->
     exists rest, content = str "# Grace project file" ++ NL :: rest \/
                  content = str "# Grace project file" ++ CR :: rest) /\
  (is_valid_file (default template existing) = true ->
   create_file g template existing = Ok out ->
   is_valid_file (file_content out) = true).
Proof.
  split; [apply valid_line_start|].
  intros Hv H. apply is_valid_file_starts in Hv. apply startswith_prefix in Hv as [rest Hv].
  unfold create_file, readlines in H. rewrite Hv in H.
  rewrite lines_of_single_line in H by done.
  destruct (merge g (STARTING_LINE :: lines_of rest)) as [lines|] eqn:Hm; [|done].
  cbn [bind] in H. injection H as <-. cbn [file_content].
  destruct (starting_line_classify g None) as [Hg Hc].
  destruct (scan_cons_append _ _ _ _ _ _ _ Hg Hc Hm) as (out' & _ & ->).
  apply is_valid_file_starts. cbn [app concat]. unfold universal_newlines.
  rewrite translate_app by apply starting_line_no_cr. apply startswith_app.
Qed.

Lemma valid_file_kept_witness :
  exists out,
    create_file (Graph_init (str "now") [] one_set) example_template None = Ok out /\
    is_valid_file (file_content out) = true.
Proof.
  destruct (create_file (Graph_init (str "now") [] one_set) example_template None)
    as [out|] eqn:E; [|vm_compute in E; discriminate E].
  exists out. split; [reflexivity|].
  exact (proj2 (valid_file_kept (Graph_init (str "now") [] one_set) example_template None out)
           eq_refl E).
Defined.

(** X19: [create_pdf] runs its four commands in the order of the source and
    stops before the first one whose program is not installed.  It returns
    only when the three programs are installed and [create_eps] is true:
    with [create_eps] false it raises an [AttributeError] after the four
    commands, and the file with the extension eps is not removed. *)
Theorem create_pdf_outcome (which : text -> bool) (path : text) (create_eps : bool) :
  (exists k, fst (create_pdf which path create_eps) = take k (pdf_commands path))
  /\ (snd (create_pdf which path create_eps) = PdfDone <->
      which (str "gracebat") && which (str "epstopdf") && which (str "pdfcrop") && create_eps
      = true)
  /\ (which (str "gracebat") && which (str "epstopdf") && which (str "pdfcrop") = true ->
      create_pdf which path false = (pdf_commands path, PdfAttributeError))
  /\ (forall cmd, cmd ∈ fst (create_pdf which path create_eps) -> startswith (str "rm ") cmd = false).
Proof.
  unfold create_pdf.
  destruct (which (str "gracebat")), (which (str "epstopdf")), (which (str "pdfcrop")),
    create_eps; cbn [negb andb fst snd];
    (split; [first [by exists 0%nat | by exists 1%nat | by exists 2%nat | by exists 4%nat]|]);
    (split; [by split|]); (split; [done|]);
    intros cmd Hcmd;
    repeat (apply elem_of_cons in Hcmd as [-> | Hcmd]; [reflexivity|]); inversion Hcmd.
Qed.

(** ** The path of the figure *)

Lemma split_after_last_none (sep : ascii) (t : text) :
  sep ∉ t -> split_after_last sep t = ([], t).
Proof.
  induction t as [|c t IH]; intros H; [done|]. cbn [split_after_last].
  rewrite IH by (intros Hin; apply H; by right). cbn [is_nil negb].
  assert (Hc : ascii_eqb c sep = false).
  { apply ascii_eqb_false. intros ->. apply H. left. }
  by rewrite Hc.
Qed.

Lemma split_after_last_at (sep : ascii) (h t : text) :
  sep ∉ t -> split_after_last sep (h ++ sep :: t) = (h ++ [sep], t).
Proof.
  intros H. induction h as [|c h IH].
  - cbn [app split_after_last]. rewrite split_after_last_none by done.
    cbn [is_nil negb]. by rewrite ascii_eqb_refl.
  - cbn [app split_after_last]. rewrite IH. by destruct h.
Qed.

Lemma rstrip_char_kept (c : ascii) (s : text) (a : ascii) :
  a <> c -> rstrip_char c ((s ++ [a]) ++ [c]) = s ++ [a].
Proof.
  intros Ha. unfold rstrip_char. rewrite !reverse_app. cbn [reverse app].
  change (reverse [c]) with [c]. change (reverse [a]) with [a]. cbn [app lstrip_char].
  rewrite ascii_eqb_refl.
  assert (Hac : ascii_eqb a c = false) by (by apply ascii_eqb_false).
  rewrite Hac. change (a :: reverse s) with ([a] ++ reverse s).
  by rewrite reverse_app, reverse_involutive.
Qed.

Lemma path_splitext_name (name ext : text) :
  SLASH ∉ name -> SLASH ∉ ext -> DOT ∉ ext -> forallb (ascii_eqb DOT) name = false ->
  path_splitext (name ++ DOT :: ext) = (name, DOT :: ext).
Proof.
  intros Hn He Hd Hdots. unfold path_splitext.
  rewrite split_after_last_none.
  2:{ intros H. apply elem_of_app in H as [H | H]; [done|].
      apply elem_of_cons in H as [H | H]; [discriminate H|done]. }
  rewrite split_after_last_at by done.
  rewrite reverse_app. change (reverse [DOT]) with [DOT]. cbn [app].
  assert (Hr : forallb (ascii_eqb DOT) (reverse name) = false).
  { apply not_true_is_false. intros H. rewrite forallb_forall in H.
    apply not_true_iff_false in Hdots. apply Hdots. apply forallb_forall.
    intros x Hx. apply H. apply list_elem_of_In. apply elem_of_reverse.
    by apply list_elem_of_In. }
  by rewrite Hr, reverse_involutive.
Qed.

(** X20: the figure is written beside the file: for a file [name.ext] in the
    directory [dir], the commands of [create_pdf] use the prefix
    [dir/fig_name]; and without a directory, [fig_name]. *)
Theorem figure_beside_file (dir name ext : text) (c : ascii) :
  SLASH ∉ name -> SLASH ∉ ext -> DOT ∉ ext -> forallb (ascii_eqb DOT) name = false ->
  c <> SLASH ->
  figure_prefix (name ++ DOT :: ext) = str "fig_" ++ name
  /\ figure_prefix ((dir ++ [c]) ++ SLASH :: name ++ DOT :: ext)
     = (dir ++ [c]) ++ SLASH :: str "fig_" ++ name.
Proof.
  intros Hn He Hd Hdots Hc.
  assert (Hfile : SLASH ∉ name ++ DOT :: ext).
  { intros H. apply elem_of_app in H as [H | H]; [done|].
    apply elem_of_cons in H as [H | H]; [discriminate H|done]. }
  split.
  - unfold figure_prefix, path_split. rewrite split_after_last_none by done.
    cbn [is_nil negb andb]. rewrite path_splitext_name by done. reflexivity.
  - unfold figure_prefix, path_split. rewrite split_after_last_at by done.
    assert (Hnil : is_nil ((dir ++ [c]) ++ [SLASH]) = false) by (by destruct dir).
    assert (Hall : forallb (ascii_eqb SLASH) ((dir ++ [c]) ++ [SLASH]) = false).
    { rewrite !forallb_app. cbn [forallb].
      assert (Hsc : ascii_eqb SLASH c = false) by (apply ascii_eqb_false; congruence).
      rewrite Hsc. cbn [andb]. by rewrite andb_false_r. }
    rewrite Hnil, Hall. cbn [negb andb]. rewrite rstrip_char_kept by done.
    rewrite path_splitext_name by done. unfold path_join.
    change (startswith [SLASH] (str "fig_" ++ name)) with false. cbv iota.
    rewrite last_snoc. assert (Hcs : ascii_eqb c SLASH = false) by (by apply ascii_eqb_false).
    by rewrite Hcs.
Qed.

Lemma figure_beside_file_witness :
  figure_prefix (str "testing" ++ DOT :: str "agr") = str "fig_testing"
  /\ figure_prefix ((str "examples/after_edi" ++ ["t"%char]) ++ SLASH :: str "testing" ++ DOT :: str "agr")
     = str "examples/after_edit/fig_testing".
Proof.
  apply (figure_beside_file (str "examples/after_edi") (str "testing") (str "agr") "t"%char).
  - intros H. repeat (apply elem_of_cons in H as [H | H]; [discriminate H|]). inversion H.
  - intros H. repeat (apply elem_of_cons in H as [H | H]; [discriminate H|]). inversion H.
  - intros H. repeat (apply elem_of_cons in H as [H | H]; [discriminate H|]). inversion H.
  - reflexivity.
  - discriminate.
Defined.

(** ** The end of a run *)

Lemma answers_exclusive (response : text) :
  isAffirmative response = true -> isNegative response = false.
Proof.
  unfold isAffirmative, AFFIRMATIVE_ANSWERS. cbn [existsb]. intros E. unfold isNegative.
  repeat (apply orb_true_iff in E as [E | E];
          [apply text_eqb_eq in E; rewrite E; reflexivity|]).
  discriminate E.
Qed.

(** X21: after the file is written, xmgrace is run exactly when the graph
    was made with a true [prompt], or without a [prompt] and the response
    read is not negative, and the file is valid and xmgrace is installed.
    With a [prompt] nothing is asked and no response is read.  When [open]
    raises, no command is run: the figure is not made. *)
Theorem xmgrace_opened (which : text -> bool) (prompt : option bool)
    (path content : text) (inputs : list text)
    (out : list shown) (cmds : list text) (r : finished) (unread : list text) :
  open_and_print which prompt path content inputs = (out, cmds, r, unread) ->
  ((str "xmgrace " ++ path) ∈ cmds <->
   wants_open prompt inputs && is_valid_file content && which (str "xmgrace") = true)
  /\ (forall b, prompt = Some b -> out = [] /\ unread = inputs)
  /\ (forall msg, r = OpenFailed msg -> cmds = []).
Proof.
  assert (Hpdf : (str "xmgrace " ++ path) ∉ fst (create_pdf which path true)).
  { intros H. unfold create_pdf in H.
    destruct (which (str "gracebat")), (which (str "epstopdf")), (which (str "pdfcrop"));
      cbn [negb fst] in H;
      repeat (apply elem_of_cons in H as [H | H]; [discriminate H|]); inversion H. }
  assert (Hb : forall (b : bool) (out0 : list shown) (unread0 : list text),
    (let '(opened, failure) := if b then XMGrace_open which path content else ([], None) in
     match failure with
     | Some msg => (out0, opened, OpenFailed msg, unread0)
     | None => let '(cmds, r) := create_pdf which path true in
               (out0, opened ++ cmds, PdfCalled r, unread0)
     end) = (out, cmds, r, unread) ->
    out = out0 /\ unread = unread0 /\
    ((str "xmgrace " ++ path) ∈ cmds <->
     b && is_valid_file content && which (str "xmgrace") = true)
    /\ (forall msg, r = OpenFailed msg -> cmds = [])).
  { intros b out0 unread0 H.
    destruct (create_pdf which path true) as [cmds' r'] eqn:Ec. cbn [fst] in Hpdf.
    destruct b; unfold XMGrace_open in H.
    - destruct (is_valid_file content); cbn [negb andb] in *.
      + destruct (which (str "xmgrace")); cbn [negb] in H.
        * injection H as <- <- <- <-.
          split; [done|]. split; [done|]. split; [|done]. split; [done|]. intros _. left.
        * injection H as <- <- <- <-.
          split; [done|]. split; [done|]. split; [|done]. split; [by inversion 1|done].
      + injection H as <- <- <- <-.
        split; [done|]. split; [done|]. split; [|done]. split; [by inversion 1|done].
    - injection H as <- <- <- <-. cbn [app andb].
      split; [done|]. split; [done|]. split; [|done]. split; [done|done]. }
  unfold open_and_print. destruct prompt as [b|].
  - intros H. apply Hb in H as (-> & -> & Hin & Hfail).
    split; [exact Hin|]. split; [done|exact Hfail].
  - unfold ask_prompt. destruct inputs as [|response rest].
    + intros [= <- <- <- <-]. split; [split; [by inversion 1|done]|]. split; [done|done].
    + intros H. apply Hb in H as (-> & -> & Hin & Hfail).
      split; [|split; [done|exact Hfail]].
      rewrite Hin. cbn [wants_open].
      pose proof (answers_exclusive response) as Hx.
      destruct (isAffirmative response); [by rewrite Hx|].
      by destruct (isNegative response).
Qed.

Lemma xmgrace_opened_witness :
  ((str "xmgrace " ++ str "a.agr") ∈
     [str "xmgrace " ++ str "a.agr"] ++ pdf_commands (str "a.agr") <->
   wants_open None [str "Yes"] && is_valid_file STARTING_LINE && true = true)
  /\ (forall b, @None bool = Some b -> [Prompted OPEN_QUESTION] = [] /\ @nil text = [str "Yes"])
  /\ (forall msg, PdfCalled PdfDone = OpenFailed msg ->
        [str "xmgrace " ++ str "a.agr"] ++ pdf_commands (str "a.agr") = []).
Proof.
  exact (xmgrace_opened (fun _ => true) None (str "a.agr") STARTING_LINE [str "Yes"]
           [Prompted OPEN_QUESTION]
           ([str "xmgrace " ++ str "a.agr"] ++ pdf_commands (str "a.agr"))
           (PdfCalled PdfDone) [] eq_refl).
Defined.

Lemma runs_no_space (s : text) :
  Forall (fun c => is_space c = false) s -> runs s = (s, []).
Proof.
  induction 1 as [|c s Hc _ IH]; [done|]. cbn [runs]. by rewrite IH, Hc.
Qed.

Lemma runs_spaces (w : text) : Forall (fun c => is_space c = true) w -> runs w = ([], []).
Proof.
  induction 1 as [|c w Hc _ IH]; [done|]. cbn [runs]. by rewrite IH, Hc.
Qed.

Lemma runs_app_spaces (s w : text) :
  Forall (fun c => is_space c = true) w -> runs (s ++ w) = runs s.
Proof.
  intros Hw. induction s as [|c s IH]; [by apply runs_spaces|].
  cbn [app runs]. by rewrite IH.
Qed.

Lemma runs_token (t s : text) (c : ascii) :
  Forall (fun c => is_space c = false) t -> is_space c = true ->
  runs (t ++ c :: s) = (t, split_ws s).
Proof.
  intros Ht Hc. induction Ht as [|b t Hb _ IH].
  - cbn [app runs]. unfold split_ws. destruct (runs s) as [run others]. by rewrite Hc.
  - cbn [app runs]. by rewrite IH, Hb.
Qed.

Lemma split_ws_lstrip (s : text) : split_ws (lstrip s) = split_ws s.
Proof.
  induction s as [|c s IH]; [done|]. cbn [lstrip].
  destruct (is_space c) eqn:Hc; [|done]. rewrite IH. unfold split_ws. cbn [runs].
  destruct (runs s) as [run others]. rewrite Hc. unfold cons_run at 1. done.
Qed.

Lemma lstrip_spaces (s : text) :
  exists w, s = w ++ lstrip s /\ Forall (fun c => is_space c = true) w.
Proof.
  induction s as [|c s (w & IH & Hw)]; [by exists []|]. cbn [lstrip].
  destruct (is_space c) eqn:Hc.
  - exists (c :: w). split; [by rewrite <- app_comm_cons, <- IH|by constructor].
  - by exists [].
Qed.

Lemma rstrip_spaces (s : text) :
  exists w, s = rstrip s ++ w /\ Forall (fun c => is_space c = true) w.
Proof.
  destruct (lstrip_spaces (reverse s)) as (w & E & Hw).
  exists (reverse w). split; [|by apply Forall_reverse].
  unfold rstrip. rewrite <- reverse_app, <- E. by rewrite reverse_involutive.
Qed.

Lemma split_ws_strip (s : text) : split_ws (strip s) = split_ws s.
Proof.
  unfold strip. rewrite <- (split_ws_lstrip s).
  destruct (rstrip_spaces (lstrip s)) as (w & E & Hw).
  rewrite E at 2. unfold split_ws. by rewrite runs_app_spaces.
Qed.

Lemma lstrip_head (c : ascii) (s : text) : is_space c = false -> lstrip (c :: s) = c :: s.
Proof. intros H. cbn [lstrip]. by rewrite H. Qed.

Lemma rstrip_last (s : text) (z : ascii) : is_space z = false -> rstrip (s ++ [z]) = s ++ [z].
Proof.
  intros H. unfold rstrip. rewrite reverse_app. cbn [reverse app].
  change (reverse [z]) with [z]. cbn [app]. rewrite lstrip_head by done.
  rewrite reverse_cons, reverse_involutive. done.
Qed.

Lemma rstrip_newline (s : text) : rstrip (s ++ [NL]) = rstrip s.
Proof. unfold rstrip. rewrite reverse_app. done. Qed.

(** A line without white space at its two ends is stripped of its newline. *)
Lemma strip_line (c z : ascii) (s : text) :
  is_space c = false -> is_space z = false ->
  strip (c :: s ++ [z; NL]) = c :: s ++ [z].
Proof.
  intros Hc Hz. unfold strip. rewrite lstrip_head by done.
  change (c :: s ++ [z; NL]) with ((c :: s) ++ [z; NL]).
  replace ((c :: s) ++ [z; NL]) with (((c :: s) ++ [z]) ++ [NL]) by (by rewrite <- app_assoc).
  rewrite rstrip_newline. by apply rstrip_last.
Qed.

Lemma split_parts_absent (sep : ascii) (s : text) : sep ∉ s -> split_parts sep s = (s, []).
Proof.
  induction s as [|c s IH]; [done|]. intros H. cbn [split_parts].
  rewrite IH by (intros Hin; apply H; by right).
  assert (Hc : ascii_eqb c sep = false) by (apply ascii_eqb_false; intros ->; apply H; left).
  by rewrite Hc.
Qed.

Lemma split_at_one (sep : ascii) (a b : text) :
  sep ∉ a -> sep ∉ b -> split_at sep (a ++ sep :: b) = [a; b].
Proof.
  intros Ha Hb. unfold split_at. induction a as [|c a IH].
  - cbn [app split_parts]. rewrite split_parts_absent by done. by rewrite ascii_eqb_refl.
  - cbn [app split_parts].
    assert (Hc : ascii_eqb c sep = false) by (apply ascii_eqb_false; intros ->; apply Ha; left).
    destruct (split_parts sep (a ++ sep :: b)) as [part parts].
    rewrite Hc. assert (Hin : sep ∉ a) by (intros Hin; apply Ha; by right).
    specialize (IH Hin). by injection IH as -> ->.
Qed.

Lemma split_last_snoc {A : Type} (l : list A) (a : A) : split_last (l ++ [a]) = Some (l, a).
Proof. induction l as [|b l IH]; [done|]. cbn [app split_last]. by rewrite IH. Qed.

Lemma digit_is_not_space (c : ascii) : is_digit c = true -> is_space c = false.
Proof. all_chars c. Qed.

Lemma digit_is_not_dot (c : ascii) : is_digit c = true -> c <> DOT.
Proof. all_chars c. Qed.

Lemma digits_no_space (ds : text) :
  Forall (fun c => is_digit c = true) ds -> Forall (fun c => is_space c = false) ds.
Proof. intros H. eapply Forall_impl; [exact H|]. apply digit_is_not_space. Qed.

Lemma digits_no_dot (ds : text) : Forall (fun c => is_digit c = true) ds -> DOT ∉ ds.
Proof.
  intros H Hin. rewrite Forall_forall in H. by apply (digit_is_not_dot DOT (H _ Hin)).
Qed.

(** The reader finds the two indices that [Group.as_list] wrote. *)
Lemma read_target_line {X : Type} (G S : Z) :
  0 <= G -> 0 <= S ->
  startswith TARGET_START (strip (target_line G S)) = true /\
  @read_target X (strip (target_line G S)) = ReadOk (G, S).
Proof.
  intros HG HS.
  destruct (str_of_Z_digits G HG) as [HdG HnG]. destruct (str_of_Z_digits S HS) as [HdS HnS].
  assert (Hlast : exists ds z, str_of_Z S = ds ++ [z] /\ is_space z = false).
  { destruct (last (str_of_Z S)) as [z|] eqn:El.
    - apply last_Some in El as [ds El]. exists ds, z. split; [done|].
      apply digit_is_not_space. rewrite Forall_forall in HdS. apply HdS. rewrite El.
      apply elem_of_app. right. left.
    - by apply last_None in El. }
  destruct Hlast as (ds & z & Ez & Hz).
  assert (E : strip (target_line G S)
              = str "@target" ++ SPACE :: (str "G" ++ str_of_Z G) ++ DOT :: str "S" ++ str_of_Z S).
  { unfold target_line. rewrite Ez.
    replace (str "@target G" ++ str_of_Z G ++ str ".S" ++ (ds ++ [z]) ++ [NL])
      with (AT :: (str "target G" ++ str_of_Z G ++ str ".S" ++ ds) ++ [z; NL]).
    2:{ cbn [str list_ascii_of_string app]. rewrite <- !app_assoc. done. }
    rewrite strip_line by done.
    cbn [str list_ascii_of_string app]. rewrite <- !app_assoc. done. }
  rewrite E. split; [done|].
  unfold read_target, split_ws.
  rewrite runs_token; [|by repeat constructor|done].
  unfold split_ws. rewrite runs_no_space.
  2:{ apply Forall_app. split.
      - apply Forall_app. split; [by repeat constructor|by apply digits_no_space].
      - constructor; [done|]. constructor; [done|]. by apply digits_no_space. }
  cbn [cons_run is_nil app str list_ascii_of_string].
  rewrite app_comm_cons.
  rewrite split_at_one.
  - cbn [drop]. rewrite !drop_0. unfold read_int, int_of_text.
    rewrite !py_int_numeral by done. done.
  - intros H. apply elem_of_cons in H as [H | H]; [discriminate H|].
    by apply digits_no_dot in H.
  - intros H. apply elem_of_cons in H as [H | H]; [discriminate H|].
    by apply digits_no_dot in H.
Qed.

Lemma contains_cons (needle s : text) (c : ascii) :
  contains needle (c :: s) = startswith needle (c :: s) || contains needle s.
Proof. reflexivity. Qed.

Lemma remove_all_fuel_absent (fuel : nat) (old s : text) :
  contains old s = false -> remove_all_fuel fuel old s = s.
Proof.
  revert s. induction fuel as [|fuel IH]; intros s H; [done|].
  destruct s as [|c s]; [done|]. rewrite remove_all_fuel_S.
  rewrite contains_cons in H. apply orb_false_iff in H as [-> H]. by rewrite IH.
Qed.

Lemma remove_all_type_start (s : text) :
  contains TYPE_START s = false -> remove_all TYPE_START (TYPE_START ++ s) = s.
Proof.
  intros H. unfold remove_all.
  change (TYPE_START ++ s) with (AT :: str "type " ++ s) at 1 2.
  cbn [length]. rewrite remove_all_fuel_S.
  change (AT :: str "type " ++ s) with (TYPE_START ++ s).
  rewrite startswith_app, drop_app_length. by apply remove_all_fuel_absent.
Qed.

(** The reader finds the datatype that [Set.as_list] wrote. *)
Lemma read_type_line (datatype : text) :
  readable_datatype datatype = true ->
  let line := strip (TYPE_START ++ datatype ++ [NL]) in
  startswith TARGET_START line = false /\ startswith TYPE_START line = true /\
  remove_all TYPE_START line = datatype.
Proof.
  unfold readable_datatype. intros H. apply andb_true_iff in H as [Hl Hc].
  apply negb_true_iff in Hc.
  destruct (last datatype) as [z|] eqn:El; [|done]. apply negb_true_iff in Hl.
  apply last_Some in El as [dt ->].
  assert (E : strip (TYPE_START ++ (dt ++ [z]) ++ [NL]) = TYPE_START ++ dt ++ [z]).
  { replace (TYPE_START ++ (dt ++ [z]) ++ [NL]) with (AT :: (str "type " ++ dt) ++ [z; NL]).
    2:{ cbn [TYPE_START str list_ascii_of_string app]. rewrite <- !app_assoc. done. }
    rewrite strip_line by done. cbn [TYPE_START str list_ascii_of_string app].
    by rewrite <- ?app_assoc. }
  cbv zeta. rewrite E. split; [done|]. split; [apply startswith_app|].
  by apply remove_all_type_start.
Qed.

Lemma numeric_char_plain (c : ascii) :
  numeric_char c = true \/ c = DQUOTE ->
  is_space c = false /\ ascii_eqb AT c = false /\ ascii_eqb c AMPERSAND = false.
Proof. intros [H | ->]; [|done]. revert H. all_chars c. Qed.

Lemma fields_shape (en : entry) :
  Forall (fun t => numeric t \/ exists s, t = DQUOTE :: s) (fields en).
Proof.
  induction en as [|d en IH]; [constructor|]. rewrite fields_cons.
  destruct (field d) as [t|] eqn:E; [|done]. constructor; [|done]. by apply field_shape in E.
Qed.

(** The first character of a line of components that is not white space
    belongs to a numeral or is a double quote. *)
Lemma lstrip_join (fs : list text) :
  Forall (fun t => numeric t \/ exists s, t = DQUOTE :: s) fs ->
  match lstrip (join [SPACE] fs ++ [NL]) with
  | [] => True
  | c :: _ => numeric_char c = true \/ c = DQUOTE
  end.
Proof.
  induction 1 as [|p fs Hp Hfs IH]; [done|].
  destruct p as [|c p].
  - destruct fs as [|q fs]; [done|]. exact IH.
  - assert (Hc : numeric_char c = true \/ c = DQUOTE).
    { destruct Hp as [Hp | [s [= -> _]]]; [left; by inversion Hp|by right]. }
    destruct (numeric_char_plain c Hc) as (Hs & _).
    destruct fs as [|q fs]; cbn [join app]; rewrite <- ?app_comm_cons;
      rewrite lstrip_head by done; exact Hc.
Qed.

Lemma rstrip_head (c : ascii) (s : text) :
  is_space c = false -> exists s', rstrip (c :: s) = c :: s'.
Proof.
  intros Hc. destruct (rstrip_spaces (c :: s)) as (w & E & Hw).
  destruct (rstrip (c :: s)) as [|c' s'].
  - cbn [app] in E. subst w. inversion Hw as [|? ? Hx _]. congruence.
  - injection E as <- _. eauto.
Qed.

Lemma lstrip_first (s : text) :
  match lstrip s with
  | [] => True
  | c :: _ => is_space c = false
  end.
Proof.
  induction s as [|c s IH]; [done|]. cbn [lstrip]. by destruct (is_space c) eqn:E.
Qed.

Lemma strip_first (s : text) :
  match lstrip s with
  | [] => strip s = []
  | c :: _ => exists s', strip s = c :: s'
  end.
Proof.
  unfold strip. pose proof (lstrip_first s) as H.
  destruct (lstrip s) as [|c r]; [done|]. by apply rstrip_head.
Qed.

(** The reader takes the line of an entry for a tuple. *)
Lemma read_entry_line (en : entry) :
  dropped en = false ->
  let line := strip (entry_line en) in
  startswith TARGET_START line = false /\ startswith TYPE_START line = false /\
  text_eqb line (str "&") = false.
Proof.
  intros Hd.
  assert (E : entry_line en = join [SPACE] (fields en) ++ [NL]).
  { unfold entry_line. by rewrite clean_entry_kept. }
  pose proof (lstrip_join (fields en) (fields_shape en)) as Hl. rewrite <- E in Hl.
  pose proof (strip_first (entry_line en)) as Hs. cbv zeta.
  destruct (lstrip (entry_line en)) as [|c r]; [by rewrite Hs|].
  destruct Hs as [s' ->]. destruct (numeric_char_plain c Hl) as (_ & Ha & Hb).
  cbn [TARGET_START TYPE_START str list_ascii_of_string startswith text_eqb].
  change (ascii_eqb "@" c) with (ascii_eqb AT c). change (ascii_eqb c "&") with (ascii_eqb c AMPERSAND).
  by rewrite Ha, Hb.
Qed.

Lemma read_bind_ok {X A : Type} (r : read_result X A) : read_bind r ReadOk = r.
Proof. by destruct r. Qed.

Lemma skip_lines {V X : Type} (literal_eval : text -> V + X) (ls rest : list text)
    (data : list (portion V)) :
  Forall (fun l => target_for_reader l = false) ls ->
  read_lines literal_eval (ls ++ rest) data None = read_lines literal_eval rest data None.
Proof.
  induction 1 as [|l ls Hl _ IH]; [done|].
  cbn [app read_lines]. unfold read_line. unfold target_for_reader in Hl. by rewrite Hl.
Qed.

Lemma read_entries {V X : Type} (literal_eval : text -> V + X) (ens : list entry)
    (rest : list text) (data : list (portion V)) (G S : Z) (datatype : option text)
    (acc : list (list V)) (r : Z * Z) :
  read_lines literal_eval (filter (fun l : text => l <> []) (map entry_line ens) ++ rest)
             (data ++ [mkPortion G S datatype acc]) (Some r)
  = (ts <~ map_read (fun en => eval_tuple literal_eval (split_ws (entry_line en)))
                    (filter (fun en => dropped en = false) ens) ;;
     read_lines literal_eval rest (data ++ [mkPortion G S datatype (acc ++ ts)]) (Some r)).
Proof.
  revert acc. induction ens as [|en ens IH]; intros acc.
  { cbn [map]. rewrite !filter_nil. cbn [app map_read read_bind]. by rewrite app_nil_r. }
  cbn [map]. destruct (dropped en) eqn:Hd.
  - rewrite entry_line_dropped by done.
    rewrite filter_cons_False by (intros H; by apply H).
    rewrite (filter_cons_False _ en) by congruence. apply IH.
  - destruct (entry_line_kept en Hd) as (t & Et & _).
    rewrite filter_cons_True by (rewrite Et; by destruct t).
    rewrite (filter_cons_True _ en) by done.
    destruct (read_entry_line en Hd) as (H1 & H2 & H3).
    cbn [app read_lines map_read]. unfold read_line.
    rewrite H1, H2, H3, split_last_snoc, split_ws_strip.
    destruct (eval_tuple literal_eval (split_ws (entry_line en))) as [tu|e]; [|done].
    cbn [read_bind fst snd portion_group portion_set portion_datatype portion_tuples].
    rewrite IH.
    destruct (map_read _ (filter _ ens)) as [ts|e]; [|done].
    cbn [read_bind]. by rewrite <- app_assoc.
Qed.

Lemma read_block {V X : Type} (literal_eval : text -> V + X) (G S : Z) (s : PlotSet)
    (rest : list text) (data : list (portion V)) :
  0 <= G -> 0 <= S -> readable_datatype (set_datatype s) = true ->
  read_lines literal_eval (filter (fun l : text => l <> []) (block_lines G (S, s)) ++ rest)
             data None
  = (p <~ portion_of literal_eval (G, (S, s)) ;;
     read_lines literal_eval rest (data ++ [p]) None).
Proof.
  intros HG HS Hr. unfold block_lines, set_lines. cbn [fst snd].
  assert (Hne : target_line G S <> []) by apply single_line_nonempty, target_line_single.
  assert (Hty : str "@type " ++ set_datatype s ++ [NL] <> [])
    by (cbn [str list_ascii_of_string app]; discriminate).
  rewrite filter_cons_True by exact Hne.
  rewrite filter_app, filter_cons_True by exact Hty.
  rewrite (filter_cons_True _ END_LINE) by done.
  change (filter (fun l : text => l <> []) []) with (@nil text).
  destruct (@read_target_line X G S HG HS) as [Ht Hrt].
  destruct (read_type_line _ Hr) as (Hy1 & Hy2 & Hy3). cbv zeta in Hy1, Hy2, Hy3.
  cbn [app read_lines]. unfold read_line at 1. rewrite Ht, Hrt.
  cbn [read_bind fst snd]. unfold read_line at 1.
  change (str "@type " ++ set_datatype s ++ [NL]) with (TYPE_START ++ set_datatype s ++ [NL]).
  rewrite Hy1, Hy2, Hy3, split_last_snoc.
  cbn [read_bind fst snd portion_group portion_set portion_tuples].
  rewrite <- app_assoc, read_entries. unfold portion_of. cbn [fst snd].
  destruct (map_read _ (filter _ (set_entries s))) as [ts|e]; [|done].
  cbn [read_bind app read_lines]. unfold read_line.
  change (startswith TARGET_START (strip END_LINE)) with false.
  change (startswith TYPE_START (strip END_LINE)) with false.
  change (text_eqb (strip END_LINE) (str "&")) with true.
  cbn [read_bind fst snd]. done.
Qed.

Lemma read_blocks {V X : Type} (literal_eval : text -> V + X)
    (bs : list (Z * (Z * PlotSet))) (data : list (portion V)) :
  Forall (fun b => 0 <= fst b /\ 0 <= fst (snd b)
                   /\ readable_datatype (set_datatype (snd (snd b))) = true) bs ->
  read_lines literal_eval
    (filter (fun l : text => l <> []) (concat (map (fun b => block_lines (fst b) (snd b)) bs)))
    data None
  = (ps <~ map_read (portion_of literal_eval) bs ;; ReadOk (data ++ ps)).
Proof.
  intros H. revert data. induction H as [|[G [S s]] bs (HG & HS & Hr) _ IH]; intros data.
  { cbn. by rewrite app_nil_r. }
  cbn [map concat fst snd] in *. rewrite filter_app, read_block by done.
  cbn [map_read]. destruct (portion_of literal_eval (G, (S, s))) as [p|e]; [|done].
  cbn [read_bind]. rewrite IH.
  destruct (map_read (portion_of literal_eval) bs) as [ps|e]; [|done].
  cbn [read_bind]. by rewrite <- app_assoc.
Qed.

Lemma data_of_sets (g : Graph) :
  data_of g = concat (map (fun b => block_lines (fst b) (snd b)) (sets_of g)).
Proof.
  unfold data_of, sets_of. induction (data g) as [|gr grs IH]; [done|].
  cbn [map concat]. rewrite map_app, concat_app, <- IH. f_equal.
  unfold group_lines. by rewrite map_map.
Qed.

Lemma sets_of_indices (now desc : text) (datasets : list group_input)
    (b : Z * (Z * PlotSet)) :
  b ∈ sets_of (Graph_init now desc datasets) -> 0 <= fst b /\ 0 <= fst (snd b).
Proof.
  unfold sets_of. cbn [data Graph_init]. intros H.
  apply elem_of_concat in H as (bs & Hb & Hbs).
  apply elem_of_map in Hbs as (gr & -> & Hgr).
  apply elem_of_map in Hgr as ([G_i [G_label sets]] & -> & HG).
  apply elem_of_map in Hb as ([S_i s] & -> & HS). cbn [fst snd make_group group_index].
  apply enumerate_from_elem in HG as [HG _]. apply enumerate_from_elem in HS as [HS _].
  done.
Qed.


Lemma startswith_app_l (p s w : text) : startswith p s = true -> startswith p (s ++ w) = true.
Proof.
  intros H. apply startswith_prefix in H as [r ->]. rewrite <- app_assoc. apply startswith_app.
Qed.

(** A line that starts with an at sign starts a data portion for the
    reader only if it does for the merge. *)
Lemma target_for_reader_at (l : text) :
  startswith [AT] l = true -> startswith TARGET_START l = false ->
  target_for_reader l = false.
Proof.
  intros Ha Ht. apply startswith_prefix in Ha as [r ->]. cbn [app] in *.
  unfold target_for_reader, strip. rewrite lstrip_head by done.
  destruct (startswith TARGET_START (rstrip (AT :: r))) eqn:E; [|done].
  destruct (rstrip_spaces (AT :: r)) as (w & Ew & _).
  apply (startswith_app_l _ _ w) in E. rewrite <- Ew in E. congruence.
Qed.

Section Reading.
Variables (now desc : text) (datasets : list group_input).

Local Abbreviation g := (Graph_init now desc datasets).

Lemma description_not_target (l : text) : l ∈ description g -> target_for_reader l = false.
Proof.
  intros H. pose proof (description_lines_start now desc) as Hd. rewrite Forall_forall in Hd.
  specialize (Hd l H). apply target_for_reader_at.
  - by apply (at_prefix (str "description")).
  - by apply description_prefix in Hd as (_ & _ & ?).
Qed.

Lemma legend_not_target (G s : Z) (l : text) :
  legend_of g G s = Some l -> target_for_reader l = false.
Proof.
  rewrite legend_of_Graph_init. intros H.
  apply supplied_legend_line in H as (Hs & S_label & ->).
  apply target_for_reader_at; [done|].
  by destruct (legend_line_prefix s S_label Hs) as (_ & _ & ? & _).
Qed.

Lemma subtitle_not_target (group : option Z) (l : text) :
  subtitle_of g group = Some l -> target_for_reader l = false.
Proof.
  destruct group as [G|]; [|done]. rewrite subtitle_of_Graph_init. intros H.
  apply supplied_subtitle_line in H. apply target_for_reader_at.
  - by apply (at_prefix (str "    subtitle " ++ [DQUOTE])).
  - by apply subtitle_prefix in H as (_ & ? & _).
Qed.

Lemma label_lines_not_target (l : text) : l ∈ label_lines g -> target_for_reader l = false.
Proof.
  unfold label_lines. intros H. apply elem_of_concat in H as (ls & Hl & Hls).
  apply elem_of_map in Hls as ([G_i sub] & -> & Hp). cbn [fst snd] in Hl.
  apply elem_of_cons in Hl as [-> | Hl]; [by apply target_for_reader_at|].
  apply elem_of_cons in Hl as [-> | Hl].
  - cbn [subtitle Graph_init] in Hp. apply elem_of_map in Hp as (p & [= _ ->] & _).
    by apply target_for_reader_at.
  - destruct (dict_get (legend g) G_i) as [sets|] eqn:E; [|by inversion Hl].
    cbn [default] in Hl. apply elem_of_map in Hl as ([s leg] & -> & Hl). cbn [snd].
    apply dict_get_elem in E. cbn [legend Graph_init] in E.
    apply elem_of_map in E as (p & [= _ ->] & _).
    apply elem_of_map in Hl as ([S_i [[S_label dt] ens]] & [= _ ->] & HS).
    apply enumerate_from_elem in HS as [HS _].
    apply target_for_reader_at; [done|].
    by destruct (legend_line_prefix S_i (label_text S_label) HS) as (_ & _ & ? & _).
Qed.

Lemma readable_sets :
  readable g = true ->
  Forall (fun b => 0 <= fst b /\ 0 <= fst (snd b)
                   /\ readable_datatype (set_datatype (snd (snd b))) = true) (sets_of g).
Proof.
  intros H. apply Forall_forall. intros b Hb.
  destruct (sets_of_indices now desc datasets b Hb) as [HG HS].
  split; [done|]. split; [done|]. unfold readable in H. by apply (forallb_elem _ _ b) in H.
Qed.

(** The reader on a file that ends with the data portion of the graph,
    after lines that do not start a data portion for it. *)
Lemma read_written {V X : Type} (literal_eval : text -> V + X) (header : list text) :
  tidy g = true -> readable g = true ->
  Forall (fun l => one_line l = true /\ target_for_reader l = false) header ->
  get_data_portion literal_eval (concat (header ++ data_of g))
  = map_read (portion_of literal_eval) (sets_of g).
Proof.
  intros Ht Hr Hone. unfold get_data_portion.
  assert (Hh : Forall (fun l => single_line l = true /\ target_for_reader l = false) header).
  { eapply Forall_impl; [exact Hone|]. intros l [Hl ?]. split; [by apply one_line_single|done]. }
  rewrite readlines_concat.
  2:{ apply Forall_app. split; [|by apply data_of_proper].
      eapply Forall_impl; [exact Hh|]. intros l [Hl _]. by right. }
  2:{ apply Forall_app. split; [|by apply data_of_no_cr].
      eapply Forall_impl; [exact Hone|]. intros l [Hl _]. by apply one_line_no_cr. }
  rewrite filter_app, filter_nonempty_single
    by (eapply Forall_impl; [exact Hh|]; by intros l [Hl _]).
  rewrite skip_lines by (eapply Forall_impl; [exact Hh|]; by intros l [_ Hl]).
  rewrite <- (app_nil_r (filter _ (data_of g))), data_of_sets, app_nil_r.
  rewrite read_blocks by (by apply readable_sets).
  cbn [app]. apply read_bind_ok.
Qed.

End Reading.


(** X22: the reader finds what the writer wrote.  On the file that
    [create_file] has written, [get_data_portion] returns one element for
    every set of the graph, in the order of the file, with the indices of
    the group and the set, the datatype, and one tuple for every entry that
    was not skipped: the values of the tokens of its line.  It raises what
    [ast.literal_eval] raises on the first token that it rejects.  The
    datatypes must not end with white space nor contain the directive, the
    lines that the graph writes must be tidy (no LF and no CR in a label, a
    datatype or the description, since the reader takes both for the end
    of a line), and no line of the file before the data portion may start
    a data portion once it is stripped. *)
Theorem data_portion_read_back {V X : Type} (literal_eval : text -> V + X)
    (now desc : text) (datasets : list group_input)
    (template : text) (existing : option text) (out : outcome) :
  tidy (Graph_init now desc datasets) = true ->
  readable (Graph_init now desc datasets) = true ->
  ends_with_newline (default template existing) = true ->
  (forall l, l ∈ before_data (readlines (default template existing)) ->
             target_for_reader l = false) ->
  create_file (Graph_init now desc datasets) template existing = Ok out ->
  get_data_portion literal_eval (file_content out)
  = map_read (portion_of literal_eval) (sets_of (Graph_init now desc datasets)).
Proof.
  intros Ht Hr He Hh H. unfold create_file in H. rewrite merge_header in H.
  destruct (scan_header _ None _) as [[[gp E] found]|] eqn:Hs; [|done].
  cbn [bind fst snd] in H. injection H as <-. cbn [file_content].
  rewrite app_assoc. apply read_written; [done..|].
  pose proof (readlines_one_line _ (ends_with_newline_last _ He)) as Ho.
  rewrite Forall_forall in Ho.
  apply Forall_app. split.
  - apply Forall_forall. intros l Hl.
    destruct (scan_header_lines _ _ _ _ _ _ _ Hs Hl) as [Hb | [Hd | [(G & s & Hg) | (gp' & Hg)]]].
    + split; [by apply Ho, before_data_elem|by apply Hh].
    + split; [by apply (tidy_description_line _ _ Ht)
             |by apply (description_not_target now desc datasets)].
    + split; [by apply (tidy_legend_line _ _ _ _ Ht Hg)
             |by apply (legend_not_target _ _ _ _ _ _ Hg)].
    + split; [by apply (tidy_subtitle_line _ _ _ Ht Hg)
             |by apply (subtitle_not_target _ _ _ _ _ Hg)].
  - destruct found; [constructor|].
    pose proof (label_lines_single _ Ht) as Hl. rewrite Forall_forall in Hl.
    pose proof (label_lines_no_cr _ Ht) as Hc. rewrite Forall_forall in Hc.
    apply Forall_forall. intros l Hin. split; [apply one_line_intro; [by apply Hl|by apply Hc]|].
    by apply (label_lines_not_target now desc datasets).
Qed.

Lemma data_portion_read_back_witness :
  exists out,
    create_file (Graph_init (str "now") [] nan_set) example_template None = Ok out /\
    get_data_portion eval_int (file_content out)
    = ReadOk [mkPortion 0 0 (Some (str "xy")) [[3; 4]]].
Proof.
  destruct (create_file (Graph_init (str "now") [] nan_set) example_template None)
    as [out|] eqn:E; [|vm_compute in E; discriminate E].
  exists out. split; [reflexivity|].
  assert (Hb : forallb (fun l => negb (target_for_reader l))
                 (before_data (readlines (default example_template None))) = true)
    by (vm_compute; reflexivity).
  assert (Hh : forall l, l ∈ before_data (readlines (default example_template None)) ->
                         target_for_reader l = false).
  { intros l Hl. apply negb_true_iff.
    exact (forallb_elem (fun l => negb (target_for_reader l)) _ l Hb Hl). }
  assert (Ht : tidy (Graph_init (str "now") [] nan_set) = true) by (vm_compute; reflexivity).
  assert (Hr : readable (Graph_init (str "now") [] nan_set) = true) by (vm_compute; reflexivity).
  assert (He : ends_with_newline (default example_template None) = true)
    by (vm_compute; reflexivity).
  rewrite (data_portion_read_back eval_int (str "now") [] nan_set example_template None out
             Ht Hr He Hh E).
  vm_compute. reflexivity.
Defined.

Lemma target_tokens (line : text) :
  startswith TARGET_START line = true ->
  exists second others, split_ws line = str "@target" :: second :: others.
Proof.
  intros H. apply startswith_prefix in H as [r ->].
  change (TARGET_START ++ r) with (str "@target" ++ SPACE :: ascii_of_nat 71 :: r).
  unfold split_ws at 1. rewrite runs_token; [|by repeat constructor|done].
  unfold split_ws. cbn [runs]. destruct (runs r) as [run others].
  change (is_space (ascii_of_nat 71)) with false. cbn [cons_run is_nil]. eauto.
Qed.

Lemma read_target_raises {X : Type} (line : text) (e : read_exn X) :
  startswith TARGET_START line = true ->
  read_target line = ReadRaise e ->
  (exists n, e = UnpackError n /\ n <> 2%nat) \/ (exists s, e = IntError (invalid_literal s)).
Proof.
  intros Hs. destruct (target_tokens line Hs) as (second & others & E).
  unfold read_target. rewrite E.
  assert (Hint : forall s (k : Z -> read_result X (Z * Z)),
            (forall n, k n = ReadRaise e -> exists s', e = IntError (invalid_literal s')) ->
            read_bind (read_int s) k = ReadRaise e ->
            exists s', e = IntError (invalid_literal s')).
  { intros s k Hk. unfold read_int, int_of_text.
    destruct (py_int s) as [n|]; cbn [read_bind]; [apply Hk|]. intros [= <-]. eauto. }
  destruct (split_at DOT second) as [|G_part [|S_part [|third parts]]].
  - intros [= <-]. left. eexists. split; [done|]. cbn. lia.
  - intros [= <-]. left. eexists. split; [done|]. cbn. lia.
  - intros H. right. revert H. apply Hint. intros G. apply Hint. intros S_i. done.
  - intros [= <-]. left. eexists. split; [done|]. cbn [length]. lia.
Qed.

Lemma eval_tuple_raises {V X : Type} (literal_eval : text -> V + X) (tokens : list text)
    (e : read_exn X) :
  eval_tuple literal_eval tokens = ReadRaise e ->
  exists token x, token ∈ tokens /\ literal_eval token = inr x /\ e = EvalError x.
Proof.
  unfold eval_tuple. induction tokens as [|t tokens IH]; [done|]. cbn [map_read].
  destruct (literal_eval t) as [v|x] eqn:Et; cbn [read_bind].
  - destruct (map_read _ tokens) as [vs|e'] eqn:Em; [done|]. cbn [read_bind].
    intros [= <-]. destruct (IH eq_refl) as (token & x & Hin & Hx & ->).
    exists token, x. split; [by right|done].
  - intros [= <-]. exists t, x. split; [left|done].
Qed.

Lemma split_last_none {A : Type} (l : list A) : split_last l = None -> l = [].
Proof.
  destruct l as [|a l]; [done|]. cbn [split_last]. by destruct (split_last l) as [[init z]|].
Qed.

(** An iteration of the reader keeps [data] non-empty while [reading] is
    set, and raises no [IndexError]. *)
Lemma read_line_step {V X : Type} (literal_eval : text -> V + X)
    (data : list (portion V)) (reading : option (Z * Z)) (raw : text) :
  (reading <> None -> data <> []) ->
  match read_line literal_eval data reading raw with
  | ReadOk st => snd st <> None -> fst st <> []
  | ReadRaise e =>
      (exists n, e = UnpackError n /\ n <> 2%nat) \/
      (exists s, e = IntError (invalid_literal s)) \/
      (exists token x, literal_eval token = inr x /\ e = EvalError x)
  end.
Proof.
  intros Hinv. unfold read_line.
  destruct (startswith TARGET_START (strip raw)) eqn:Ht.
  { destruct (read_target (strip raw)) as [r|e] eqn:Er; cbn [read_bind fst snd].
    - intros _ H. by apply app_nil in H as [_ H].
    - destruct (read_target_raises _ _ Ht Er) as [H | H]; [by left|right; by left]. }
  destruct reading as [r|]; [|done]. specialize (Hinv ltac:(done)).
  destruct (split_last data) as [[init p]|] eqn:El; [|by apply split_last_none in El].
  destruct (startswith TYPE_START (strip raw)).
  { cbn [fst snd]. intros _ H. by apply app_nil in H as [_ H]. }
  destruct (text_eqb (strip raw) (str "&")); [done|].
  destruct (eval_tuple literal_eval (split_ws (strip raw))) as [t|e] eqn:Ee; cbn [read_bind fst snd].
  - intros _ H. by apply app_nil in H as [_ H].
  - right. right. destruct (eval_tuple_raises _ _ _ Ee) as (token & x & _ & Hx & ->). eauto.
Qed.

Lemma read_lines_raises {V X : Type} (literal_eval : text -> V + X) (lines : list text)
    (data : list (portion V)) (reading : option (Z * Z)) (e : read_exn X) :
  (reading <> None -> data <> []) ->
  read_lines literal_eval lines data reading = ReadRaise e ->
  (exists n, e = UnpackError n /\ n <> 2%nat) \/
  (exists s, e = IntError (invalid_literal s)) \/
  (exists token x, literal_eval token = inr x /\ e = EvalError x).
Proof.
  revert data reading. induction lines as [|raw lines IH]; intros data reading Hinv; [done|].
  cbn [read_lines]. pose proof (read_line_step literal_eval data reading raw Hinv) as Hstep.
  destruct (read_line literal_eval data reading raw) as [st|e']; cbn [read_bind].
  - by apply IH.
  - by intros [= <-].
Qed.

(** X23: [get_data_portion] raises in three ways only: when the second
    field of a line that starts a data portion does not have exactly one
    dot, when [int] rejects one of the two indices, or when
    [ast.literal_eval] rejects a token.  It raises no [IndexError]: a line
    that starts with the directive has a second field, and [data] is not
    empty when a line is read into it. *)
Theorem get_data_portion_raises {V X : Type} (literal_eval : text -> V + X)
    (content : text) (e : read_exn X) :
  get_data_portion literal_eval content = ReadRaise e ->
  e <> IndexError /\
  ((exists n, e = UnpackError n /\ n <> 2%nat) \/
   (exists s, e = IntError (invalid_literal s)) \/
   (exists token x, literal_eval token = inr x /\ e = EvalError x)).
Proof.
  intros H. apply read_lines_raises in H; [|done].
  split; [|done].
  destruct H as [(n & -> & _) | [(s & ->) | (token & x & _ & ->)]]; done.
Qed.

Lemma get_data_portion_raises_witness :
  @UnpackError text 1 <> IndexError /\
  ((exists n, @UnpackError text 1 = UnpackError n /\ n <> 2%nat) \/
   (exists s, @UnpackError text 1 = IntError (invalid_literal s)) \/
   (exists token x, eval_int token = inr x /\ @UnpackError text 1 = EvalError x)).
Proof.
  exact (get_data_portion_raises eval_int (str "@target G0" ++ [NL]) (UnpackError 1) eq_refl).
Defined.

Lemma str_of_Z_nonempty (n : Z) : str_of_Z n <> [].
Proof.
  destruct n as [|p|p]; [done| |done].
  destruct (str_of_Z_digits (Z.pos p)) as [_ H]; [lia|done].
Qed.

Lemma format_short_nonempty (upper : Z) (g : digits) : format_short upper g <> [].
Proof.
  assert (Hs : forall neg (t : text), t <> [] -> sign_text neg ++ t <> []).
  { intros neg t Ht H. by apply app_nil in H as [_ H]. }
  assert (He : forall (a b : text) exp, a ++ b ++ exponent_text exp <> []).
  { intros a b exp H. apply app_nil in H as [_ H]. by apply app_nil in H as [_ H]. }
  unfold format_short. destruct g as [| neg | neg | neg D q]; [done|by apply Hs|..];
    destruct (significant _) as [ds decpt]; apply Hs;
    (destruct (_ || _); [apply He|]);
    (destruct (decpt <=? 0); [done|]);
    (destruct (_ <=? decpt); intros H; apply app_nil in H as [_ H];
       [by apply app_nil in H as [_ H]|done]).
Qed.

Lemma numeric_no_space (t : text) : numeric t -> Forall (fun c => is_space c = false) t.
Proof. intros H. eapply Forall_impl; [exact H|]. intros c. all_chars c. Qed.

(** The text of a number: a numeral that is not empty. *)
Lemma field_number (d : datum) (t : text) :
  is_number d = true -> field d = Some t -> numeric t /\ t <> [].
Proof.
  intros Hn H.
  assert (Hf : forall x, match clean_float x with
                         | Ok it => Some (remove_chars (repr_item it))
                         | Raise _ => None
                         end = Some t -> numeric t /\ t <> []).
  { intros x. destruct (clean_float x) as [it|] eqn:E; [|done].
    pose proof E as E'. apply clean_float_numeric in E' as (t' & -> & Ht'). intros [= <-].
    cbn [repr_item]. rewrite numeric_repr_str by done.
    change (QUOTE :: t' ++ [QUOTE]) with ([QUOTE] ++ t' ++ [QUOTE]).
    rewrite !remove_chars_app, (remove_chars_numeric t') by done.
    change (remove_chars [QUOTE]) with (@nil ascii). rewrite app_nil_r. cbn [app].
    split; [done|]. unfold clean_float, bind in E.
    destruct (int_of_float (float_of_formatted x)) as [n|]; [|done].
    destruct (float_eq_int _ n); injection E as <-;
      [apply str_of_Z_nonempty|apply format_short_nonempty]. }
  destruct d as [x|n|s|x shown]; [by apply (Hf x)| |done|by apply (Hf x)].
  unfold field in H. cbn [try_body repr_item] in H. injection H as <-.
  rewrite remove_chars_numeric by apply numeric_str_of_Z.
  split; [apply numeric_str_of_Z|apply str_of_Z_nonempty].
Qed.

Lemma fields_numbers (en : entry) :
  forallb is_number en = true ->
  Forall (fun t => Forall (fun c => is_space c = false) t /\ t <> []) (fields en).
Proof.
  induction en as [|d en IH]; [constructor|]. cbn [forallb]. intros H.
  apply andb_true_iff in H as [Hd H]. rewrite fields_cons.
  destruct (field d) as [t|] eqn:E; [|by apply IH].
  destruct (field_number d t Hd E) as [Hn Hne].
  constructor; [|by apply IH]. split; [by apply numeric_no_space|done].
Qed.

Lemma cons_run_nonempty (run : text) (others : list text) :
  run <> [] -> cons_run run others = run :: others.
Proof. by destruct run. Qed.

(** The tokens of a line of fields that have no white space. *)
Lemma split_ws_join (fs : list text) :
  Forall (fun t => Forall (fun c => is_space c = false) t /\ t <> []) fs ->
  split_ws (join [SPACE] fs ++ [NL]) = fs.
Proof.
  induction 1 as [|p fs [Hp Hne] Hfs IH]; [done|].
  destruct fs as [|q fs].
  - cbn [join]. unfold split_ws. rewrite runs_token by done.
    by rewrite cons_run_nonempty.
  - change (join [SPACE] (p :: q :: fs) ++ [NL])
      with ((p ++ [SPACE] ++ join [SPACE] (q :: fs)) ++ [NL]).
    rewrite <- !app_assoc. cbn [app]. unfold split_ws at 1.
    rewrite runs_token by done. rewrite IH. by rewrite cons_run_nonempty.
Qed.

(** X24: numbers are read back one by one.  The line of a tuple of floats
    and integers that is not skipped has one token for each of its
    components that is written, the text of that component: this is what
    [get_data_portion] passes to [ast.literal_eval]. *)
Theorem numbers_read_back (en : entry) :
  forallb is_number en = true -> dropped en = false ->
  split_ws (entry_line en) = fields en.
Proof.
  intros Hn Hd. unfold entry_line. rewrite clean_entry_kept by done. cbn [snd].
  by apply split_ws_join, fields_numbers.
Qed.

Lemma numbers_read_back_witness :
  split_ws (entry_line [DFloat tenth; DInt (-3); DFloat two]) = [str "0.1"; str "-3"; str "2"].
Proof.
  exact (numbers_read_back [DFloat tenth; DInt (-3); DFloat two] eq_refl eq_refl).
Defined.

(** A string is not read back so: one with a space in it gives two tokens. *)
Example string_tokens :
  split_ws (entry_line [DStr (str "a b")]) = [DQUOTE :: str "a"; str "b" ++ [DQUOTE]].
Proof. vm_compute. reflexivity. Qed.

Lemma legend_lines_of_sets (sets : list set_input) :
  map snd (map make_legend (enumerate sets))
  = map (fun q : Z * set_input => legend_line (fst q) (label_text (fst (fst (snd q)))))
        (enumerate sets).
Proof. rewrite map_map. apply map_ext. by intros [S_i [[S_label datatype] ens]]. Qed.

(** X25: the label block.  [__init__] gives [legend] an entry for every key
    of [subtitle], so the loop that writes the labels of a file without
    data never fails on [self.legend[G_i]]: it writes, for every group in
    order, the line that starts the group, its subtitle and one legend
    line for each of its sets, with the empty string for a label that is
    [None]. *)
Theorem label_block (now desc : text) (datasets : list group_input) :
  (forall G_i sub, (G_i, sub) ∈ subtitle (Graph_init now desc datasets) ->
     exists sets, dict_get (legend (Graph_init now desc datasets)) G_i = Some sets)
  /\ label_lines (Graph_init now desc datasets)
     = concat (map supplied_label_block (enumerate datasets)).
Proof.
  assert (Hget : forall p : Z * group_input, p ∈ enumerate datasets ->
            dict_get (legend (Graph_init now desc datasets)) (fst p)
            = Some (map make_legend (enumerate (snd (snd p))))).
  { intros [G_i a] Hp. cbn [legend Graph_init fst snd].
    rewrite (dict_get_enumerate (fun p : Z * group_input =>
               map make_legend (enumerate (snd (snd p))))).
    apply enumerate_from_elem in Hp as [_ Hp]. rewrite Z.sub_0_r in Hp. by rewrite Hp. }
  split.
  - intros G_i sub H. cbn [subtitle Graph_init] in H.
    apply elem_of_map in H as (p & [= -> _] & Hp). rewrite Hget by done. eauto.
  - unfold label_lines. cbn [subtitle Graph_init]. rewrite map_map. f_equal.
    apply map_ext_in. intros p Hp. apply list_elem_of_In in Hp. cbn [fst snd].
    rewrite Hget by done. cbn [default id]. by rewrite legend_lines_of_sets.
Qed.

Example label_block_example :
  label_lines (Graph_init (str "now") [] [(Some (str "group1"), [set_alt; (None, str "xy", [])])])
  = [str "@with g0" ++ [NL];
     str "@    subtitle " ++ quoted "group1" ++ [NL];
     str "@    s0 legend  " ++ quoted "alt" ++ [NL];
     str "@    s1 legend  " ++ [DQUOTE; DQUOTE; NL]].
Proof. reflexivity. Qed.

Lemma clean_float_finite (x : spec_float) :
  is_binary64 x = true -> non_finite x = false -> exists it, clean_float x = Ok it.
Proof.
  intros Hb Hf. unfold clean_float, bind.
  pose proof (float_of_formatted_finite x Hb Hf) as Hinf.
  pose proof (float_of_formatted_nan x) as Hnan.
  destruct (float_of_formatted x) as [s|s| |s m e] eqn:E; cbn [int_of_float].
  - destruct (float_eq_int _ _); eauto.
  - by destruct (Hinf s).
  - specialize (Hnan eq_refl). by subst x.
  - destruct (float_eq_int _ _); eauto.
Qed.

Lemma finite_number_field (d : datum) :
  finite_number d = true -> skips d = false /\ is_number d = true /\ exists t, field d = Some t.
Proof.
  destruct d as [x|n|s|x shown]; try done; cbn [finite_number].
  - intros H. apply andb_true_iff in H as [Hb Hf]. apply negb_true_iff in Hf.
    split; [|split; [done|]].
    + unfold skips. by rewrite finite_not_mentioned.
    + unfold field. cbn [try_body]. destruct (clean_float_finite x Hb Hf) as [it ->]. eauto.
  - intros _. split; [|split; [done|]].
    + unfold skips. by rewrite int_not_mentioned.
    + unfold field. cbn [try_body]. eauto.
Qed.

(** X26: integers and finite floats are always written.  A tuple of
    integers within the limit of [str] and finite binary64 floats is never
    skipped, and its line has exactly one token for each of its components:
    no conversion raises, so no component is left out. *)
Theorem finite_numbers_written (en : entry) :
  forallb finite_number en = true ->
  dropped en = false /\ length (split_ws (entry_line en)) = length en.
Proof.
  intros H.
  assert (Hd : dropped en = false /\ forallb is_number en = true
               /\ length (fields en) = length en).
  { induction en as [|d en IH]; [done|]. cbn [forallb] in H.
    apply andb_true_iff in H as [Hd H]. destruct (IH H) as (IH1 & IH2 & IH3).
    destruct (finite_number_field d Hd) as (Hs & Hn & t & Ht).
    unfold dropped in *. cbn [existsb forallb]. rewrite Hs, IH1, Hn, IH2.
    repeat split. rewrite fields_cons, Ht. cbn [length]. by rewrite IH3. }
  destruct Hd as (Hd & Hn & Hl). split; [done|].
  unfold entry_line. rewrite clean_entry_kept by done. cbn [snd].
  rewrite split_ws_join by (by apply fields_numbers). done.
Qed.

Lemma finite_numbers_written_witness :
  dropped [DFloat tenth; DInt 3; DFloat ten_to_16] = false /\
  length (split_ws (entry_line [DFloat tenth; DInt 3; DFloat ten_to_16])) = 3%nat.
Proof.
  assert (H : forallb finite_number [DFloat tenth; DInt 3; DFloat ten_to_16] = true)
    by (vm_compute; reflexivity).
  exact (finite_numbers_written [DFloat tenth; DInt 3; DFloat ten_to_16] H).
Defined.




(** The reader strips the lines and the merge does not: an indented line
    with the data directive is kept by the merge as any other line, and
    starts a data portion for the reader. *)
Example indented_target :
  passthrough (str "  @target G7.S7" ++ [NL]) = true /\
  get_data_portion eval_int (str "  @target G7.S7" ++ [NL]) = ReadOk [mkPortion 7 7 None []].
Proof. split; vm_compute; reflexivity. Qed.

(** An empty datatype is not read back: the stripped line is [@type], which
    does not start with the directive, and is read as a tuple. *)
Example empty_datatype_read_as_tuple :
  get_data_portion eval_int (concat (block_lines 0 (0, mkSet [] [] [])))
  = ReadRaise (EvalError (str "@type")).
Proof. vm_compute. reflexivity. Qed.

(** ** Floats with a fraction *)

(** Rounding to the nearest integer is off by at most one half. *)
Lemma round_half_even_near (n d : Z) :
  0 < d ->
  2 * (n - round_half_even (n, d) * d) <= d /\ - d <= 2 * (n - round_half_even (n, d) * d).
Proof.
  intros Hd. unfold round_half_even.
  pose proof (Z.div_mod n d ltac:(lia)) as Hn.
  pose proof (Z.mod_pos_bound n d Hd) as Hr.
  set (q := n / d) in *. set (r := n mod d) in *. clearbody q r.
  destruct (2 * r <? d) eqn:E1; [apply Z.ltb_lt in E1; nia|]. apply Z.ltb_ge in E1.
  destruct (d <? 2 * r) eqn:E2; [apply Z.ltb_lt in E2; nia|]. apply Z.ltb_ge in E2.
  destruct (Z.even q); nia.
Qed.

Lemma first_below_prev (fuel : nat) (b : Z) (x : ratio) (p0 : Z) :
  below_pow b x (p0 - 1) = false ->
  below_pow b x (first_below fuel b x p0 - 1) = false.
Proof.
  revert p0. induction fuel as [|fuel IH]; intros p0 H; cbn [first_below]; [done|].
  destruct (below_pow b x p0) eqn:E; [done|]. apply IH.
  by replace (p0 + 1 - 1) with p0 by lia.
Qed.

(** The binary exponent is not too large: [2^(p-1) <= x]. *)
Lemma binpt_of_ge (n d : Z) :
  0 < n -> 0 < d -> below_pow 2 (n, d) (binpt_of (n, d) - 1) = false.
Proof.
  intros Hn Hd. unfold binpt_of. apply first_below_prev.
  destruct (Z.log2_spec n Hn) as [Hn1 Hn2]. destruct (Z.log2_spec d Hd) as [Hd1 Hd2].
  pose proof (Z.log2_nonneg n) as Ha. pose proof (Z.log2_nonneg d) as Hb.
  set (a := Z.log2 n) in *. set (b := Z.log2 d) in *. clearbody a b.
  unfold below_pow. destruct (0 <=? a - b - 1) eqn:E.
  - apply Z.leb_le in E. apply Z.ltb_ge.
    assert (HA : 2 ^ a = 2 ^ (a - b - 1) * 2 ^ Z.succ b)
      by (rewrite <- Z.pow_add_r by lia; f_equal; lia).
    assert (0 < 2 ^ (a - b - 1)) by (apply Z.pow_pos_nonneg; lia).
    remember (2 ^ (a - b - 1)) as P. remember (2 ^ Z.succ b) as B. nia.
  - apply Z.leb_gt in E. apply Z.ltb_ge.
    assert (HA : 2 ^ Z.succ b = 2 ^ a * 2 ^ (- (a - b - 1)))
      by (rewrite <- Z.pow_add_r by lia; f_equal; lia).
    assert (0 < 2 ^ (- (a - b - 1))) by (apply Z.pow_pos_nonneg; lia).
    remember (2 ^ (- (a - b - 1))) as P. remember (2 ^ a) as A. nia.
Qed.

(** A float with a negative exponent whose significand is not a multiple
    of the power of two is not equal to its integer part. *)
Lemma float_not_int (s : bool) (Q : positive) (e : Z) (k : Z) :
  e < 0 -> ~ (2 ^ (- e) | Z.pos Q) ->
  int_of_float (S754_finite s Q e) = Ok k ->
  float_eq_int (S754_finite s Q e) k = false.
Proof.
  intros He Hdiv. cbn [int_of_float float_eq_int].
  replace (0 <=? e) with false by (symmetry; apply Z.leb_gt; lia).
  intros [= <-]. apply Z.eqb_neq. intros H. apply Hdiv.
  exists (Z.pos Q / 2 ^ (- e)). destruct s; [|done].
  change (Z.neg Q) with (- Z.pos Q) in H. lia.
Qed.

(** The float nearest to a decimal with at most eight digits and a
    fraction: it is not zero when the decimal is above half the least
    positive float, and it has a fraction too. *)
Lemma round64_fraction (s : bool) (D k : Z) :
  0 < D <= 10 ^ 8 -> 1 <= k -> ~ (10 ^ k | D) -> 10 ^ k < 2 * D * 2 ^ 1074 ->
  exists Q e, round64 s (D, 10 ^ k) = S754_finite s Q e /\ e < 0 /\ ~ (2 ^ (- e) | Z.pos Q).
Proof.
  intros HD Hk Hdiv Hlow.
  assert (H10 : 0 < 10 ^ k) by (apply Z.pow_pos_nonneg; lia).
  assert (H10k : 10 <= 10 ^ k).
  { change 10 with (10 ^ 1) at 1. apply Z.pow_le_mono_r; lia. }
  assert (Hb : binpt_of (D, 10 ^ k) <= 24).
  { apply binpt_of_le; [lia..|]. change (10 ^ 8) with 100000000 in HD.
    change (2 ^ 24) with 16777216. nia. }
  pose proof (binpt_of_ge D (10 ^ k) ltac:(lia) H10) as Hge.
  unfold round64.
  set (p := binpt_of (D, 10 ^ k)) in *.
  set (e := Z.max (p - 53) (-1074)).
  assert (He : e <= -29) by lia.
  assert (He' : -1074 <= e) by lia.
  set (B := 2 ^ (- e)).
  assert (HB : 2 ^ 29 <= B) by (apply Z.pow_le_mono_r; lia).
  assert (Hscale : scale 2 (D, 10 ^ k) e = (D * B, 10 ^ k)).
  { unfold scale. by replace (0 <=? e) with false by (symmetry; apply Z.leb_gt; lia). }
  rewrite Hscale.
  destruct (round_half_even_near (D * B) (10 ^ k) H10) as [Hup Hdown].
  set (Q := round_half_even (D * B, 10 ^ k)) in *.
  assert (HQ : 0 < Q).
  { assert (HQ0 : 0 <= Q) by (apply round_half_even_nonneg; nia).
    destruct (Z.eq_dec Q 0) as [E0 | ?]; [|lia]. exfalso. rewrite E0 in Hup.
    destruct (Z.eq_dec e (-1074)) as [Ee | Hne].
    - unfold B in Hup. rewrite Ee in Hup. change (- -1074) with 1074 in Hup. lia.
    - assert (Ep : e = p - 53) by lia.
      unfold below_pow in Hge. destruct (0 <=? p - 1) eqn:E1.
      + apply Z.leb_le in E1. apply Z.ltb_ge in Hge.
        assert (0 < 2 ^ (p - 1)) by (apply Z.pow_pos_nonneg; lia). nia.
      + apply Z.leb_gt in E1. apply Z.ltb_ge in Hge.
        assert (HBp : B = 2 ^ (- (p - 1)) * 2 ^ 52).
        { unfold B. rewrite <- Z.pow_add_r by lia. f_equal. lia. }
        assert (0 < 2 ^ (- (p - 1))) by (apply Z.pow_pos_nonneg; lia).
        change (2 ^ 52) with 4503599627370496 in HBp.
        remember (2 ^ (- (p - 1))) as P. nia. }
  replace (Q =? 0) with false by (symmetry; apply Z.eqb_neq; lia).
  replace (0 <=? e) with false by (symmetry; apply Z.leb_gt; lia). cbn [andb].
  exists (Z.to_pos Q), e. split; [done|]. split; [lia|].
  rewrite Z2Pos.id by done. fold B. intros [N HN].
  assert (HN1 : 1 <= N) by nia.
  assert (Hne : D <> N * 10 ^ k) by (intros E; apply Hdiv; by exists N).
  change (2 ^ 29) with 536870912 in HB. change (10 ^ 8) with 100000000 in HD.
  rewrite HN in Hup, Hdown.
  assert (Hc : D < N * 10 ^ k \/ N * 10 ^ k < D) by lia.
  remember (10 ^ k) as T. nia.
Qed.

Lemma decpt_from_prev (fuel : nat) (n d p : Z) :
  p < decpt_from fuel n d p -> d * 10 ^ (decpt_from fuel n d p - 1 - p) <= n.
Proof.
  revert d p. induction fuel as [|fuel IH]; intros d p; cbn [decpt_from]; [lia|].
  destruct (n <? d) eqn:E; [lia|]. apply Z.ltb_ge in E. intros _.
  pose proof (decpt_from_ge fuel n (d * 10) (p + 1)) as Hge.
  set (r := decpt_from fuel n (d * 10) (p + 1)) in *.
  destruct (Z.eq_dec r (p + 1)) as [-> | Hne].
  - replace (p + 1 - 1 - p) with 0 by lia. change (10 ^ 0) with 1. lia.
  - specialize (IH (d * 10) (p + 1) ltac:(fold r; lia)). fold r in IH.
    replace (r - 1 - p) with (Z.succ (r - 1 - (p + 1))) by lia.
    rewrite Z.pow_succ_r by lia. lia.
Qed.

Lemma decpt_from_S (fuel : nat) (n d p : Z) :
  decpt_from (S fuel) n d p = if n <? d then p else decpt_from fuel n (d * 10) (p + 1).
Proof. reflexivity. Qed.

(** A binary64 is at least the least positive one, [2^-1074]. *)
Lemma dyadic_low (m : positive) (e n d : Z) :
  -1074 <= e -> ratio_of_dyadic m e = (n, d) -> 0 < n /\ 0 < d /\ d <= n * 2 ^ 1074.
Proof.
  intros He. unfold ratio_of_dyadic.
  assert (HW : 0 < 2 ^ 1074) by (by vm_compute).
  destruct (0 <=? e) eqn:E; intros [= <- <-].
  - apply Z.leb_le in E. assert (0 < 2 ^ e) by (apply Z.pow_pos_nonneg; lia).
    assert (0 < Z.pos m * 2 ^ e) by lia.
    remember (2 ^ 1074) as W. remember (Z.pos m * 2 ^ e) as B. repeat split; nia.
  - apply Z.leb_gt in E.
    assert (0 < 2 ^ (- e)) by (apply Z.pow_pos_nonneg; lia).
    assert (2 ^ (- e) <= 2 ^ 1074) by (apply Z.pow_le_mono_r; lia).
    remember (2 ^ 1074) as W. remember (2 ^ (- e)) as B. repeat split; nia.
Qed.

(** The digits of a binary64 taken below its decimal point: at least
    [10^7], for the point is where the number starts. *)
Lemma decpt_of_low (n d : Z) :
  0 < n -> 0 < d -> d <= n * 2 ^ 1074 ->
  -330 < decpt_of (n, d) /\ d * 10 ^ (decpt_of (n, d) + 329) <= n * 10 ^ 330.
Proof.
  intros Hn Hd Hlow. unfold decpt_of.
  assert (HW : 2 ^ 1074 <= 10 ^ 330) by (by vm_compute).
  assert (H0 : 0 < 2 ^ 1074) by (by vm_compute).
  assert (Hstart : d <= n * 10 ^ 330).
  { remember (2 ^ 1074) as W. remember (10 ^ 330) as C. nia. }
  assert (Hp : -330 < decpt_from 700 (n * 10 ^ 330) d (-330)).
  { change 700%nat with (S 699). rewrite decpt_from_S.
    replace (n * 10 ^ 330 <? d) with false by (symmetry; apply Z.ltb_ge; lia).
    pose proof (decpt_from_ge 699 (n * 10 ^ 330) (d * 10) (-330 + 1)). lia. }
  split; [done|]. pose proof (decpt_from_prev _ _ _ _ Hp) as H.
  by replace (decpt_from 700 (n * 10 ^ 330) d (-330) - 1 - -330)
    with (decpt_from 700 (n * 10 ^ 330) d (-330) + 329) in H by lia.
Qed.

(** X28: a float with a fraction is written with eight significant digits.
    For a finite binary64 whose rendering with eight significant digits
    does not denote an integer, [float] of the rendering is not equal to
    its [int], and [clean_entry] writes the rendering itself. *)
Theorem fraction_rendering (x : spec_float) :
  is_binary64 x = true -> non_finite x = false ->
  is_integral (dtoa_fixed PRECISION x) = false ->
  (forall n, int_of_float (float_of_formatted x) = Ok n ->
             float_eq_int (float_of_formatted x) n = false)
  /\ clean_entry [DFloat x] = ([], Ok (format_float x ++ [NL])).
Proof.
  intros Hb Hfin Hint.
  assert (Hne : forall n, int_of_float (float_of_formatted x) = Ok n ->
                          float_eq_int (float_of_formatted x) n = false).
  { destruct x as [s0|s0| |s m e]; try done.
    apply andb_prop in Hb as [Hm He]. apply andb_prop in Hm as [Hm He'].
    apply Z.ltb_lt in Hm. apply Z.leb_le in He, He'.
    unfold float_of_formatted. unfold dtoa_fixed in *.
    destruct (ratio_of_dyadic m e) as [nx dx] eqn:Er.
    destruct (dyadic_low m e nx dx He' Er) as (Hnx & Hdx & Hlow).
    destruct (dyadic_bound m e nx dx Hm He Er) as (_ & _ & Hmax).
    destruct (decpt_of_low nx dx Hnx Hdx Hlow) as [Hp Hpl].
    destruct (decpt_of_binary64 nx dx ltac:(lia) Hdx Hmax) as [Hbelow _].
    set (p := decpt_of (nx, dx)) in *. unfold PRECISION in *.
    pose proof (eight_digits nx dx p ltac:(lia) Hdx Hbelow) as HD8.
    set (D := round_half_even (scale 10 (nx, dx) (p - 8))) in *.
    destruct D as [|D'|D'] eqn:ED; [done| |done].
    cbn [digits_of float_of_digits is_integral] in *.
    unfold decimal, scale in *.
    destruct (0 <=? - (p - 8)) eqn:Eq.
    2:{ by rewrite Z.mod_1_r in Hint. }
    apply Z.leb_le in Eq. apply Z.eqb_neq in Hint. rewrite Z.mul_1_l in *.
    set (k := - (p - 8)) in *.
    assert (Hk : 1 <= k).
    { destruct (Z.eq_dec k 0) as [E0 | ?]; [|lia]. rewrite E0 in Hint.
      change (10 ^ 0) with 1 in Hint. by rewrite Z.mod_1_r in Hint. }
    assert (HT : 0 < 10 ^ k) by (apply Z.pow_pos_nonneg; lia).
    assert (Hdiv : ~ (10 ^ k | Z.pos D')).
    { intros H. apply Hint. apply Z.mod_divide; [lia|done]. }
    assert (HDeq : Z.pos D' = round_half_even (nx * 10 ^ k, dx)).
    { rewrite <- ED. unfold D, scale.
      replace (0 <=? p - 8) with false by (symmetry; apply Z.leb_gt; lia). done. }
    assert (H7 : dx * 10 ^ 7 <= nx * 10 ^ k).
    { assert (HA : 10 ^ (p + 329) * 10 ^ k = 10 ^ 7 * 10 ^ 330).
      { rewrite <- !Z.pow_add_r by lia. f_equal. lia. }
      assert (HC : 0 < 10 ^ 330) by (by vm_compute).
      assert (0 < 10 ^ (p + 329)) by (apply Z.pow_pos_nonneg; lia).
      remember (10 ^ (p + 329)) as A. remember (10 ^ k) as T. remember (10 ^ 330) as C.
      remember (10 ^ 7) as S7.
      assert (dx * A * T <= nx * C * T) by nia.
      assert (dx * S7 * C <= nx * T * C) by nia.
      nia. }
    assert (Hlow' : 10 ^ k < 2 * Z.pos D' * 2 ^ 1074).
    { destruct (round_half_even_near (nx * 10 ^ k) dx Hdx) as [Hup _].
      rewrite <- HDeq in Hup.
      assert (HW : 0 < 2 ^ 1074) by (by vm_compute).
      change (10 ^ 7) with 10000000 in H7.
      remember (10 ^ k) as T. remember (2 ^ 1074) as W.
      assert (nx * T < 2 * Z.pos D' * dx) by nia.
      assert (T * dx <= T * (nx * W)) by nia.
      nia. }
    destruct (round64_fraction s (Z.pos D') k ltac:(lia) Hk Hdiv Hlow') as (Q & e2 & -> & He2 & HQ).
    intros n. by apply float_not_int. }
  split; [exact Hne|].
  unfold clean_entry. rewrite clean_loop_cons, finite_not_mentioned by done.
  change (try_body (DFloat x)) with (clean_float x).
  unfold clean_float, bind.
  pose proof (float_of_formatted_finite x Hb Hfin) as Hinf.
  pose proof (float_of_formatted_nan x) as Hnan.
  destruct (int_of_float (float_of_formatted x)) as [n|err] eqn:En.
  2:{ exfalso. destruct (float_of_formatted x) as [s|s| |s m e]; try done.
      - by destruct (Hinf s).
      - specialize (Hnan eq_refl). by subst x. }
  rewrite (Hne n eq_refl). cbn [clean_loop app].
  rewrite clean_line_numeric; [done|]. unfold format_float. apply numeric_format_short.
  - intros H. apply dtoa_fixed_nan in H. by subst x.
  - intros neg H. destruct x as [s|s| |s m e]; try done.
    unfold dtoa_fixed, digits_of in H. by destruct (round_half_even _).
Qed.

Lemma fraction_rendering_witness :
  clean_entry [DFloat tenth] = ([], Ok (format_float tenth ++ [NL])).
Proof. exact (proj2 (fraction_rendering tenth eq_refl eq_refl eq_refl)). Defined.
